(** * FuzzDriller: a shallow embedding of [driller.py]

    The development follows the layout of the program: the Python string
    operations the program relies on, the [FuzzDriller] object with its
    methods, the cooperative dispatch of [_process_paths] as a transition
    system, the report writer, the content fetcher and the interactive
    menu.  Theorems come after all definitions. *)

From Stdlib Require Import ZArith NArith String Ascii.
From stdpp Require Import gmap list sorting.

Local Open Scope N_scope.

(** ** Python strings

    A Python [str] is a sequence of Unicode code points. *)

Definition codepoint := N.
Definition pystr := list codepoint.

(** Literals of the source are ASCII; [py] reads one. *)
Definition py (s : string) : pystr :=
  map (fun a => N.of_nat (nat_of_ascii a)) (list_ascii_of_string s).

Definition SLASH : codepoint := 47.
Definition COMMA : codepoint := 44.
Definition HYPHEN : codepoint := 45.
Definition UNDERSCORE : codepoint := 95.
Definition LF : codepoint := 10.
Definition CR : codepoint := 13.
Definition DOT : codepoint := 46.

Definition str_eqb (a b : pystr) : bool := bool_decide (a = b).

(** [c in chars] for a character [c]. *)
Definition char_in (chars : pystr) (c : codepoint) : bool :=
  existsb (N.eqb c) chars.

(** [str.isspace] for one character: the white space table of CPython
    ([_PyUnicode_IsWhitespace]). *)
Definition isspace (c : codepoint) : bool :=
  ((9 <=? c) && (c <=? 13)) || ((28 <=? c) && (c <=? 32))
  || (c =? 133) || (c =? 160) || (c =? 5760)
  || ((8192 <=? c) && (c <=? 8202))
  || (c =? 8232) || (c =? 8233) || (c =? 8239) || (c =? 8287)
  || (c =? 12288).

(** [s.lstrip(...)]: drop the longest prefix of characters in the class. *)
Fixpoint lstrip_by (p : codepoint -> bool) (s : pystr) : pystr :=
  match s with
  | [] => []
  | c :: s' => if p c then lstrip_by p s' else s
  end.

(** [s.rstrip(...)]: drop the longest suffix of characters in the class. *)
Fixpoint rstrip_by (p : codepoint -> bool) (s : pystr) : pystr :=
  match s with
  | [] => []
  | c :: s' =>
      match rstrip_by p s' with
      | [] => if p c then [] else [c]
      | r => c :: r
      end
  end.

Definition strip_by (p : codepoint -> bool) (s : pystr) : pystr :=
  rstrip_by p (lstrip_by p s).

(** [s.lstrip(chars)], [s.rstrip(chars)], [s.strip(chars)] and [s.strip()]. *)
Definition lstrip (chars s : pystr) : pystr := lstrip_by (char_in chars) s.
Definition rstrip (chars s : pystr) : pystr := rstrip_by (char_in chars) s.
Definition strip (chars s : pystr) : pystr := strip_by (char_in chars) s.
Definition strip_ws (s : pystr) : pystr := strip_by isspace s.

(** [s.startswith(p)]. *)
Fixpoint startswith (p s : pystr) : bool :=
  match p, s with
  | [], _ => true
  | _ :: _, [] => false
  | a :: p', b :: s' => (a =? b) && startswith p' s'
  end.

(** [needle in hay] for strings: substring test. *)
Fixpoint contains (needle hay : pystr) : bool :=
  startswith needle hay
  || match hay with
     | [] => false
     | _ :: hay' => contains needle hay'
     end.

(** [s.replace(old, new)]: every non-overlapping occurrence of [old], found
    from the left, is replaced.  [skip] counts the characters of an
    occurrence still to be passed over. *)
Fixpoint replace_go (old new : pystr) (skip : nat) (s : pystr) : pystr :=
  match s with
  | [] => []
  | c :: s' =>
      match skip with
      | S k => replace_go old new k s'
      | O =>
          if startswith old s
          then new ++ replace_go old new (pred (length old)) s'
          else c :: replace_go old new O s'
      end
  end.

Definition replace (old new s : pystr) : pystr :=
  match old with
  | [] => new ++ flat_map (fun c => c :: new) s
  | _ :: _ => replace_go old new O s
  end.

(** [s.split(sep)] for a one-character separator. *)
Fixpoint split (sep : codepoint) (s : pystr) : list pystr :=
  match s with
  | [] => [[]]
  | c :: s' =>
      if c =? sep then [] :: split sep s'
      else match split sep s' with
           | [] => [[c]]
           | w :: ws => (c :: w) :: ws
           end
  end.

(** Comparison of strings ([<=] on [str]): lexicographic on code points. *)
Fixpoint str_leb (a b : pystr) : bool :=
  match a, b with
  | [], _ => true
  | _ :: _, [] => false
  | x :: a', y :: b' => (x <? y) || ((x =? y) && str_leb a' b')
  end.

Definition str_le (a b : pystr) : Prop := str_leb a b = true.
Definition str_lt (a b : pystr) : Prop := str_le a b /\ a <> b.

#[export] Instance str_le_dec : RelDecision str_le.
Proof. intros a b. unfold str_le. apply _. Defined.

(** [sorted(xs)] on strings. *)
Definition sorted (xs : list pystr) : list pystr := merge_sort str_le xs.

(** ** Module constants *)

Definition DEFAULT_WORDLIST : pystr := py "Wordlist/pro_100.txt".
Definition DEFAULT_OUTPUT : pystr := py "endpoints.txt".
Definition VALID_STATUS_CODES : list Z :=
  (map Z.of_nat (seq 200 100) ++ [401; 403])%Z.
Definition DEFAULT_METHODS : list pystr := [py "HEAD"].
Definition MAX_CONCURRENT_REQUESTS : nat := 100.
Arguments MAX_CONCURRENT_REQUESTS : simpl never.
Definition COMMON_PATHS : list pystr :=
  [py "/admin"; py "/login"; py "/dashboard"; py "/user"; py "/api"].

(** ** The Python runtime

    Three library functions are used by the program but are not part of it:
    [json.loads], [int] applied to a string, and the Unicode database
    behind the regular expression class [\w].  They are parameters of the
    model.  [uni_alnum] is consulted for code points from 128 on only. *)

#[local] Unset Elimination Schemes.
Inductive JSON :=
  | JNull
  | JBool (b : bool)
  | JNumber (literal : pystr)
  | JString (s : pystr)
  | JArray (items : list JSON)
  | JObject (members : list (pystr * JSON)).
#[local] Set Elimination Schemes.

Class PyRuntime := {
  json_loads : pystr -> option JSON;   (* [None]: json.JSONDecodeError *)
  py_int : pystr -> option Z;          (* [None]: ValueError *)
  uni_alnum : codepoint -> bool        (* Py_UNICODE_ISALNUM *)
}.

Inductive exn :=
  | JSONDecodeError
  | ValueError
  | EOFError
  | ZeroDivisionError.

Inductive Result (A : Type) :=
  | Ok (a : A)
  | Raise (e : exn).
Arguments Ok {A} a.
Arguments Raise {A} e.

(** ** The world outside the process: files and the terminal *)

Inductive message :=
  | MsgFound (code : Z) (url : pystr)
  | MsgFetchError (url : pystr)
  | MsgTotalTasks (n : nat)
  | MsgLoaded (n : nat)
  | MsgNoEndpoints
  | MsgSaved (file : pystr)
  | MsgDownloading
  | MsgDownloaded (url path : pystr)
  | MsgDownloadFailed (url : pystr)
  | MsgDownloadCompleted
  | MsgWelcome
  | MsgSetTargetFirst
  | MsgStartingFuzzing
  | MsgSetConfigurations
  | MsgConfigurationsUpdated
  | MsgCurrentConfigurations
  | MsgScanTargetFirst
  | MsgDownloadingDirectories
  | MsgExiting
  | MsgInvalidChoice.

Inductive output :=
  | LogInfo (m : message)
  | LogWarning (m : message)
  | LogError (m : message)
  | Print (m : message)
  | ProgressBar (completed total : nat).

(** [files] maps a path to the text of the regular file there, as decoded
    on reading.  Opening a file for writing is taken to succeed. *)
Record World := mkWorld {
  files : gmap pystr pystr;
  console : list output
}.

Definition emit (o : output) (w : World) : World :=
  {| files := files w; console := console w ++ [o] |}.

Definition write_file (path text : pystr) (w : World) : World :=
  {| files := <[path := text]> (files w); console := console w |}.

(** ** class FuzzDriller *)

Inductive Session := NoSession | OpenSession | ClosedSession.

Record FuzzDriller := mkFuzzDriller {
  base_url : pystr;
  wordlist : pystr;
  output_file : pystr;
  headers : JSON;
  cookies : JSON;
  methods : list pystr;
  valid_status_codes : list Z;
  found_endpoints : gset pystr;
  session : Session;
  total_tasks : nat;
  completed_tasks : nat
}.

Definition set_found_endpoints (s : gset pystr) (self : FuzzDriller) :=
  {| base_url := base_url self; wordlist := wordlist self;
     output_file := output_file self; headers := headers self;
     cookies := cookies self; methods := methods self;
     valid_status_codes := valid_status_codes self;
     found_endpoints := s; session := session self;
     total_tasks := total_tasks self;
     completed_tasks := completed_tasks self |}.

Definition set_session (x : Session) (self : FuzzDriller) :=
  {| base_url := base_url self; wordlist := wordlist self;
     output_file := output_file self; headers := headers self;
     cookies := cookies self; methods := methods self;
     valid_status_codes := valid_status_codes self;
     found_endpoints := found_endpoints self; session := x;
     total_tasks := total_tasks self;
     completed_tasks := completed_tasks self |}.

Definition set_total_tasks (n : nat) (self : FuzzDriller) :=
  {| base_url := base_url self; wordlist := wordlist self;
     output_file := output_file self; headers := headers self;
     cookies := cookies self; methods := methods self;
     valid_status_codes := valid_status_codes self;
     found_endpoints := found_endpoints self; session := session self;
     total_tasks := n;
     completed_tasks := completed_tasks self |}.

Definition set_completed_tasks (n : nat) (self : FuzzDriller) :=
  {| base_url := base_url self; wordlist := wordlist self;
     output_file := output_file self; headers := headers self;
     cookies := cookies self; methods := methods self;
     valid_status_codes := valid_status_codes self;
     found_endpoints := found_endpoints self; session := session self;
     total_tasks := total_tasks self;
     completed_tasks := n |}.

(** [FuzzDriller.__init__] *)
Definition __init__ (base_url wordlist output_file : pystr)
    (headers cookies : JSON) (methods : list pystr)
    (valid_status_codes : list Z) : FuzzDriller :=
  {| base_url := rstrip (py "/") base_url;
     wordlist := wordlist;
     output_file := output_file;
     headers := headers;
     cookies := cookies;
     methods := methods;
     valid_status_codes := valid_status_codes;
     found_endpoints := ∅;
     session := NoSession;
     total_tasks := 0;
     completed_tasks := 0 |}.

(** What the network gives back for one request. *)
Record HttpResponse := mkResponse {
  status : Z;
  content_type : option pystr;   (* the Content-Type header, when present *)
  text : option pystr            (* [response.text()]; [None] when it raises *)
}.

Inductive Reply :=
  | Responded (r : HttpResponse)
  | TransportFailure.

(** [x in xs] on a list of integers. *)
Definition status_in (code : Z) (codes : list Z) : bool :=
  existsb (Z.eqb code) codes.

(** The request URL built on the first line of [_fetch]. *)
Definition request_url (self : FuzzDriller) (path : pystr) : pystr :=
  base_url self ++ py "/" ++ lstrip (py "/") path.

(** [FuzzDriller._print_progress_bar]: the bar is a function of the two
    counters; the division raises when [total_tasks] is zero. *)
Definition _print_progress_bar (self : FuzzDriller) (w : World)
    : World * Result unit :=
  match total_tasks self with
  | O => (w, Raise ZeroDivisionError)
  | S _ => (emit (ProgressBar (completed_tasks self) (total_tasks self)) w, Ok tt)
  end.

(** [FuzzDriller._fetch], from the request to the return.  A request made
    without an open session raises inside the [try] and is handled by the
    [except] clause like a transport failure. *)
Definition _fetch (self : FuzzDriller) (w : World) (path method : pystr)
    (reply : Reply) : FuzzDriller * World * Result (option Z) :=
  let url := request_url self path in
  let '(self1, w1, ret) :=
    match session self, reply with
    | OpenSession, Responded response =>
        if status_in (status response) (valid_status_codes self)
        then (set_found_endpoints ({[url]} ∪ found_endpoints self) self,
              emit (LogInfo (MsgFound (status response) url)) w,
              Some (status response))
        else (self, w, Some (status response))
    | _, _ => (self, emit (LogError (MsgFetchError url)) w, None)
    end in
  (* finally *)
  let self2 := set_completed_tasks (completed_tasks self1 + 1) self1 in
  match _print_progress_bar self2 w1 with
  | (w2, Ok _) => (self2, w2, Ok ret)
  | (w2, Raise e) => (self2, w2, Raise e)
  end.

(** ** Dispatch: [_process_paths]

    Every candidate is a coroutine [_bound_fetch(path, method)]; the event
    loop runs them between suspension points.  A candidate waits for the
    semaphore, holds a slot while its request is in flight, and is done
    once [_fetch] has returned or raised and the slot is given back. *)

Inductive task_state :=
  | Waiting
  | InFlight
  | Done (r : Result (option Z)).

Record Task := mkTask {
  t_path : pystr;
  t_method : pystr;
  t_state : task_state
}.

Record Dispatch := mkDispatch {
  self_ : FuzzDriller;
  world_ : World;
  sem : nat;                  (* free slots of the semaphore *)
  tasks : list Task
}.

Inductive event :=
  | Acquire (i : nat)                 (* task [i] enters [async with sem] *)
  | Complete (i : nat) (reply : Reply). (* its request ends; [_fetch] finishes *)

Definition step (e : event) (d : Dispatch) : option Dispatch :=
  match e with
  | Acquire i =>
      match tasks d !! i, sem d with
      | Some (mkTask p m Waiting), S k =>
          Some {| self_ := self_ d; world_ := world_ d; sem := k;
                  tasks := <[i := mkTask p m InFlight]> (tasks d) |}
      | _, _ => None
      end
  | Complete i reply =>
      match tasks d !! i with
      | Some (mkTask p m InFlight) =>
          let '(self', w', r) := _fetch (self_ d) (world_ d) p m reply in
          Some {| self_ := self'; world_ := w'; sem := S (sem d);
                  tasks := <[i := mkTask p m (Done r)]> (tasks d) |}
      | _ => None
      end
  end.

Fixpoint exec (evs : list event) (d : Dispatch) : option Dispatch :=
  match evs with
  | [] => Some d
  | e :: evs' =>
      match step e d with
      | Some d' => exec evs' d'
      | None => None
      end
  end.

Definition is_done (t : Task) : bool :=
  match t_state t with Done _ => true | _ => false end.

Definition is_in_flight (t : Task) : bool :=
  match t_state t with InFlight => true | _ => false end.

Definition is_waiting (t : Task) : bool :=
  match t_state t with Waiting => true | _ => false end.

(** The barrier [asyncio.gather] is passed once every task is done. *)
Definition all_done (d : Dispatch) : bool := forallb is_done (tasks d).

Definition count_tasks (p : Task -> bool) (ts : list Task) : nat :=
  length (List.filter p ts).

(** Requests awaiting a response. *)
Definition in_flight (d : Dispatch) : nat := count_tasks is_in_flight (tasks d).

(** The coroutines created by the two nested loops of [_process_paths]. *)
Definition candidates (paths methods : list pystr) : list Task :=
  flat_map (fun path => map (fun method => mkTask path method Waiting) methods)
           paths.

(** [_process_paths] up to the call of [asyncio.gather]. *)
Definition _process_paths_dispatch (self : FuzzDriller) (w : World)
    (paths : list pystr) : Dispatch :=
  let self1 := set_total_tasks (length paths * length (methods self)) self in
  {| self_ := self1;
     world_ := emit (Print (MsgTotalTasks (total_tasks self1))) w;
     sem := MAX_CONCURRENT_REQUESTS;
     tasks := candidates paths (methods self) |}.

(** The exception [gather] re-raises, if a task raised. *)
Fixpoint first_raised (ts : list Task) : option exn :=
  match ts with
  | [] => None
  | t :: ts' =>
      match t_state t with
      | Done (Raise e) => Some e
      | _ => first_raised ts'
      end
  end.

(** [_process_paths] along a trace [evs] of the event loop; [None] when
    [evs] is not a trace that reaches the barrier. *)
Definition _process_paths (self : FuzzDriller) (w : World)
    (paths : list pystr) (evs : list event)
    : option (FuzzDriller * World * Result unit) :=
  match exec evs (_process_paths_dispatch self w paths) with
  | Some d =>
      if all_done d
      then Some (self_ d, world_ d,
                 match first_raised (tasks d) with
                 | Some e => Raise e
                 | None => Ok tt
                 end)
      else None
  | None => None
  end.

(** ** Reading the word list *)

(** Text mode with universal newlines: [\r\n] and [\r] are read as [\n]. *)
Fixpoint universal_newlines (s : pystr) : pystr :=
  match s with
  | [] => []
  | c :: s' =>
      if c =? CR then
        LF :: match s' with
              | d :: s'' =>
                  if d =? LF then universal_newlines s''
                  else universal_newlines s'
              | [] => []
              end
      else c :: universal_newlines s'
  end.

(** The lines a text yields on iteration, each with its line feed. *)
Fixpoint split_lines (s : pystr) : list pystr :=
  match s with
  | [] => []
  | c :: s' =>
      if c =? LF then [LF] :: split_lines s'
      else match split_lines s' with
           | [] => [[c]]
           | l :: ls => (c :: l) :: ls
           end
  end.

Definition file_lines (text : pystr) : list pystr :=
  split_lines (universal_newlines text).

(** Truth value of a string: non-empty. *)
Definition truthy (s : pystr) : bool :=
  match s with [] => false | _ :: _ => true end.

(** [FuzzDriller._load_wordlist].  [list(set(paths))] has the elements of
    the set in an order of its own. *)
Definition _load_wordlist (self : FuzzDriller) (w : World) : list pystr :=
  let from_file :=
    match files w !! wordlist self with
    | Some text =>
        map strip_ws
          (List.filter (fun line => truthy (strip_ws line)) (file_lines text))
    | None => []
    end in
  let paths := from_file ++ COMMON_PATHS in
  elements (list_to_set paths : gset pystr).

(** [FuzzDriller._save_results] *)
Definition report_text (urls : list pystr) : pystr :=
  flat_map (fun endpoint => endpoint ++ [LF]) urls.

Definition _save_results (self : FuzzDriller) (w : World) : World :=
  if bool_decide (found_endpoints self = ∅)
  then emit (LogWarning MsgNoEndpoints) w
  else
    let w1 :=
      write_file (output_file self)
        (report_text (sorted (elements (found_endpoints self)))) w in
    emit (LogInfo (MsgSaved (output_file self))) w1.

(** [FuzzDriller.start] along a trace [evs] of the dispatch.  The session
    is open inside [async with ClientSession()] and closed after it. *)
Definition start (self : FuzzDriller) (w : World) (evs : list event)
    : option (FuzzDriller * World * Result unit) :=
  let paths := _load_wordlist self w in
  let w1 := emit (LogInfo (MsgLoaded (length paths))) w in
  let self1 := set_session OpenSession self in
  match _process_paths self1 w1 paths evs with
  | Some (self2, w2, Ok _) =>
      Some (set_session ClosedSession self2, _save_results self2 w2, Ok tt)
  | Some (self2, w2, Raise e) =>
      Some (set_session ClosedSession self2, w2, Raise e)
  | None => None
  end.

(** ** The content fetcher *)

(** [FuzzDriller._get_file_extension] *)
Definition _get_file_extension (content_type : pystr) : option pystr :=
  if contains (py "text/html") content_type then Some (py "html")
  else if contains (py "application/javascript") content_type
  then Some (py "js")
  else if contains (py "application/x-httpd-php") content_type
          || contains (py "text/x-php") content_type
  then Some (py "php")
  else None.

(** [re.sub] for a pattern that is one character class. *)
Definition re_sub_class (cls : codepoint -> bool) (repl s : pystr) : pystr :=
  flat_map (fun c => if cls c then repl else [c]) s.

Definition ascii_alnum (c : codepoint) : bool :=
  ((48 <=? c) && (c <=? 57)) || ((65 <=? c) && (c <=? 90))
  || ((97 <=? c) && (c <=? 122)).

(** [os.path.join(a, b)] and [os.path.dirname(p)] on POSIX. *)
Definition path_join (a b : pystr) : pystr :=
  if startswith (py "/") b then b
  else if bool_decide (a = []) || bool_decide (last a = Some SLASH)
  then a ++ b
  else a ++ py "/" ++ b.

Fixpoint path_head (p : pystr) : pystr :=
  match p with
  | [] => []
  | c :: p' =>
      if char_in p' SLASH || (c =? SLASH) then c :: path_head p' else []
  end.

Definition dirname (p : pystr) : pystr :=
  let head := path_head p in
  if forallb (N.eqb SLASH) head then head else rstrip (py "/") head.

Section WithRuntime.
Context {RT : PyRuntime}.

(** The class [\w] of a [str] pattern: Unicode alphanumerics and [_]. *)
Definition is_word (c : codepoint) : bool :=
  (if c <? 128 then ascii_alnum c else uni_alnum c) || (c =? UNDERSCORE).

(** The class [[^\w\-_]]. *)
Definition unsafe_char (c : codepoint) : bool :=
  negb (is_word c || (c =? HYPHEN) || (c =? UNDERSCORE)).

(** [FuzzDriller._sanitize_filename] *)
Definition _sanitize_filename (self : FuzzDriller) (url : pystr) : pystr :=
  re_sub_class unsafe_char (py "_")
    (strip (py "/") (replace (base_url self) [] url)).

(** [FuzzDriller.download_content].  Every exception raised inside the
    [try] ends in the same handler. *)
Definition download_content (self : FuzzDriller) (w : World) (url : pystr)
    (reply : Reply) : World :=
  let failed := emit (LogError (MsgDownloadFailed url)) in
  match session self, reply with
  | OpenSession, Responded response =>
      if status_in (status response) (valid_status_codes self) then
        let content_type := default [] (content_type response) in
        match _get_file_extension content_type with
        | Some extension =>
            let file_name := _sanitize_filename self url in
            let file_path :=
              path_join (py "downloaded_pages")
                        (file_name ++ py "." ++ extension) in
            match files w !! dirname file_path with
            | Some _ => failed w      (* makedirs: a regular file is there *)
            | None =>
                let w1 := write_file file_path [] w in  (* open 'w' *)
                match text response with
                | Some body =>
                    emit (LogInfo (MsgDownloaded url file_path))
                         (write_file file_path body w1)
                | None => failed w1
                end
            end
        | None => w
        end
      else w
  | _, _ => failed w
  end.

(** The coroutines [download_discovered_endpoints] hands to [gather]. *)
Definition download_tasks (self : FuzzDriller) : list pystr :=
  elements (found_endpoints self).

(** [FuzzDriller.download_discovered_endpoints]; [net] is what the network
    answers for each URL.  The downloads are run in the order of the task
    list. *)
Definition download_discovered_endpoints (self : FuzzDriller) (w : World)
    (net : pystr -> Reply) : World :=
  let w1 := emit (LogInfo MsgDownloading) w in
  let w2 :=
    foldl (fun w url => download_content self w url (net url))
          w1 (download_tasks self) in
  emit (LogInfo MsgDownloadCompleted) w2.

(** ** The interactive menu *)

Record MenuVars := mkMenuVars {
  v_base_url : option pystr;        (* [None] until a target is entered *)
  v_wordlist : pystr;
  v_output_file : pystr;
  v_headers : JSON;
  v_cookies : JSON;
  v_methods : list pystr;
  v_valid_status_codes : list Z
}.

(** The local variables of [interactive_menu] before the loop. *)
Definition initial_vars : MenuVars :=
  {| v_base_url := None;
     v_wordlist := DEFAULT_WORDLIST;
     v_output_file := DEFAULT_OUTPUT;
     v_headers := JObject [];
     v_cookies := JObject [];
     v_methods := DEFAULT_METHODS;
     v_valid_status_codes := VALID_STATUS_CODES |}.

(** What the environment supplies to the process: the lines typed on the
    terminal, the event-loop trace of each probing run, and the replies to
    downloads. *)
Record Term := mkTerm {
  stdin : list pystr;
  runs : list (list event);
  world : World
}.

(** Computations of the menu: they read and write the terminal and may
    raise; [None] when the environment's traces do not fit the program. *)
Definition IO (A : Type) : Type := Term -> option (Term * Result A).

#[export] Instance IO_ret : MRet IO := fun A a t => Some (t, Ok a).

Definition raise {A} (e : exn) : IO A := fun t => Some (t, Raise e).

#[export] Instance IO_bind : MBind IO := fun A B k m t =>
  match m t with
  | Some (t', Ok a) => k a t'
  | Some (t', Raise e) => Some (t', Raise e)
  | None => None
  end.

Definition print (m : message) : IO unit :=
  fun t => Some ({| stdin := stdin t; runs := runs t;
                    world := emit (Print m) (world t) |}, Ok tt).

(** [input(...)]: the next line of the terminal, [EOFError] at its end. *)
Definition input : IO pystr :=
  fun t =>
    match stdin t with
    | line :: rest =>
        Some ({| stdin := rest; runs := runs t; world := world t |}, Ok line)
    | [] => Some (t, Raise EOFError)
    end.

Definition of_option {A} (e : exn) (o : option A) : IO A :=
  match o with
  | Some a => mret a
  | None => raise e
  end.

(** [list(map(f, xs))] for an [f] that may raise. *)
Fixpoint map_io {A B} (f : A -> IO B) (xs : list A) : IO (list B) :=
  match xs with
  | [] => mret []
  | x :: xs' => y ← f x; ys ← map_io f xs'; mret (y :: ys)
  end.

(** [x or y] on strings. *)
Definition or_else (s fallback : pystr) : pystr :=
  if truthy s then s else fallback.

(** The constructor call shared by options 1 and 4. *)
Definition make_fuzzer (target : pystr) (v : MenuVars) : FuzzDriller :=
  __init__ target (v_wordlist v) (v_output_file v) (v_headers v)
           (v_cookies v) (v_methods v) (v_valid_status_codes v).

(** [asyncio.run(fuzzer.start())] with the next trace of the environment.
    The fuzzer object is dropped afterwards. *)
Definition run_start (fuzzer : FuzzDriller) : IO unit :=
  fun t =>
    match runs t with
    | evs :: later =>
        match start fuzzer (world t) evs with
        | Some (_, w', r) =>
            Some ({| stdin := stdin t; runs := later; world := w' |}, r)
        | None => None
        end
    | [] => None
    end.

Definition run_download (net : pystr -> Reply) (fuzzer : FuzzDriller)
    : IO unit :=
  fun t =>
    Some ({| stdin := stdin t; runs := runs t;
             world := download_discovered_endpoints fuzzer (world t) net |},
          Ok tt).

Inductive Next :=
  | Continue (v : MenuVars)
  | Break.

(** Option 2 of the menu. *)
Definition set_configurations (v : MenuVars) : IO MenuVars :=
  print MsgSetConfigurations;;
  line ← input;
  let base_url :=
    if truthy (strip_ws line) then Some (strip_ws line) else v_base_url v in
  line ← input;
  let wordlist := or_else (strip_ws line) (v_wordlist v) in
  line ← input;
  let output_file := or_else (strip_ws line) (v_output_file v) in
  line ← input;
  let headers_input := strip_ws line in
  headers ← (if truthy headers_input
              then of_option JSONDecodeError (json_loads headers_input)
              else mret (v_headers v));
  line ← input;
  let cookies_input := strip_ws line in
  cookies ← (if truthy cookies_input
              then of_option JSONDecodeError (json_loads cookies_input)
              else mret (v_cookies v));
  line ← input;
  let methods_input := strip_ws line in
  let methods :=
    if truthy methods_input then split COMMA methods_input
    else v_methods v in
  line ← input;
  let status_codes_input := strip_ws line in
  valid_status_codes ←
    (if truthy status_codes_input
     then map_io (fun s => of_option ValueError (py_int s))
                 (split COMMA status_codes_input)
     else mret (v_valid_status_codes v));
  print MsgConfigurationsUpdated;;
  mret {| v_base_url := base_url; v_wordlist := wordlist;
         v_output_file := output_file; v_headers := headers;
         v_cookies := cookies; v_methods := methods;
         v_valid_status_codes := valid_status_codes |}.

(** [not base_url] for a variable that is [None] or a string. *)
Definition target_of (v : MenuVars) : option pystr :=
  match v_base_url v with
  | Some u => if truthy u then Some u else None
  | None => None
  end.

(** [display_welcome_screen] *)
Definition display_welcome_screen : IO unit := print MsgWelcome.

(** One turn of the [while True] loop. *)
Definition menu_turn (net : pystr -> Reply) (v : MenuVars) : IO Next :=
  display_welcome_screen;;
  line ← input;
  let choice := strip_ws line in
  if str_eqb choice (py "1") then
    match target_of v with
    | None => print MsgSetTargetFirst;; mret (Continue v)
    | Some target =>
        print MsgStartingFuzzing;;
        run_start (make_fuzzer target v);;
        mret (Continue v)
    end
  else if str_eqb choice (py "2") then
    v' ← set_configurations v; mret (Continue v')
  else if str_eqb choice (py "3") then
    print MsgCurrentConfigurations;;
    input;;
    mret (Continue v)
  else if str_eqb choice (py "4") then
    match target_of v with
    | None => print MsgScanTargetFirst;; mret (Continue v)
    | Some target =>
        print MsgDownloadingDirectories;;
        run_download net (make_fuzzer target v);;
        mret (Continue v)
    end
  else if str_eqb choice (py "5") then
    print MsgExiting;; mret Break
  else
    print MsgInvalidChoice;; mret (Continue v).

(** The loop of [interactive_menu]; every turn reads a line or raises, so
    [fuel] above the number of lines on the terminal is never used up. *)
Fixpoint menu_loop (net : pystr -> Reply) (fuel : nat) (v : MenuVars)
    : IO unit :=
  match fuel with
  | O => fun _ => None
  | S fuel' =>
      next ← menu_turn net v;
      match next with
      | Continue v' => menu_loop net fuel' v'
      | Break => mret tt
      end
  end.

(** [interactive_menu] *)
Definition interactive_menu (net : pystr -> Reply) : IO unit :=
  fun t => menu_loop net (S (length (stdin t))) initial_vars t.

(** Malformed entries of option 2: text that [json.loads] rejects, and a
    list of status codes with a piece that [int] rejects. *)
Definition bad_json (line : pystr) : Prop :=
  truthy (strip_ws line) = true /\ json_loads (strip_ws line) = None.

Definition bad_status_codes (line : pystr) : Prop :=
  truthy (strip_ws line) = true
  /\ exists piece, piece ∈ split COMMA (strip_ws line) /\ py_int piece = None.

Definition malformed (headers_line cookies_line codes_line : pystr) : Prop :=
  bad_json headers_line \/ bad_json cookies_line
  \/ bad_status_codes codes_line.

End WithRuntime.

(** ** The specification's wording, for comparison with the code *)

(** Strip exactly one trailing, respectively leading, slash. *)
Definition strip_one_trailing_slash (s : pystr) : pystr :=
  match reverse s with
  | c :: r => if c =? SLASH then reverse r else s
  | [] => s
  end.

Definition strip_one_leading_slash (s : pystr) : pystr :=
  match s with
  | c :: r => if c =? SLASH then r else s
  | [] => s
  end.

Definition spec_request_url (target path : pystr) : pystr :=
  strip_one_trailing_slash target ++ py "/" ++ strip_one_leading_slash path.

(** The character set [[A-Za-z0-9_-]]. *)
Definition ascii_safe (c : codepoint) : bool :=
  ascii_alnum c || (c =? UNDERSCORE) || (c =? HYPHEN).

(** The extension of a Content-Type that is one of the four listed media
    types, and none for any other. *)
Definition spec_file_extension (content_type : pystr) : option pystr :=
  if bool_decide (content_type = py "text/html") then Some (py "html")
  else if bool_decide (content_type = py "application/javascript")
  then Some (py "js")
  else if bool_decide (content_type = py "application/x-httpd-php")
          || bool_decide (content_type = py "text/x-php")
  then Some (py "php")
  else None.

(** The URL without the target in front; every character outside the set
    becomes an underscore. *)
Definition remove_prefix (prefix s : pystr) : pystr :=
  if startswith prefix s then drop (length prefix) s else s.

Definition spec_sanitize_filename (target url : pystr) : pystr :=
  map (fun c => if ascii_safe c then c else UNDERSCORE)
      (remove_prefix target url).

(** ** A runtime to evaluate the model on sample inputs

    [latin1_runtime] covers a fragment of CPython: decimal literals of
    ASCII digits for [int], JSON objects whose members are strings without
    escapes (the shape of a header or cookie mapping) for [json.loads], and
    the alphanumerics of the Latin-1 supplement for the Unicode database. *)

Definition ascii_digit (c : codepoint) : bool := (48 <=? c) && (c <=? 57).

(** Digits with single underscores between them, most significant first. *)
Fixpoint digits_value (acc : Z) (after_digit : bool) (s : pystr) : option Z :=
  match s with
  | [] => if after_digit then Some acc else None
  | c :: s' =>
      if ascii_digit c
      then digits_value (10 * acc + Z.of_N (c - 48))%Z true s'
      else if (c =? UNDERSCORE) && after_digit
      then match s' with
           | [] => None
           | _ :: _ => digits_value acc false s'
           end
      else None
  end.

Definition ascii_int (s : pystr) : option Z :=
  match strip_ws s with
  | [] => None
  | c :: r =>
      if c =? 45 then
        match r with
        | [] => None
        | _ :: _ => Z.opp <$> digits_value 0%Z false r
        end
      else if c =? 43 then
        match r with
        | [] => None
        | _ :: _ => digits_value 0%Z false r
        end
      else digits_value 0%Z false (c :: r)
  end.

Definition json_ws (c : codepoint) : bool :=
  (c =? 32) || (c =? 9) || (c =? 10) || (c =? 13).

(** A string literal without escapes, after its opening quote. *)
Fixpoint plain_string (s : pystr) : option (pystr * pystr) :=
  match s with
  | [] => None
  | c :: s' =>
      if c =? 34 then Some ([], s')
      else if (c <? 32) || (c =? 92) then None
      else match plain_string s' with
           | Some (body, rest) => Some (c :: body, rest)
           | None => None
           end
  end.

Definition quoted (s : pystr) : option (pystr * pystr) :=
  match lstrip_by json_ws s with
  | c :: s' => if c =? 34 then plain_string s' else None
  | [] => None
  end.

Definition expect (c : codepoint) (s : pystr) : option pystr :=
  match lstrip_by json_ws s with
  | d :: s' => if d =? c then Some s' else None
  | [] => None
  end.

(** Members [ "k": "v", ... }] after the opening brace. *)
Fixpoint flat_members (fuel : nat) (s : pystr)
    : option (list (pystr * JSON)) :=
  match fuel with
  | O => None
  | S fuel' =>
      '(k, s1) ← quoted s;
      s2 ← expect 58 s1;
      '(v, s3) ← quoted s2;
      match lstrip_by json_ws s3 with
      | c :: s4 =>
          if c =? 44
          then ms ← flat_members fuel' s4; Some ((k, JString v) :: ms)
          else if (c =? 125) && bool_decide (lstrip_by json_ws s4 = [])
          then Some [(k, JString v)]
          else None
      | [] => None
      end
  end.

Definition flat_json_loads (s : pystr) : option JSON :=
  match expect 123 s with
  | Some s1 =>
      match expect 125 s1 with
      | Some s2 =>
          if bool_decide (lstrip_by json_ws s2 = [])
          then Some (JObject []) else None
      | None => JObject <$> flat_members (length s1) s1
      end
  | None => None
  end.

Definition latin1_alnum (c : codepoint) : bool :=
  (c =? 170) || (c =? 178) || (c =? 179) || (c =? 181) || (c =? 185)
  || (c =? 186) || ((188 <=? c) && (c <=? 190))
  || ((192 <=? c) && (c <=? 214)) || ((216 <=? c) && (c <=? 246))
  || ((248 <=? c) && (c <=? 255)).

Definition latin1_runtime : PyRuntime :=
  {| json_loads := flat_json_loads;
     py_int := ascii_int;
     uni_alnum := latin1_alnum |}.

(** Sample replies of the network. *)
Definition ok_html (body : pystr) : Reply :=
  Responded {| status := 200; content_type := Some (py "text/html");
               text := Some body |}.

Definition status_only (code : Z) : Reply :=
  Responded {| status := code; content_type := None; text := Some [] |}.

Definition empty_world : World := {| files := ∅; console := [] |}.

(** ** Observations used in the statements *)

(** The status code a request completes with; none when it raises. *)
Definition request_status (self : FuzzDriller) (reply : Reply) : option Z :=
  match session self, reply with
  | OpenSession, Responded response => Some (status response)
  | _, _ => None
  end.

(** How often task [i] completes in a trace. *)
Fixpoint completions (i : nat) (evs : list event) : nat :=
  match evs with
  | [] => 0
  | Complete j _ :: evs' =>
      (if Nat.eqb i j then 1 else 0) + completions i evs'
  | Acquire _ :: evs' => completions i evs'
  end.

(** The replies of a trace are those of [net], task by task. *)
Definition replies_from (net : nat -> Reply) (evs : list event) : Prop :=
  forall i reply, Complete i reply ∈ evs -> reply = net i.

Definition no_raise (t : Task) : bool :=
  match t_state t with
  | Done (Raise _) => false
  | _ => true
  end.

(** Steps left before the barrier: two for a waiting task, one for a task
    in flight. *)
Definition pending_work (ts : list Task) : nat :=
  2 * count_tasks is_waiting ts + count_tasks is_in_flight ts.

(** The invariant of the dispatch; [c0] is the value of [completed_tasks]
    when dispatch begins. *)
Record dispatch_inv (c0 : nat) (d : Dispatch) : Prop := {
  inv_total : total_tasks (self_ d) = length (tasks d);
  inv_completed :
    completed_tasks (self_ d) = (c0 + count_tasks is_done (tasks d))%nat;
  inv_slots : (sem d + in_flight d)%nat = MAX_CONCURRENT_REQUESTS;
  inv_no_raise : forallb no_raise (tasks d) = true
}.

(** ** Sample inputs *)

Definition sample_fuzzer : FuzzDriller :=
  __init__ (py "http://example.test/") DEFAULT_WORDLIST DEFAULT_OUTPUT
           (JObject []) (JObject []) DEFAULT_METHODS [200%Z].

(** Five candidates, two admitted at once, replies of every kind. *)
Definition sample_trace : list event :=
  [Acquire 0; Acquire 1; Complete 1 (status_only 200);
   Complete 0 TransportFailure; Acquire 2; Complete 2 (status_only 404);
   Acquire 4; Acquire 3; Complete 3 (status_only 200);
   Complete 4 (status_only 500)].

Definition sample_found : FuzzDriller :=
  set_found_endpoints
    ({[py "http://example.test/b"]} ∪ {[py "http://example.test/a"]}
     ∪ {[py "http://example.test/b"]})
    sample_fuzzer.

Definition sample_session : FuzzDriller :=
  set_session OpenSession sample_fuzzer.

(** The operator sets a target and enters [20x] as status code, then asks
    to exit. *)
Definition sample_term : Term :=
  {| stdin := [py "2"; py "http://example.test"; []; []; []; []; [];
               py "200,20x"; py "5"];
     runs := [];
     world := empty_world |}.

(** A report of an earlier run is on disk and option 4 is chosen. *)
Definition sample_download_term : Term :=
  {| stdin := [py " 4 "; py "5"];
     runs := [];
     world := write_file DEFAULT_OUTPUT
                (report_text [py "http://example.test/admin"]) empty_world |}.

Definition sample_vars : MenuVars :=
  {| v_base_url := Some (py "http://example.test");
     v_wordlist := DEFAULT_WORDLIST;
     v_output_file := DEFAULT_OUTPUT;
     v_headers := JObject [];
     v_cookies := JObject [];
     v_methods := DEFAULT_METHODS;
     v_valid_status_codes := VALID_STATUS_CODES |}.

Definition no_network (url : pystr) : Reply := TransportFailure.

(** ** Further observations *)

(** Whether a reply makes [_fetch] add the request URL. *)
Definition accepted (self : FuzzDriller) (reply : Reply) : bool :=
  match request_status self reply with
  | Some code => status_in code (valid_status_codes self)
  | None => false
  end.

(** The progress bars printed so far, as pairs (completed, total). *)
Definition progress_events (os : list output) : list (nat * nat) :=
  omap (fun o => match o with
                 | ProgressBar completed total => Some (completed, total)
                 | _ => None
                 end) os.

(** The fields of a [FuzzDriller] that no method assigns after
    [__init__]. *)
Definition same_config (a b : FuzzDriller) : Prop :=
  base_url a = base_url b /\ wordlist a = wordlist b
  /\ output_file a = output_file b /\ headers a = headers b
  /\ cookies a = cookies b /\ methods a = methods b
  /\ valid_status_codes a = valid_status_codes b.

(** What every computation of the menu respects: it reads the terminal
    from the front and uses up the traces of the environment in order. *)
Definition reads (t t' : Term) : Prop :=
  stdin t' `suffix_of` stdin t /\ runs t' `suffix_of` runs t.

(** ... and, outside a probing run, leaves the files alone. *)
Definition keeps_files (t t' : Term) : Prop :=
  reads t t' /\ files (world t') = files (world t).

Definition frame {A} (R : Term -> Term -> Prop) (m : IO A) : Prop :=
  forall t t' r, m t = Some (t', r) -> R t t'.

(** The shape of the menu's variables: the target is unset or a non-empty
    string, and there is at least one method. *)
Definition vars_ok (v : MenuVars) : Prop :=
  v_base_url v <> Some [] /\ v_methods v <> [].

(** A computation of the menu returns only values with property [P]. *)
Definition returns {A} (P : A -> Prop) (m : IO A) : Prop :=
  forall t t' a, m t = Some (t', Ok a) -> P a.

(** ** Further sample inputs *)

(** A report of an earlier run is on disk. *)
Definition sample_old_world : World :=
  write_file DEFAULT_OUTPUT (report_text [py "http://old.test/x"]) empty_world.

(** Every request fails. *)
Definition sample_trace_failing : list event :=
  [Acquire 0; Acquire 1; Acquire 2; Acquire 3; Acquire 4;
   Complete 4 TransportFailure; Complete 3 TransportFailure;
   Complete 2 TransportFailure; Complete 1 TransportFailure;
   Complete 0 TransportFailure].

(** A word list with padded, blank and plain lines, the last one without
    a line feed left out. *)
Definition sample_wordlist_lines : list pystr :=
  [py " admin "; []; py "/x y"; [9]; py "secret"].

Definition sample_wordlist_world : World :=
  write_file DEFAULT_WORDLIST
    (flat_map (fun l => l ++ [LF]) sample_wordlist_lines) empty_world.

(** A Content-Type that is none of the four listed media types but
    mentions one of them in a parameter. *)
Definition sample_octet_stream : HttpResponse :=
  {| status := 200;
     content_type := Some (py "application/octet-stream; note=text/html");
     text := Some (py "binary") |}.

(** The replies of [sample_trace], task by task, and the same replies in
    index order. *)
Definition sample_net (i : nat) : Reply :=
  match i with
  | 0%nat => TransportFailure
  | 1%nat => status_only 200
  | 2%nat => status_only 404
  | 3%nat => status_only 200
  | _ => status_only 500
  end.

Definition sample_trace_in_order : list event :=
  [Acquire 0; Complete 0 TransportFailure; Acquire 1;
   Complete 1 (status_only 200); Acquire 2; Complete 2 (status_only 404);
   Acquire 3; Complete 3 (status_only 200); Acquire 4;
   Complete 4 (status_only 500)].

Definition sample_html : HttpResponse :=
  {| status := 200; content_type := Some (py "text/html; charset=utf-8");
     text := Some (py "<html>") |}.

(** Option 2 with a target, an output file, two methods and two codes. *)
Definition sample_config_term : Term :=
  {| stdin := [py " http://example.test/ "; []; py "out.txt"; []; [];
               py "GET,POST"; py "200, 404"; py "5"];
     runs := [];
     world := empty_world |}.

(** * Properties *)

Example split_demo : split COMMA (py "200, 404,") = [py "200"; py " 404"; []].
Proof. reflexivity. Qed.

Example replace_demo :
  replace (py "ab") [] (py "abxababy") = py "xy".
Proof. reflexivity. Qed.

Example strip_demo : strip (py "/") (py "//a/b//") = py "a/b".
Proof. reflexivity. Qed.

Example int_demo :
  map ascii_int [py " 404"; py "-1_0"; py "abc"; []; py "1__0"; py "+7"]
  = [Some 404%Z; Some (-10)%Z; None; None; None; Some 7%Z].
Proof. reflexivity. Qed.

Example json_demo :
  flat_json_loads (py "{ }") = Some (JObject [])
  /\ flat_json_loads [123; 34; 97; 34; 58; 32; 34; 98; 34; 125]
     = Some (JObject [(py "a", JString (py "b"))])
  /\ flat_json_loads (py "{") = None.
Proof. repeat split; reflexivity. Qed.

Example lines_demo :
  file_lines [97; 13; 10; 98; 13; 99; 10; 10; 100]
  = [[97; 10]; [98; 10]; [99; 10]; [10]; [100]].
Proof. reflexivity. Qed.

Example dirname_demo :
  dirname (py "downloaded_pages/admin.html") = py "downloaded_pages"
  /\ dirname (py "/x") = py "/" /\ dirname (py "x") = [].
Proof. repeat split; reflexivity. Qed.

(** ** Stripping *)

Lemma lstrip_by_spec (p : codepoint -> bool) (s : pystr) :
  exists pre,
    s = pre ++ lstrip_by p s
    /\ Forall (fun c => p c = true) pre
    /\ (forall c, head (lstrip_by p s) = Some c -> p c = false).
Proof.
  induction s as [|c s IH]; simpl.
  - exists []. repeat split; [constructor | discriminate].
  - destruct (p c) eqn:Hc.
    + destruct IH as (pre & Heq & Hall & Hhd).
      exists (c :: pre). repeat split; [simpl; congruence | by constructor | done].
    + exists []. repeat split; [constructor |].
      intros c' [= <-]. done.
Qed.

Lemma rstrip_by_spec (p : codepoint -> bool) (s : pystr) :
  exists post,
    s = rstrip_by p s ++ post
    /\ Forall (fun c => p c = true) post
    /\ (forall c, last (rstrip_by p s) = Some c -> p c = false).
Proof.
  induction s as [|c s IH]; simpl.
  - exists []. repeat split; [constructor | discriminate].
  - destruct IH as (post & Heq & Hall & Hlast).
    destruct (rstrip_by p s) as [|r0 r] eqn:Hr.
    + destruct (p c) eqn:Hc.
      * exists (c :: post). simpl in *. repeat split; [congruence | by constructor | discriminate].
      * exists post. simpl in *. repeat split; [congruence | done |].
        intros c' [= <-]. done.
    + exists post. repeat split; [simpl in *; congruence | done |].
      intros c' Hc'. apply Hlast. by rewrite last_cons_cons in Hc'.
Qed.

Lemma all_slashes (s : pystr) :
  Forall (fun c => char_in (py "/") c = true) s ->
  s = replicate (length s) SLASH.
Proof.
  induction 1 as [|c s Hc _ IH]; [done|].
  simpl. rewrite <- IH. f_equal.
  unfold char_in in Hc. simpl in Hc. rewrite orb_false_r in Hc.
  by apply N.eqb_eq in Hc.
Qed.

Lemma char_in_slash (c : codepoint) :
  char_in (py "/") c = false -> c <> SLASH.
Proof.
  unfold char_in. simpl. rewrite orb_false_r.
  intros H ->. by rewrite N.eqb_refl in H.
Qed.

(** ** C4: the request URL *)

(** C4, as the code has it: the request URL is the target without any of
    its trailing slashes, one slash, and the path without any of its leading
    slashes. *)
Theorem request_url_strips_all_slashes
    (target wl out : pystr) (h c : JSON) (ms : list pystr) (codes : list Z)
    (path : pystr) :
  exists (k j : nat) (base rest : pystr),
    target = base ++ replicate k SLASH
    /\ path = replicate j SLASH ++ rest
    /\ last base <> Some SLASH
    /\ head rest <> Some SLASH
    /\ request_url (__init__ target wl out h c ms codes) path
       = base ++ [SLASH] ++ rest.
Proof.
  destruct (rstrip_by_spec (char_in (py "/")) target) as (post & Ht & Hpost & Hl).
  destruct (lstrip_by_spec (char_in (py "/")) path) as (pre & Hp & Hpre & Hh).
  exists (length post), (length pre), (rstrip (py "/") target), (lstrip (py "/") path).
  unfold rstrip, lstrip.
  rewrite <- (all_slashes post Hpost), <- (all_slashes pre Hpre).
  repeat split; try done.
  - intros Hlast. by apply (char_in_slash SLASH (Hl _ Hlast)).
  - intros Hhead. by apply (char_in_slash SLASH (Hh _ Hhead)).
Qed.

(** C4, as worded, fails: with a target ending in two slashes and a path
    beginning with two, stripping one slash on each side leaves three in
    the middle, where the code leaves one. *)
Lemma request_url_not_one_slash_strip :
  request_url
    (__init__ (py "http://example.test//") DEFAULT_WORDLIST DEFAULT_OUTPUT
              (JObject []) (JObject []) DEFAULT_METHODS VALID_STATUS_CODES)
    (py "//x")
  = py "http://example.test/x"
  /\ spec_request_url (py "http://example.test//") (py "//x")
     = py "http://example.test///x"
  /\ request_url
       (__init__ (py "http://example.test//") DEFAULT_WORDLIST DEFAULT_OUTPUT
                 (JObject []) (JObject []) DEFAULT_METHODS VALID_STATUS_CODES)
       (py "//x")
     <> spec_request_url (py "http://example.test//") (py "//x").
Proof. repeat split; vm_compute; congruence. Qed.

(** ** C2: the endpoint classifier inside [_fetch] *)

Lemma status_in_spec (code : Z) (codes : list Z) :
  status_in code codes = true <-> code ∈ codes.
Proof.
  unfold status_in. rewrite existsb_exists. split.
  - intros (x & Hin & Heq). apply Z.eqb_eq in Heq. subst.
    by apply list_elem_of_In.
  - intros Hin. exists code. split; [by apply list_elem_of_In | apply Z.eqb_refl].
Qed.

Lemma fetch_found (self : FuzzDriller) (w : World) (path method : pystr)
    (reply : Reply) :
  found_endpoints (_fetch self w path method reply).1.1
  = match request_status self reply with
    | Some code =>
        if status_in code (valid_status_codes self)
        then {[request_url self path]} ∪ found_endpoints self
        else found_endpoints self
    | None => found_endpoints self
    end.
Proof.
  unfold _fetch, request_status, _print_progress_bar.
  destruct (session self), reply as [r|]; simpl;
    try destruct (status_in (status r) (valid_status_codes self)); simpl;
    by destruct (total_tasks self).
Qed.

(** C2: after [_fetch], a URL is in the set of discovered endpoints iff it
    was there before or it is the request URL and the request completed
    with a status code that is a member of [valid_status_codes]; a
    transport failure leaves the set as it was. *)
Theorem fetch_adds_iff_status_accepted
    (self : FuzzDriller) (w : World) (path method : pystr) (reply : Reply) :
  (forall u : pystr,
      u ∈ found_endpoints (_fetch self w path method reply).1.1
      <-> u ∈ found_endpoints self
          \/ (u = request_url self path
              /\ exists code : Z,
                   request_status self reply = Some code
                   /\ code ∈ valid_status_codes self))
  /\ (reply = TransportFailure ->
      found_endpoints (_fetch self w path method reply).1.1
      = found_endpoints self)
  /\ request_status self TransportFailure = None.
Proof.
  rewrite fetch_found. split; [|split].
  - intros u. destruct (request_status self reply) as [code|] eqn:Hst.
    + destruct (status_in code (valid_status_codes self)) eqn:Hin.
      * apply status_in_spec in Hin. rewrite elem_of_union, elem_of_singleton.
        split; [intros [->|?]; eauto | intros [?|[-> _]]; eauto].
      * split; [eauto | intros [?|(_ & code' & [= <-] & Hc)]; [done|]].
        apply status_in_spec in Hc. congruence.
    + split; [eauto | intros [?|(_ & code' & [=] & _)]; done].
  - intros ->. unfold request_status. by destruct (session self).
  - unfold request_status. by destruct (session self).
Qed.

(** ** The dispatch as a transition system *)

Lemma fetch_counters (self : FuzzDriller) (w : World) (path method : pystr)
    (reply : Reply) :
  total_tasks (_fetch self w path method reply).1.1 = total_tasks self
  /\ completed_tasks (_fetch self w path method reply).1.1
     = (completed_tasks self + 1)%nat.
Proof.
  unfold _fetch, _print_progress_bar.
  destruct (session self), reply as [r|]; simpl;
    try destruct (status_in (status r) (valid_status_codes self)); simpl;
    destruct (total_tasks self) eqn:E; simpl; by rewrite ?E.
Qed.

Lemma fetch_returns (self : FuzzDriller) (w : World) (path method : pystr)
    (reply : Reply) :
  total_tasks self <> O ->
  exists ret, (_fetch self w path method reply).2 = Ok ret.
Proof.
  intros Hpos. unfold _fetch, _print_progress_bar.
  destruct (session self), reply as [r|]; simpl;
    try destruct (status_in (status r) (valid_status_codes self)); simpl;
    destruct (total_tasks self); try done; eauto.
Qed.

Lemma step_acquire_inv (d d' : Dispatch) (i : nat) :
  step (Acquire i) d = Some d' ->
  exists p m k,
    tasks d !! i = Some (mkTask p m Waiting)
    /\ sem d = S k
    /\ d' = {| self_ := self_ d; world_ := world_ d; sem := k;
               tasks := <[i := mkTask p m InFlight]> (tasks d) |}.
Proof.
  simpl. destruct (tasks d !! i) as [[p m [| |r]]|]; try done.
  destruct (sem d) as [|k]; [done|].
  intros [= <-]. by exists p, m, k.
Qed.

Lemma step_complete_inv (d d' : Dispatch) (i : nat) (reply : Reply) :
  step (Complete i reply) d = Some d' ->
  exists p m,
    tasks d !! i = Some (mkTask p m InFlight)
    /\ d' = {| self_ := (_fetch (self_ d) (world_ d) p m reply).1.1;
               world_ := (_fetch (self_ d) (world_ d) p m reply).1.2;
               sem := S (sem d);
               tasks := <[i := mkTask p m
                            (Done (_fetch (self_ d) (world_ d) p m reply).2)]>
                          (tasks d) |}.
Proof.
  simpl. destruct (tasks d !! i) as [[p m [| |r]]|]; try done.
  destruct (_fetch (self_ d) (world_ d) p m reply) as [[self' w'] r] eqn:Hf.
  intros [= <-]. exists p, m. by rewrite Hf.
Qed.

Lemma count_tasks_insert (p : Task -> bool) (ts : list Task) (i : nat)
    (x y : Task) :
  ts !! i = Some x ->
  (count_tasks p (<[i := y]> ts) + (if p x then 1 else 0)
   = count_tasks p ts + (if p y then 1 else 0))%nat.
Proof.
  unfold count_tasks. revert i.
  induction ts as [|t ts IH]; intros [|i] Hl; simplify_eq/=.
  - destruct (p x), (p y); simpl; lia.
  - specialize (IH i Hl). destruct (p t); simpl; lia.
Qed.

Lemma forallb_insert (p : Task -> bool) (ts : list Task) (i : nat) (y : Task) :
  forallb p ts = true -> p y = true -> forallb p (<[i := y]> ts) = true.
Proof.
  revert i. induction ts as [|t ts IH]; intros [|i] Hall Hy; simpl in *;
    try done; apply andb_true_iff in Hall as [Ht Hts];
    apply andb_true_iff; auto.
Qed.

Lemma forallb_count (p : Task -> bool) (ts : list Task) :
  forallb p ts = true -> count_tasks p ts = length ts.
Proof.
  unfold count_tasks. induction ts as [|t ts IH]; simpl; [done|].
  intros [Ht Hts]%andb_true_iff. rewrite Ht. simpl. auto.
Qed.

Lemma forallb_false_lookup (p : Task -> bool) (ts : list Task) :
  forallb p ts = false -> exists i x, ts !! i = Some x /\ p x = false.
Proof.
  induction ts as [|t ts IH]; simpl; [done|].
  destruct (p t) eqn:Ht; simpl.
  - intros (i & x & Hl & Hx)%IH. by exists (S i), x.
  - intros _. by exists O, t.
Qed.

Lemma count_pos_lookup (p : Task -> bool) (ts : list Task) :
  count_tasks p ts <> O -> exists i x, ts !! i = Some x /\ p x = true.
Proof.
  unfold count_tasks. induction ts as [|t ts IH]; simpl; [done|].
  destruct (p t) eqn:Ht; simpl.
  - intros _. by exists O, t.
  - intros (i & x & Hl & Hx)%IH. by exists (S i), x.
Qed.

Lemma step_preserves_inv (c0 : nat) (e : event) (d d' : Dispatch) :
  dispatch_inv c0 d -> step e d = Some d' -> dispatch_inv c0 d'.
Proof.
  intros [Htot Hcomp Hslots Hnr] Hstep. destruct e as [i|i reply].
  - apply step_acquire_inv in Hstep as (p & m & k & Hl & Hsem & ->).
    pose proof (count_tasks_insert is_done _ _ _ (mkTask p m InFlight) Hl) as Hd.
    pose proof (count_tasks_insert is_in_flight _ _ _ (mkTask p m InFlight) Hl) as Hf.
    unfold in_flight in *. simpl in *.
    split; unfold in_flight; simpl; rewrite ?length_insert; try lia.
    by apply forallb_insert.
  - apply step_complete_inv in Hstep as (p & m & Hl & ->).
    destruct (fetch_counters (self_ d) (world_ d) p m reply) as [Ht Hc].
    destruct (fetch_returns (self_ d) (world_ d) p m reply) as [ret Hret].
    { rewrite Htot. apply lookup_lt_Some in Hl. lia. }
    pose proof (count_tasks_insert is_done _ _ _
                  (mkTask p m (Done (Ok ret))) Hl) as Hd.
    pose proof (count_tasks_insert is_in_flight _ _ _
                  (mkTask p m (Done (Ok ret))) Hl) as Hf.
    unfold in_flight in *. simpl in *. rewrite Hret.
    split; unfold in_flight; simpl; rewrite ?length_insert; try lia.
    by apply forallb_insert.
Qed.

Lemma exec_preserves_inv (c0 : nat) (evs : list event) (d d' : Dispatch) :
  dispatch_inv c0 d -> exec evs d = Some d' -> dispatch_inv c0 d'.
Proof.
  revert d. induction evs as [|e evs IH]; intros d Hinv; simpl.
  - by intros [= <-].
  - destruct (step e d) as [d1|] eqn:Hstep; [|done].
    apply IH. by eapply step_preserves_inv.
Qed.

Lemma length_candidates (paths methods : list pystr) :
  length (candidates paths methods) = (length paths * length methods)%nat.
Proof.
  unfold candidates. induction paths as [|p paths IH]; simpl; [done|].
  by rewrite length_app, length_map, IH.
Qed.

Lemma candidates_waiting (paths methods : list pystr) :
  Forall (fun t => t_state t = Waiting) (candidates paths methods).
Proof.
  unfold candidates. induction paths as [|p paths IH]; simpl; [constructor|].
  apply Forall_app. split; [|done].
  apply Forall_forall. intros t Hin. apply list_elem_of_In in Hin.
  apply in_map_iff in Hin as (m & <- & _). done.
Qed.

Lemma count_none (p : Task -> bool) (ts : list Task) :
  Forall (fun t => p t = false) ts -> count_tasks p ts = O.
Proof.
  unfold count_tasks. induction 1 as [|t ts Ht _ IH]; simpl; [done|].
  by rewrite Ht.
Qed.

Lemma dispatch_inv_initial (self : FuzzDriller) (w : World)
    (paths : list pystr) :
  dispatch_inv (completed_tasks self) (_process_paths_dispatch self w paths).
Proof.
  pose proof (candidates_waiting paths (methods self)) as Hw.
  split.
  - simpl. by rewrite length_candidates.
  - simpl. rewrite count_none; [lia|].
    eapply Forall_impl; [exact Hw|]. intros t Ht. unfold is_done. by rewrite Ht.
  - unfold in_flight, _process_paths_dispatch. cbn [sem tasks].
    rewrite count_none; [lia|].
    eapply Forall_impl; [exact Hw|]. intros t Ht. unfold is_in_flight. by rewrite Ht.
  - simpl. apply forallb_forall. intros t Hin. apply list_elem_of_In in Hin.
    rewrite Forall_forall in Hw. unfold no_raise. by rewrite (Hw t Hin).
Qed.

Lemma exec_total (evs : list event) (d d' : Dispatch) :
  exec evs d = Some d' -> total_tasks (self_ d') = total_tasks (self_ d).
Proof.
  revert d. induction evs as [|e evs IH]; intros d; simpl.
  - by intros [= <-].
  - destruct (step e d) as [d1|] eqn:Hstep; [|done].
    intros Hexec. rewrite (IH _ Hexec). destruct e as [i|i reply].
    + by apply step_acquire_inv in Hstep as (p & m & k & _ & _ & ->).
    + apply step_complete_inv in Hstep as (p & m & _ & ->). simpl.
      apply fetch_counters.
Qed.

Lemma first_raised_none (ts : list Task) :
  forallb no_raise ts = true -> first_raised ts = None.
Proof.
  induction ts as [|t ts IH]; simpl; [done|].
  intros [Ht Hts]%andb_true_iff. unfold no_raise in Ht.
  destruct (t_state t) as [| |[ret|e]]; auto. done.
Qed.

(** A trace that reaches the barrier completes every task once. *)
Lemma completions_exec (evs : list event) (d d' : Dispatch) :
  exec evs d = Some d' -> all_done d' = true ->
  forall i t, tasks d !! i = Some t ->
    completions i evs = if is_done t then 0%nat else 1%nat.
Proof.
  revert d. induction evs as [|e evs IH]; intros d; simpl.
  - intros [= <-] Hall i t Hl. unfold all_done in Hall.
    rewrite forallb_forall in Hall.
    rewrite (Hall t); [done|]. apply list_elem_of_In. by eapply list_elem_of_lookup_2.
  - destruct (step e d) as [d1|] eqn:Hstep; [|done].
    intros Hexec Hall i t Hl. specialize (IH d1 Hexec Hall i).
    pose proof (lookup_lt_Some _ _ _ Hl) as Hlt.
    destruct e as [j|j reply].
    + apply step_acquire_inv in Hstep as (p & m & k & Hj & _ & ->).
      simpl in IH. destruct (decide (i = j)) as [->|Hne].
      * rewrite list_lookup_insert_eq in IH by done.
        rewrite (IH _ eq_refl). by simplify_eq.
      * rewrite list_lookup_insert_ne in IH by done. by apply IH.
    + apply step_complete_inv in Hstep as (p & m & Hj & ->).
      simpl in IH. destruct (decide (i = j)) as [->|Hne].
      * rewrite list_lookup_insert_eq in IH by done.
        rewrite (IH _ eq_refl), Nat.eqb_refl. by simplify_eq.
      * rewrite list_lookup_insert_ne in IH by done.
        apply Nat.eqb_neq in Hne. rewrite Hne. by apply IH.
Qed.

Lemma step_decreases (e : event) (d d' : Dispatch) :
  step e d = Some d' ->
  (pending_work (tasks d') < pending_work (tasks d))%nat.
Proof.
  intros Hstep. unfold pending_work. destruct e as [i|i reply].
  - apply step_acquire_inv in Hstep as (p & m & k & Hl & _ & ->).
    pose proof (count_tasks_insert is_waiting _ _ _ (mkTask p m InFlight) Hl).
    pose proof (count_tasks_insert is_in_flight _ _ _ (mkTask p m InFlight) Hl).
    simpl in *. lia.
  - apply step_complete_inv in Hstep as (p & m & Hl & ->).
    pose proof (count_tasks_insert is_waiting _ _ _
      (mkTask p m (Done (_fetch (self_ d) (world_ d) p m reply).2)) Hl).
    pose proof (count_tasks_insert is_in_flight _ _ _
      (mkTask p m (Done (_fetch (self_ d) (world_ d) p m reply).2)) Hl).
    simpl in *. lia.
Qed.

Lemma step_complete_enabled (d : Dispatch) (i : nat) (p m : pystr)
    (reply : Reply) :
  tasks d !! i = Some (mkTask p m InFlight) ->
  exists d', step (Complete i reply) d = Some d'.
Proof.
  intros Hl. simpl. rewrite Hl.
  destruct (_fetch (self_ d) (world_ d) p m reply) as [[self' w'] r]. eauto.
Qed.

(** Before the barrier some task can always move: no deadlock. *)
Lemma can_step (net : nat -> Reply) (c0 : nat) (d : Dispatch) :
  dispatch_inv c0 d -> all_done d = false ->
  exists e d',
    step e d = Some d' /\ (forall i reply, e = Complete i reply -> reply = net i).
Proof.
  intros Hinv Hnd. unfold all_done in Hnd.
  apply forallb_false_lookup in Hnd as (i & [p m st] & Hl & Hst).
  destruct st as [| |r]; [| |done].
  - destruct (sem d) as [|k] eqn:Hsem.
    + pose proof (inv_slots _ _ Hinv) as Hslots. unfold in_flight in Hslots.
      destruct (count_pos_lookup is_in_flight (tasks d)) as (j & [p' m' st'] & Hj & Hf).
      { rewrite Hsem in Hslots. unfold MAX_CONCURRENT_REQUESTS in Hslots. lia. }
      destruct st'; try done.
      destruct (step_complete_enabled d j p' m' (net j) Hj) as [d' Hd'].
      exists (Complete j (net j)), d'. split; [done|]. by intros ? ? [= <- <-].
    + exists (Acquire i). eexists. split; [|done]. simpl. by rewrite Hl, Hsem.
  - destruct (step_complete_enabled d i p m (net i) Hl) as [d' Hd'].
    exists (Complete i (net i)), d'. split; [done|]. by intros ? ? [= <- <-].
Qed.

(** Whatever the network answers, the barrier can be reached. *)
Lemma reach_barrier (net : nat -> Reply) (c0 n : nat) (d : Dispatch) :
  dispatch_inv c0 d -> (pending_work (tasks d) <= n)%nat ->
  exists evs d',
    exec evs d = Some d' /\ all_done d' = true /\ replies_from net evs.
Proof.
  revert d. induction n as [|n IH]; intros d Hinv Hle;
    destruct (all_done d) eqn:Hall;
    try (exists [], d; repeat split; [done | intros i reply Hin; by apply elem_of_nil in Hin]);
    destruct (can_step net c0 d Hinv Hall) as (e & d1 & Hstep & Hrep);
    pose proof (step_decreases _ _ _ Hstep) as Hdec; [lia|].
  destruct (IH d1) as (evs & d' & Hexec & Hdone & Hfrom).
  { by eapply step_preserves_inv. }
  { lia. }
  exists (e :: evs), d'. simpl. rewrite Hstep. repeat split; [done..|].
  intros i reply [Heq|Hin]%elem_of_cons; [by apply Hrep | by apply Hfrom].
Qed.

(** ** C1: every candidate is counted once *)

(** On any instance, a run of [start] adds the number of its candidates to
    [completed_tasks]. *)
Lemma start_counts (self : FuzzDriller) (w : World) (evs : list event)
    (self' : FuzzDriller) (w' : World) (r : Result unit) :
  start self w evs = Some (self', w', r) ->
  total_tasks self'
  = (length (_load_wordlist self w) * length (methods self))%nat
  /\ completed_tasks self' = (completed_tasks self + total_tasks self')%nat.
Proof.
  unfold start, _process_paths.
  destruct (exec evs _) as [d|] eqn:Hexec; [|done].
  destruct (all_done d) eqn:Hall; [|done].
  pose proof (exec_preserves_inv _ _ _ _ (dispatch_inv_initial _ _ _) Hexec)
    as [Htot Hcomp _ Hnr].
  pose proof (exec_total _ _ _ Hexec) as Htot0.
  rewrite (first_raised_none _ Hnr). intros [= <- <- <-]. simpl in *.
  rewrite forallb_count in Hcomp by done. split; [done | lia].
Qed.

(** C1: [total_tasks] is set to |paths| x |methods| before any probe is
    dispatched and no step changes it; every run of [start] that passes the
    barrier ends with [completed_tasks] equal to [total_tasks], whatever the
    replies were, having completed every candidate exactly once, and
    returns normally; for any replies of the network such a run exists; a
    completing candidate adds exactly one to [completed_tasks] for any
    reply, and admission adds nothing. *)
Theorem completed_equals_total_at_barrier
    (target wl out : pystr) (h c : JSON) (ms : list pystr) (codes : list Z)
    (w : World) :
  let fuzzer := __init__ target wl out h c ms codes in
  let n := (length (_load_wordlist fuzzer w) * length ms)%nat in
  (forall w1,
      total_tasks
        (self_ (_process_paths_dispatch (set_session OpenSession fuzzer) w1
                  (_load_wordlist fuzzer w))) = n)
  /\ (forall evs self' w' r,
        start fuzzer w evs = Some (self', w', r) ->
        total_tasks self' = n
        /\ completed_tasks self' = total_tasks self'
        /\ r = Ok tt
        /\ forall i, (i < n)%nat -> completions i evs = 1%nat)
  /\ (forall net : nat -> Reply,
        exists evs self' w',
          start fuzzer w evs = Some (self', w', Ok tt) /\ replies_from net evs)
  /\ (forall d i reply d',
        step (Complete i reply) d = Some d' ->
        total_tasks (self_ d') = total_tasks (self_ d)
        /\ completed_tasks (self_ d') = (completed_tasks (self_ d) + 1)%nat)
  /\ (forall d i d', step (Acquire i) d = Some d' -> self_ d' = self_ d).
Proof.
  intros fuzzer n.
  set (paths := _load_wordlist fuzzer w).
  set (w0 := emit (LogInfo (MsgLoaded (length paths))) w).
  set (d0 := _process_paths_dispatch (set_session OpenSession fuzzer) w0 paths).
  assert (Hinv0 : dispatch_inv 0 d0).
  { exact (dispatch_inv_initial (set_session OpenSession fuzzer) w0 paths). }
  assert (Hlen0 : length (tasks d0) = n).
  { subst d0 n. simpl. by rewrite length_candidates. }
  split; [done|]. split; [|split; [|split]].
  - intros evs self' w' r. unfold start, _process_paths.
    fold paths. fold w0. fold d0.
    destruct (exec evs d0) as [d|] eqn:Hexec; [|done].
    destruct (all_done d) eqn:Hall; [|done].
    pose proof (exec_preserves_inv _ _ _ _ Hinv0 Hexec) as [Htot Hcomp _ Hnr].
    pose proof (exec_total _ _ _ Hexec) as Htot0.
    rewrite (first_raised_none _ Hnr).
    intros [= <- <- <-]. simpl.
    rewrite forallb_count in Hcomp by done.
    repeat split.
    + rewrite Htot0. subst d0 n. done.
    + lia.
    + intros i Hi.
      destruct (lookup_lt_is_Some_2 (tasks d0) i) as [t Ht]; [lia|].
      rewrite (completions_exec _ _ _ Hexec Hall i t Ht).
      pose proof (candidates_waiting paths ms) as Hw.
      rewrite Forall_forall in Hw. unfold is_done.
      rewrite (Hw t); [done|]. by eapply list_elem_of_lookup_2.
  - intros net.
    destruct (reach_barrier net 0 _ d0 Hinv0 (le_n _))
      as (evs & d & Hexec & Hall & Hfrom).
    pose proof (exec_preserves_inv _ _ _ _ Hinv0 Hexec) as [_ _ _ Hnr].
    exists evs. eexists _, _. split; [|done].
    unfold start, _process_paths. fold paths. fold w0. fold d0.
    by rewrite Hexec, Hall, (first_raised_none _ Hnr).
  - intros d i reply d' (p & m & _ & ->)%step_complete_inv. simpl.
    apply fetch_counters.
  - by intros d i d' (p & m & k & _ & _ & ->)%step_acquire_inv.
Qed.

(** ** C9: the admission gate *)

(** C9: in every state the dispatch can reach, the requests in flight and
    the free slots add up to [MAX_CONCURRENT_REQUESTS] = 100, so at most 100
    requests are in flight; a candidate is admitted only when a slot is
    free and takes it; only an admitted candidate completes, and it gives
    the slot back for every reply, failure included. *)
Theorem in_flight_bounded
    (self : FuzzDriller) (w : World) (paths : list pystr)
    (evs : list event) (d : Dispatch) :
  exec evs (_process_paths_dispatch self w paths) = Some d ->
  (in_flight d <= MAX_CONCURRENT_REQUESTS)%nat
  /\ (sem d + in_flight d)%nat = MAX_CONCURRENT_REQUESTS
  /\ MAX_CONCURRENT_REQUESTS = 100%nat
  /\ (forall i d',
        step (Acquire i) d = Some d' ->
        sem d = S (sem d') /\ in_flight d' = S (in_flight d))
  /\ (forall i reply d',
        step (Complete i reply) d = Some d' ->
        (exists p m, tasks d !! i = Some (mkTask p m InFlight))
        /\ sem d' = S (sem d) /\ in_flight d = S (in_flight d')).
Proof.
  intros Hexec.
  pose proof (exec_preserves_inv _ _ _ _ (dispatch_inv_initial self w paths) Hexec)
    as [_ _ Hslots _].
  split; [lia|]. split; [done|]. split; [done|]. split.
  - intros i d' Hs.
    apply step_acquire_inv in Hs as (p & m & k & Hl & Hsem & ->).
    pose proof (count_tasks_insert is_in_flight _ _ _ (mkTask p m InFlight) Hl).
    unfold in_flight. simpl in *. split; [done | lia].
  - intros i reply d' Hs.
    apply step_complete_inv in Hs as (p & m & Hl & ->).
    pose proof (count_tasks_insert is_in_flight _ _ _
      (mkTask p m (Done (_fetch (self_ d) (world_ d) p m reply).2)) Hl).
    unfold in_flight. simpl in *. split; [eauto | split; [done | lia]].
Qed.

(** ** The order of [sorted] *)

Lemma str_leb_total (a b : pystr) : str_leb a b = true \/ str_leb b a = true.
Proof.
  revert b. induction a as [|x a IH]; intros [|y b]; simpl; auto.
  destruct (N.ltb_spec x y), (N.ltb_spec y x), (N.eqb_spec x y),
    (N.eqb_spec y x); simpl; auto; lia.
Qed.

Lemma str_leb_trans (a b c : pystr) :
  str_leb a b = true -> str_leb b c = true -> str_leb a c = true.
Proof.
  revert b c. induction a as [|x a IH]; intros [|y b] [|z c]; simpl; auto;
    try done.
  destruct (N.ltb_spec x y), (N.ltb_spec y z), (N.ltb_spec x z),
    (N.eqb_spec x y), (N.eqb_spec y z), (N.eqb_spec x z);
    simpl; auto; try lia; try done.
  apply IH.
Qed.

Lemma str_leb_antisym (a b : pystr) :
  str_leb a b = true -> str_leb b a = true -> a = b.
Proof.
  revert b. induction a as [|x a IH]; intros [|y b]; simpl; auto; try done.
  destruct (N.ltb_spec x y), (N.ltb_spec y x), (N.eqb_spec x y),
    (N.eqb_spec y x); simpl; try lia; try done.
  intros Hab Hba. subst. f_equal. by apply IH.
Qed.

#[export] Instance str_le_total : Total str_le.
Proof. intros a b. apply str_leb_total. Qed.

#[export] Instance str_le_trans : Transitive str_le.
Proof. intros a b c. apply str_leb_trans. Qed.

Lemma strongly_sorted_strict (l : list pystr) :
  StronglySorted str_le l -> NoDup l -> StronglySorted str_lt l.
Proof.
  induction 1 as [|x l Hs IH Hall]; intros Hnd; [constructor|].
  apply NoDup_cons in Hnd as [Hx Hnd].
  constructor; [by apply IH|].
  rewrite Forall_forall in Hall. apply Forall_forall. intros y Hy.
  split; [by apply Hall|]. by intros ->.
Qed.

Lemma sorted_spec (xs : list pystr) :
  NoDup xs ->
  StronglySorted str_lt (sorted xs)
  /\ NoDup (sorted xs)
  /\ forall u, u ∈ sorted xs <-> u ∈ xs.
Proof.
  intros Hnd. unfold sorted.
  assert (NoDup (merge_sort str_le xs)) as Hnd'.
  { by rewrite merge_sort_Permutation. }
  repeat split; [|done|..].
  - apply strongly_sorted_strict; [|done]. apply StronglySorted_merge_sort; apply _.
  - by rewrite merge_sort_Permutation.
  - by rewrite merge_sort_Permutation.
Qed.

Lemma split_lines_line (u rest : pystr) :
  LF ∉ u -> split_lines (u ++ LF :: rest) = (u ++ [LF]) :: split_lines rest.
Proof.
  induction u as [|c u IH]; intros Hu; simpl; [done|].
  apply not_elem_of_cons in Hu as [Hc Hu].
  destruct (N.eqb_spec c LF) as [->|_]; [done|].
  by rewrite IH.
Qed.

Lemma split_lines_report (urls : list pystr) :
  Forall (fun u => LF ∉ u) urls ->
  split_lines (report_text urls) = map (fun u => u ++ [LF]) urls.
Proof.
  unfold report_text. induction 1 as [|u urls Hu _ IH]; simpl; [done|].
  rewrite <- app_assoc. simpl. by rewrite split_lines_line, IH.
Qed.

(** ** C5: the candidate paths *)

Lemma strip_by_spec (p : codepoint -> bool) (s : pystr) :
  exists pre post,
    s = pre ++ strip_by p s ++ post
    /\ Forall (fun c => p c = true) pre
    /\ Forall (fun c => p c = true) post
    /\ (forall c, head (strip_by p s) = Some c -> p c = false)
    /\ (forall c, last (strip_by p s) = Some c -> p c = false).
Proof.
  unfold strip_by.
  destruct (lstrip_by_spec p s) as (pre & Hs & Hpre & Hhead).
  destruct (rstrip_by_spec p (lstrip_by p s)) as (post & Hl & Hpost & Hlast).
  exists pre, post. repeat split; try done.
  - by rewrite <- Hl.
  - intros c Hc. apply Hhead. rewrite Hl.
    destruct (rstrip_by p (lstrip_by p s)); [done|]. by simpl in *.
Qed.

Lemma common_paths_nodup : NoDup COMMON_PATHS.
Proof. apply (bool_decide_unpack _). by vm_compute. Qed.

Lemma from_file_elem (text p : pystr) :
  p ∈ map strip_ws
        (List.filter (fun line => truthy (strip_ws line)) (file_lines text))
  <-> exists line, line ∈ file_lines text /\ p = strip_ws line /\ p <> [].
Proof.
  rewrite list_elem_of_In, in_map_iff. split.
  - intros (line & <- & [Hin Ht]%filter_In).
    exists line. rewrite list_elem_of_In. repeat split; [done|].
    by destruct (strip_ws line).
  - intros (line & Hin & -> & Hne). exists line. split; [done|].
    apply filter_In. split; [by apply list_elem_of_In|].
    by destruct (strip_ws line).
Qed.

(** The candidate paths in terms of the lines the file yields. *)
Lemma load_wordlist_general (self : FuzzDriller) (w : World) :
  NoDup (_load_wordlist self w)
  /\ (forall p : pystr,
        p ∈ _load_wordlist self w
        <-> p ∈ COMMON_PATHS
            \/ exists text line,
                 files w !! wordlist self = Some text
                 /\ line ∈ file_lines text
                 /\ p = strip_ws line
                 /\ p <> [])
  /\ (forall line : pystr,
        exists pre post,
          line = pre ++ strip_ws line ++ post
          /\ Forall (fun c => isspace c = true) pre
          /\ Forall (fun c => isspace c = true) post
          /\ (forall c, head (strip_ws line) = Some c -> isspace c = false)
          /\ (forall c, last (strip_ws line) = Some c -> isspace c = false))
  /\ COMMON_PATHS
     = [py "/admin"; py "/login"; py "/dashboard"; py "/user"; py "/api"]
  /\ (files w !! wordlist self = None
      \/ files w !! wordlist self = Some ([] : pystr) ->
      _load_wordlist self w ≡ₚ COMMON_PATHS
      /\ length (_load_wordlist self w) = 5%nat
      /\ forall w1,
           total_tasks
             (self_ (_process_paths_dispatch self w1 (_load_wordlist self w)))
           = (5 * length (methods self))%nat).
Proof.
  split; [apply NoDup_elements|]. split; [|split; [|split; [done|]]].
  - intros p. unfold _load_wordlist.
    rewrite elem_of_elements, elem_of_list_to_set, elem_of_app.
    destruct (files w !! wordlist self) as [text|].
    + rewrite from_file_elem. split.
      * intros [(line & Hin & -> & Hne)|Hc]; [right|by left].
        by exists text, line.
      * intros [Hc|(text' & line & [= <-] & Hin & -> & Hne)]; [by right|left].
        by exists line.
    + split; [intros [[]%elem_of_nil|Hc]; by left|].
      intros [Hc|(text & line & [=] & _)]. by right.
  - intros line. apply strip_by_spec.
  - intros Hfile.
    assert (_load_wordlist self w ≡ₚ COMMON_PATHS) as Hperm.
    { unfold _load_wordlist.
      destruct Hfile as [-> | ->];
        change (file_lines []) with (@nil pystr); cbn [List.filter map app];
        apply elements_list_to_set, common_paths_nodup. }
    assert (length (_load_wordlist self w) = 5%nat) as Hlen.
    { by rewrite (Permutation_length Hperm). }
    split; [done|]. split; [done|].
    intros w1. unfold _process_paths_dispatch.
    cbn [self_ total_tasks set_total_tasks]. by rewrite Hlen.
Qed.

(** ** C6: what the content fetcher persists *)

Lemma startswith_spec (p s : pystr) :
  startswith p s = true <-> exists post, s = p ++ post.
Proof.
  revert s. induction p as [|a p IH]; intros s; simpl.
  - split; [by exists s | done].
  - destruct s as [|b s].
    + split; [done | by intros (post & [=])].
    + rewrite andb_true_iff, IH, N.eqb_eq. split.
      * intros (-> & post & ->). by exists post.
      * intros (post & [= -> ->]). split; [done | by exists post].
Qed.

(** [contains] is the substring test. *)
Lemma contains_spec (needle hay : pystr) :
  contains needle hay = true <-> exists pre post, hay = pre ++ needle ++ post.
Proof.
  induction hay as [|c hay IH]; simpl.
  - rewrite orb_false_r, startswith_spec. split.
    + intros (post & ->). by exists [], post.
    + intros ([|x pre] & post & Heq); [by exists post | done].
  - rewrite orb_true_iff, startswith_spec, IH. split.
    + intros [(post & ->)|(pre & post & ->)];
        [by exists [], post | by exists (c :: pre), post].
    + intros ([|x pre] & post & Heq).
      * left. by exists post.
      * right. injection Heq as -> ->. by exists pre, post.
Qed.

Lemma get_file_extension_cases (ct : pystr) :
  (_get_file_extension ct = Some (py "html")
   <-> contains (py "text/html") ct = true)
  /\ (_get_file_extension ct = Some (py "js")
      <-> contains (py "text/html") ct = false
          /\ contains (py "application/javascript") ct = true)
  /\ (_get_file_extension ct = Some (py "php")
      <-> contains (py "text/html") ct = false
          /\ contains (py "application/javascript") ct = false
          /\ (contains (py "application/x-httpd-php") ct = true
              \/ contains (py "text/x-php") ct = true))
  /\ (_get_file_extension ct = None
      <-> contains (py "text/html") ct = false
          /\ contains (py "application/javascript") ct = false
          /\ contains (py "application/x-httpd-php") ct = false
          /\ contains (py "text/x-php") ct = false).
Proof.
  unfold _get_file_extension.
  destruct (contains (py "text/html") ct),
    (contains (py "application/javascript") ct),
    (contains (py "application/x-httpd-php") ct),
    (contains (py "text/x-php") ct); simpl;
    repeat split; try done; try discriminate; intuition; try discriminate.
Qed.

Section Properties.
Context {RT : PyRuntime}.

(** C6, as the code has it: [download_content] changes the files only
    when the request completed with a status in the acceptance set and a
    Content-Type that [_get_file_extension] maps to an extension, which is
    then html, js or php.  The mapping is a test for substrings, in this
    order: a Content-Type that contains text/html anywhere maps to html;
    otherwise one that contains application/javascript maps to js;
    otherwise one that contains application/x-httpd-php or text/x-php maps
    to php; one that contains none of them, such as
    application/octet-stream, maps to nothing, and such a response leaves
    files and log untouched. *)
Theorem download_persists_known_types_only
    (self : FuzzDriller) (w : World) (url : pystr) (reply : Reply) :
  (files (download_content self w url reply) <> files w ->
     exists response ext,
       reply = Responded response
       /\ session self = OpenSession
       /\ status response ∈ valid_status_codes self
       /\ _get_file_extension (default [] (content_type response)) = Some ext
       /\ (ext = py "html" \/ ext = py "js" \/ ext = py "php"))
  /\ _get_file_extension (py "text/html") = Some (py "html")
  /\ _get_file_extension (py "application/javascript") = Some (py "js")
  /\ _get_file_extension (py "application/x-httpd-php") = Some (py "php")
  /\ _get_file_extension (py "text/x-php") = Some (py "php")
  /\ _get_file_extension (py "application/octet-stream") = None
  /\ (forall ct,
        contains (py "text/html") ct = false ->
        contains (py "application/javascript") ct = false ->
        contains (py "application/x-httpd-php") ct = false ->
        contains (py "text/x-php") ct = false ->
        _get_file_extension ct = None)
  /\ (forall response,
        session self = OpenSession ->
        reply = Responded response ->
        _get_file_extension (default [] (content_type response)) = None ->
        download_content self w url reply = w)
  /\ (forall needle hay,
        contains needle hay = true
        <-> exists pre post, hay = pre ++ needle ++ post)
  /\ (forall ct,
        (_get_file_extension ct = Some (py "html")
         <-> contains (py "text/html") ct = true)
        /\ (_get_file_extension ct = Some (py "js")
            <-> contains (py "text/html") ct = false
                /\ contains (py "application/javascript") ct = true)
        /\ (_get_file_extension ct = Some (py "php")
            <-> contains (py "text/html") ct = false
                /\ contains (py "application/javascript") ct = false
                /\ (contains (py "application/x-httpd-php") ct = true
                    \/ contains (py "text/x-php") ct = true))
        /\ (_get_file_extension ct = None
            <-> contains (py "text/html") ct = false
                /\ contains (py "application/javascript") ct = false
                /\ contains (py "application/x-httpd-php") ct = false
                /\ contains (py "text/x-php") ct = false))
  /\ (forall pre post,
        _get_file_extension (pre ++ py "text/html" ++ post)
        = Some (py "html")).
Proof.
  split; [|split; [done|]; split; [done|]; split; [done|]; split; [done|];
           split; [done|]; split; [|split; [|split; [|split]]]].
  - unfold download_content.
    destruct (session self) eqn:Hs, reply as [response|]; simpl; try done.
    destruct (status_in (status response) (valid_status_codes self)) eqn:Hin;
      [|done].
    apply status_in_spec in Hin.
    destruct (_get_file_extension (default [] (content_type response)))
      as [ext|] eqn:Hext; [|done].
    intros _. exists response, ext. repeat split; try done.
    unfold _get_file_extension in Hext.
    repeat match type of Hext with
           | (if ?b then _ else _) = _ => destruct b
           end; simplify_eq; auto.
  - intros ct H1 H2 H3 H4. by apply get_file_extension_cases.
  - intros response Hs -> Hext. unfold download_content.
    rewrite Hs, Hext. by destruct (status_in _ _).
  - apply contains_spec.
  - apply get_file_extension_cases.
  - intros pre post. apply get_file_extension_cases, contains_spec.
    by exists pre, post.
Qed.

(** ** C7: the sanitized file name *)

Lemma startswith_app (p s : pystr) : startswith p (p ++ s) = true.
Proof. induction p as [|c p IH]; simpl; [done|]. by rewrite N.eqb_refl. Qed.

Lemma replace_go_skip (old new l rest : pystr) :
  replace_go old new (length l) (l ++ rest) = replace_go old new O rest.
Proof. induction l as [|c l IH]; simpl; [by destruct rest|done]. Qed.

Lemma replace_go_absent (old new s : pystr) :
  contains old s = false -> replace_go old new O s = s.
Proof.
  induction s as [|c s IH]; simpl; [done|].
  intros [Hst Hc]%orb_false_iff. simpl in Hst. rewrite Hst.
  by rewrite IH.
Qed.

(** Where the base URL occurs only in front, [replace] removes the prefix. *)
Lemma replace_prefix_only (base rest : pystr) :
  base <> [] -> contains base rest = false ->
  replace base [] (base ++ rest) = rest.
Proof.
  intros Hne Habs. destruct base as [|c base]; [done|].
  unfold replace. cbn [app replace_go].
  pose proof (startswith_app (c :: base) rest) as Hst. cbn [app] in Hst.
  rewrite Hst. cbn [length pred app].
  by rewrite replace_go_skip, replace_go_absent.
Qed.

Lemma re_sub_class_char (cls : codepoint -> bool) (c : codepoint) (s : pystr) :
  re_sub_class cls [c] s = map (fun x => if cls x then c else x) s.
Proof.
  unfold re_sub_class. induction s as [|x s IH]; simpl; [done|].
  rewrite IH. by destruct (cls x).
Qed.

(** C7, as the code has it: the file name is the URL with every occurrence
    of the base URL removed and the slashes at both ends stripped, in which
    every character that is neither a word character of [\w] nor a hyphen
    is replaced by an underscore.  For ASCII characters this is the set
    [[A-Za-z0-9_-]]; from code point 128 on the Unicode database decides,
    and alphanumerics are kept.  A base URL that occurs only in front of
    the URL is removed as a prefix. *)
Theorem sanitize_filename_word_chars (self : FuzzDriller) (url : pystr) :
  _sanitize_filename self url
  = map (fun c => if is_word c || (c =? HYPHEN) then c else UNDERSCORE)
        (strip (py "/") (replace (base_url self) [] url))
  /\ Forall (fun c => is_word c = true \/ c = HYPHEN)
            (_sanitize_filename self url)
  /\ (forall c, c < 128 -> (is_word c || (c =? HYPHEN)) = ascii_safe c)
  /\ (forall c, 128 <= c -> (is_word c || (c =? HYPHEN)) = uni_alnum c)
  /\ (forall rest,
        base_url self <> [] -> contains (base_url self) rest = false ->
        _sanitize_filename self (base_url self ++ rest)
        = map (fun c => if is_word c || (c =? HYPHEN) then c else UNDERSCORE)
              (strip (py "/") rest)).
Proof.
  assert (forall s, re_sub_class unsafe_char (py "_") s
                    = map (fun c => if is_word c || (c =? HYPHEN)
                                    then c else UNDERSCORE) s) as Hsub.
  { intros s. change (py "_") with [UNDERSCORE]. rewrite re_sub_class_char.
    apply map_ext. intros c. unfold unsafe_char.
    destruct (is_word c) eqn:Hw, (c =? HYPHEN) eqn:Hh; simpl; try done.
    destruct (N.eqb_spec c UNDERSCORE) as [->|]; done. }
  unfold _sanitize_filename. rewrite Hsub.
  split; [done|]. split; [|split; [|split]].
  - apply Forall_forall. intros c Hc.
    apply list_elem_of_In, in_map_iff in Hc as (x & <- & _).
    destruct (is_word x) eqn:Hw; simpl; [by left|].
    destruct (N.eqb_spec x HYPHEN) as [->|_]; [by right|].
    by left.
  - intros c Hc. unfold is_word, ascii_safe.
    apply N.ltb_lt in Hc. rewrite Hc.
    by destruct (ascii_alnum c), (c =? UNDERSCORE), (c =? HYPHEN).
  - intros c Hc. unfold is_word.
    destruct (N.ltb_spec c 128); [lia|].
    destruct (N.eqb_spec c UNDERSCORE) as [->|];
      [unfold UNDERSCORE in Hc; lia|].
    destruct (N.eqb_spec c HYPHEN) as [->|]; [unfold HYPHEN in Hc; lia|].
    by rewrite !orb_false_r.
  - intros rest Hne Habs. rewrite Hsub. by rewrite replace_prefix_only.
Qed.

(** ** The menu *)

Lemma bind_input {B} (k : pystr -> IO B) (t : Term) (line : pystr)
    (rest : list pystr) :
  stdin t = line :: rest ->
  (input ≫= k) t = k line {| stdin := rest; runs := runs t; world := world t |}.
Proof. intros Hin. unfold mbind, IO_bind, input. by rewrite Hin. Qed.

Lemma bind_print {B} (m : message) (k : unit -> IO B) (t : Term) :
  (print m ≫= k) t
  = k tt {| stdin := stdin t; runs := runs t;
            world := emit (Print m) (world t) |}.
Proof. done. Qed.

Lemma bind_raise {A B} (e : exn) (k : A -> IO B) (t : Term) :
  (raise e ≫= k) t = Some (t, Raise e).
Proof. done. Qed.

Lemma bind_ret {A B} (a : A) (k : A -> IO B) (t : Term) :
  (mret a ≫= k) t = k a t.
Proof. done. Qed.

Lemma map_io_raises (pieces : list pystr) (t : Term) :
  (exists piece, piece ∈ pieces /\ py_int piece = None) ->
  map_io (fun s => of_option ValueError (py_int s)) pieces t
  = Some (t, Raise ValueError).
Proof.
  induction pieces as [|x pieces IH]; intros (piece & Hin & Hbad).
  - by apply elem_of_nil in Hin.
  - cbn [map_io]. destruct (py_int x) as [z|] eqn:Hx.
    + cbn [of_option]. rewrite bind_ret.
      apply elem_of_cons in Hin as [->|Hin]; [congruence|].
      unfold mbind, IO_bind. rewrite IH; [done|]. by exists piece.
    + done.
Qed.

Lemma decode_cases (line : pystr) (dflt : JSON) :
  (bad_json line
   /\ (if truthy (strip_ws line)
       then of_option JSONDecodeError (json_loads (strip_ws line))
       else mret dflt) = raise JSONDecodeError)
  \/ (~ bad_json line
      /\ exists j,
           (if truthy (strip_ws line)
            then of_option JSONDecodeError (json_loads (strip_ws line))
            else mret dflt) = mret j).
Proof.
  unfold bad_json.
  destruct (truthy (strip_ws line)) eqn:Ht.
  - destruct (json_loads (strip_ws line)) as [j|] eqn:Hj.
    + right. split; [by intros [_ [=]]|]. by exists j.
    + by left.
  - right. split; [by intros [[=] _]|]. by exists dflt.
Qed.

Lemma codes_raise (line : pystr) (dflt : list Z) (t : Term) :
  bad_status_codes line ->
  (if truthy (strip_ws line)
   then map_io (fun s => of_option ValueError (py_int s))
               (split COMMA (strip_ws line))
   else mret dflt) t
  = Some (t, Raise ValueError).
Proof. intros [-> Hpiece]. by apply map_io_raises. Qed.

Lemma set_configurations_raises
    (v : MenuVars) (t : Term) (target wl out h k m s : pystr)
    (rest : list pystr) :
  stdin t = target :: wl :: out :: h :: k :: m :: s :: rest ->
  malformed h k s ->
  exists t' e,
    set_configurations v t = Some (t', Raise e)
    /\ (e = JSONDecodeError \/ e = ValueError)
    /\ world t' = emit (Print MsgSetConfigurations) (world t).
Proof.
  intros Hin Hbad. unfold set_configurations.
  rewrite bind_print.
  erewrite bind_input by (cbn [stdin]; exact Hin). cbv beta zeta.
  do 3 (erewrite bind_input by (cbn [stdin]; reflexivity); cbv beta zeta).
  cbn [runs world].
  destruct (decode_cases h (v_headers v)) as [[_ ->]|[Hh [hv ->]]].
  { rewrite bind_raise. eexists _, _. repeat split; auto. }
  rewrite bind_ret.
  erewrite bind_input by (cbn [stdin]; reflexivity). cbv beta zeta.
  cbn [runs world].
  destruct (decode_cases k (v_cookies v)) as [[_ ->]|[Hk [kv ->]]].
  { rewrite bind_raise. eexists _, _. repeat split; auto. }
  rewrite bind_ret.
  do 2 (erewrite bind_input by (cbn [stdin]; reflexivity); cbv beta zeta).
  cbn [runs world].
  destruct Hbad as [?|[?|Hs]]; [done..|].
  unfold mbind at 1. unfold IO_bind at 1.
  rewrite (codes_raise s _ _ Hs).
  eexists _, _. repeat split; auto.
Qed.

(** ** C8: malformed configuration input *)

(** C8, as the code has it: when option 2 is given headers or cookies
    that [json.loads] rejects, or a status code that [int] rejects, the
    exception ([JSONDecodeError] or [ValueError]) is not caught: the turn
    and with it the loop of [interactive_menu] end with that exception, no
    file is touched, and nothing is printed after the heading of option
    2. *)
Theorem malformed_configuration_raises
    (net : pystr -> Reply) (v : MenuVars) (t : Term)
    (choice target wl out h k m s : pystr) (rest : list pystr) :
  stdin t = choice :: target :: wl :: out :: h :: k :: m :: s :: rest ->
  strip_ws choice = py "2" ->
  malformed h k s ->
  exists t' e,
    menu_turn net v t = Some (t', Raise e)
    /\ (e = JSONDecodeError \/ e = ValueError)
    /\ files (world t') = files (world t)
    /\ console (world t')
       = console (world t) ++ [Print MsgWelcome; Print MsgSetConfigurations]
    /\ forall fuel, menu_loop net (S fuel) v t = Some (t', Raise e).
Proof.
  intros Hin Hchoice Hbad.
  set (t1 := {| stdin := target :: wl :: out :: h :: k :: m :: s :: rest;
                runs := runs t;
                world := emit (Print MsgWelcome) (world t) |}).
  destruct (set_configurations_raises v t1 target wl out h k m s rest
              eq_refl Hbad) as (t' & e & Hset & He & Hworld).
  assert (menu_turn net v t = Some (t', Raise e)) as Hturn.
  { unfold menu_turn, display_welcome_screen. rewrite bind_print.
    erewrite bind_input by (cbn [stdin]; exact Hin). cbv beta zeta.
    rewrite Hchoice.
    change (str_eqb (py "2") (py "1")) with false.
    change (str_eqb (py "2") (py "2")) with true. cbv iota.
    cbn [runs world]. fold t1.
    unfold mbind at 1. unfold IO_bind at 1. by rewrite Hset. }
  exists t', e. rewrite Hworld. subst t1. cbn [world emit files console].
  split; [done|]. split; [done|]. split; [done|].
  split; [by rewrite <- app_assoc|].
  intros fuel. cbn [menu_loop]. unfold mbind at 1. unfold IO_bind at 1.
  by rewrite Hturn.
Qed.

(** ** C10: the download phase started from the menu *)

(** C10: option 4 builds a fresh [FuzzDriller], whose set of discovered
    endpoints is empty and which has no session, and
    [download_discovered_endpoints] takes its tasks from that set alone:
    whatever the files hold and whatever ran before, the turn hands no
    download to [gather], leaves every file as it is, and goes back to the
    menu with the configuration unchanged. *)
Theorem menu_download_dispatches_nothing
    (net : pystr -> Reply) (v : MenuVars) (t : Term) (line : pystr)
    (rest : list pystr) :
  stdin t = line :: rest ->
  strip_ws line = py "4" ->
  (forall target,
      found_endpoints (make_fuzzer target v) = ∅
      /\ session (make_fuzzer target v) = NoSession
      /\ download_tasks (make_fuzzer target v) = [])
  /\ exists t',
      menu_turn net v t = Some (t', Ok (Continue v))
      /\ stdin t' = rest
      /\ files (world t') = files (world t)
      /\ (console (world t')
          = console (world t) ++ [Print MsgWelcome; Print MsgScanTargetFirst]
          \/ console (world t')
             = console (world t)
               ++ [Print MsgWelcome; Print MsgDownloadingDirectories;
                   LogInfo MsgDownloading; LogInfo MsgDownloadCompleted]).
Proof.
  intros Hin Hchoice.
  assert (forall target, download_tasks (make_fuzzer target v) = []) as Hnone.
  { intros target. unfold download_tasks, make_fuzzer, __init__.
    cbn [found_endpoints]. apply elements_empty. }
  split; [by intros target; repeat split|].
  unfold menu_turn, display_welcome_screen. rewrite bind_print.
  erewrite bind_input by (cbn [stdin]; exact Hin). cbv beta zeta.
  rewrite Hchoice.
  change (str_eqb (py "4") (py "1")) with false.
  change (str_eqb (py "4") (py "2")) with false.
  change (str_eqb (py "4") (py "3")) with false.
  change (str_eqb (py "4") (py "4")) with true. cbv iota.
  destruct (target_of v) as [target|].
  - eexists. split; [reflexivity|]. cbn [stdin world runs].
    unfold download_discovered_endpoints. rewrite Hnone.
    cbn [foldl emit files console]. repeat split; [done..|].
    right. by rewrite <- !app_assoc.
  - eexists. split; [reflexivity|]. cbn [stdin world runs emit files console].
    repeat split; [done..|]. left. by rewrite <- !app_assoc.
Qed.

End Properties.

(** * The theorems at sample inputs *)

Lemma completed_equals_total_sample :
  exists self' w',
    start sample_fuzzer empty_world sample_trace = Some (self', w', Ok tt)
    /\ total_tasks self' = 5%nat
    /\ completed_tasks self' = total_tasks self'.
Proof.
  destruct (start sample_fuzzer empty_world sample_trace)
    as [[[self' w'] r]|] eqn:Hrun; [|by vm_compute in Hrun].
  destruct (completed_equals_total_at_barrier
              (py "http://example.test/") DEFAULT_WORDLIST DEFAULT_OUTPUT
              (JObject []) (JObject []) DEFAULT_METHODS [200%Z] empty_world)
    as (_ & Hbarrier & _).
  destruct (Hbarrier _ _ _ _ Hrun) as (Htotal & Hcompleted & -> & _).
  exists self', w'. split; [done|]. split; [|done].
  rewrite Htotal. by vm_compute.
Defined.

Lemma fetch_failure_sample :
  found_endpoints
    (_fetch sample_session empty_world (py "/admin") (py "HEAD")
            TransportFailure).1.1
  = found_endpoints sample_session.
Proof.
  exact (proj1 (proj2 (fetch_adds_iff_status_accepted sample_session
           empty_world (py "/admin") (py "HEAD") TransportFailure)) eq_refl).
Defined.

Lemma download_sample :
  files (download_content (RT := latin1_runtime) sample_session empty_world
           (py "http://example.test/admin") (ok_html (py "<html>")))
  <> files empty_world
  /\ exists response ext,
      ok_html (py "<html>") = Responded response
      /\ session sample_session = OpenSession
      /\ status response ∈ valid_status_codes sample_session
      /\ _get_file_extension (default [] (content_type response)) = Some ext
      /\ (ext = py "html" \/ ext = py "js" \/ ext = py "php").
Proof.
  assert (files (download_content (RT := latin1_runtime) sample_session
                   empty_world (py "http://example.test/admin")
                   (ok_html (py "<html>")))
          <> files empty_world) as Hne.
  { intros Heq.
    apply (f_equal (fun fs => fs !! py "downloaded_pages/admin.html")) in Heq.
    by vm_compute in Heq. }
  split; [exact Hne|].
  exact (proj1 (download_persists_known_types_only (RT := latin1_runtime)
                  sample_session empty_world (py "http://example.test/admin")
                  (ok_html (py "<html>"))) Hne).
Defined.

Lemma sanitize_filename_sample :
  base_url sample_fuzzer <> []
  /\ contains (base_url sample_fuzzer) (py "/admin/users.php?id=1") = false
  /\ _sanitize_filename (RT := latin1_runtime) sample_fuzzer
       (base_url sample_fuzzer ++ py "/admin/users.php?id=1")
     = py "admin_users_php_id_1".
Proof.
  assert (base_url sample_fuzzer <> []) as Hne by (by vm_compute).
  assert (contains (base_url sample_fuzzer) (py "/admin/users.php?id=1")
          = false) as Habs by (by vm_compute).
  split; [exact Hne|]. split; [exact Habs|].
  destruct (sanitize_filename_word_chars (RT := latin1_runtime) sample_fuzzer
              (base_url sample_fuzzer ++ py "/admin/users.php?id=1"))
    as (_ & _ & _ & _ & Hprefix).
  rewrite (Hprefix _ Hne Habs). by vm_compute.
Defined.

Lemma malformed_configuration_sample :
  exists t' e,
    menu_turn (RT := latin1_runtime) no_network initial_vars sample_term
    = Some (t', Raise e)
    /\ (e = JSONDecodeError \/ e = ValueError)
    /\ files (world t') = files (world sample_term)
    /\ console (world t')
       = console (world sample_term)
         ++ [Print MsgWelcome; Print MsgSetConfigurations]
    /\ forall fuel,
         menu_loop (RT := latin1_runtime) no_network (S fuel) initial_vars
                   sample_term
         = Some (t', Raise e).
Proof.
  apply (malformed_configuration_raises (RT := latin1_runtime) no_network
           initial_vars sample_term (py "2") (py "http://example.test")
           [] [] [] [] [] (py "200,20x") [py "5"]); [done | done |].
  right. right. split; [done|].
  exists (py "20x"). split; [|done].
  apply list_elem_of_In. vm_compute. auto.
Defined.

Lemma in_flight_sample :
  exists d,
    exec [Acquire 0; Acquire 1; Complete 0 TransportFailure; Acquire 3]
         (_process_paths_dispatch sample_session empty_world COMMON_PATHS)
    = Some d
    /\ in_flight d = 2%nat
    /\ (in_flight d <= MAX_CONCURRENT_REQUESTS)%nat.
Proof.
  destruct (exec [Acquire 0; Acquire 1; Complete 0 TransportFailure; Acquire 3]
              (_process_paths_dispatch sample_session empty_world COMMON_PATHS))
    as [d|] eqn:Hexec; [|by vm_compute in Hexec].
  exists d. split; [done|]. split.
  - vm_compute in Hexec. injection Hexec as <-. by vm_compute.
  - exact (proj1 (in_flight_bounded _ _ _ _ _ Hexec)).
Defined.

Lemma menu_download_sample :
  exists t',
    menu_turn (RT := latin1_runtime) (fun _ => ok_html (py "<html>"))
              sample_vars sample_download_term
    = Some (t', Ok (Continue sample_vars))
    /\ stdin t' = [py "5"]
    /\ files (world t') = files (world sample_download_term)
    /\ (console (world t')
        = console (world sample_download_term)
          ++ [Print MsgWelcome; Print MsgScanTargetFirst]
        \/ console (world t')
           = console (world sample_download_term)
             ++ [Print MsgWelcome; Print MsgDownloadingDirectories;
                 LogInfo MsgDownloading; LogInfo MsgDownloadCompleted]).
Proof.
  exact (proj2 (menu_download_dispatches_nothing (RT := latin1_runtime)
                  (fun _ => ok_html (py "<html>")) sample_vars
                  sample_download_term (py " 4 ") [py "5"]
                  eq_refl eq_refl)).
Defined.

(** Scenario A of the specification: 200 for [a], 404 for [b]. *)
Example scenario_A :
  let fuzzer :=
    set_session OpenSession
      (__init__ (py "http://example.test") DEFAULT_WORDLIST DEFAULT_OUTPUT
                (JObject []) (JObject []) [py "HEAD"] [200%Z]) in
  exists self' w',
    _process_paths fuzzer empty_world [py "a"; py "b"]
      [Acquire 1; Acquire 0; Complete 1 (status_only 404);
       Complete 0 (status_only 200)]
    = Some (self', w', Ok tt)
    /\ files (_save_results self' w') !! DEFAULT_OUTPUT
       = Some (py "http://example.test/a" ++ [LF]).
Proof. eexists _, _. split; by vm_compute. Qed.

(** Scenario D: one path confirmed under two methods is reported once. *)
Example scenario_D :
  let fuzzer :=
    set_session OpenSession
      (__init__ (py "http://example.test") DEFAULT_WORDLIST DEFAULT_OUTPUT
                (JObject []) (JObject []) [py "HEAD"; py "GET"] [200%Z]) in
  exists self' w',
    _process_paths fuzzer empty_world [py "a"]
      [Acquire 0; Acquire 1; Complete 1 (status_only 200);
       Complete 0 (status_only 200)]
    = Some (self', w', Ok tt)
    /\ files (_save_results self' w') !! DEFAULT_OUTPUT
       = Some (py "http://example.test/a" ++ [LF]).
Proof. eexists _, _. split; by vm_compute. Qed.

(** Scenario C: every request fails; no report, a warning. *)
Example scenario_C :
  exists self' w',
    start sample_fuzzer empty_world
      [Acquire 0; Acquire 1; Acquire 2; Acquire 3; Acquire 4;
       Complete 4 TransportFailure; Complete 3 TransportFailure;
       Complete 2 TransportFailure; Complete 1 TransportFailure;
       Complete 0 TransportFailure]
    = Some (self', w', Ok tt)
    /\ files w' = ∅
    /\ last (console w') = Some (LogWarning MsgNoEndpoints).
Proof. eexists _, _. split; [by vm_compute|]. split; by vm_compute. Qed.

(** A Content-Type with parameters maps like the media type it contains;
    the test is case-sensitive. *)
Example get_file_extension_demo :
  _get_file_extension (py "text/html; charset=utf-8") = Some (py "html")
  /\ _get_file_extension (py "Text/HTML") = None
  /\ _get_file_extension [] = None.
Proof. repeat split; reflexivity. Qed.

(** * Where the code departs from the wording *)

(** C6, as worded, fails: application/octet-stream with a parameter that
    mentions text/html is none of the four listed media types, yet the
    substring test maps it to html and the body is stored as an html
    artifact. *)
Lemma other_content_type_gets_artifact :
  content_type sample_octet_stream
  = Some (py "application/octet-stream; note=text/html")
  /\ spec_file_extension (py "application/octet-stream; note=text/html")
     = None
  /\ _get_file_extension (py "application/octet-stream; note=text/html")
     = Some (py "html")
  /\ files (download_content (RT := latin1_runtime) sample_session
              empty_world (py "http://example.test/admin")
              (Responded sample_octet_stream))
       !! py "downloaded_pages/admin.html"
     = Some (py "binary")
  /\ files empty_world !! py "downloaded_pages/admin.html" = None.
Proof. repeat split; by vm_compute. Qed.

(** C7, as worded, fails: the letter e with an acute accent (U+00E9) is a
    word character for [\w] and stays in the file name, where the wording
    has an underscore for every character outside [[A-Za-z0-9_-]]. *)
Lemma sanitize_keeps_non_ascii_letter :
  _sanitize_filename (RT := latin1_runtime) sample_fuzzer
    (py "http://example.test/caf" ++ [233])
  = py "caf" ++ [233]
  /\ ascii_safe 233 = false
  /\ ~ Forall (fun c => ascii_safe c = true)
        (_sanitize_filename (RT := latin1_runtime) sample_fuzzer
           (py "http://example.test/caf" ++ [233]))
  /\ _sanitize_filename (RT := latin1_runtime) sample_fuzzer
       (py "http://example.test/caf" ++ [233])
     <> spec_sanitize_filename (py "http://example.test")
          (py "http://example.test/caf" ++ [233]).
Proof.
  split; [by vm_compute|]. split; [by vm_compute|]. split.
  - intros Hall. rewrite Forall_forall in Hall.
    assert (ascii_safe 233 = true) as Habs; [|by vm_compute in Habs].
    apply Hall, list_elem_of_In. vm_compute. auto.
  - by vm_compute.
Qed.

(** C8, as worded, fails: a status code that is not an integer ends the
    menu with an uncaught [ValueError]; the request to exit that follows
    is never read and no message is printed about the error. *)
Lemma malformed_status_code_ends_menu :
  exists t',
    interactive_menu (RT := latin1_runtime) no_network sample_term
    = Some (t', Raise ValueError)
    /\ stdin t' = [py "5"]
    /\ console (world t') = [Print MsgWelcome; Print MsgSetConfigurations].
Proof. eexists. split; [by vm_compute|]. by split. Qed.

(** * Further properties of the probing run *)

(** A property kept by every step holds along every trace. *)
Lemma exec_invariant (P : Dispatch -> Prop) (Q : event -> Prop) :
  (forall e d d', Q e -> P d -> step e d = Some d' -> P d') ->
  forall evs d d',
    Forall Q evs -> P d -> exec evs d = Some d' -> P d'.
Proof.
  intros Hstep evs. induction evs as [|e evs IH]; intros d d' HQ HP; simpl.
  - by intros [= <-].
  - apply Forall_cons in HQ as [He HQ].
    destruct (step e d) as [d1|] eqn:Hs; [|done].
    apply IH; [done|]. by eapply Hstep.
Qed.

Lemma Forall_any_event (evs : list event) : Forall (fun _ => True) evs.
Proof. by apply Forall_forall. Qed.

Lemma fetch_config (self : FuzzDriller) (w : World) (path method : pystr)
    (reply : Reply) :
  same_config (_fetch self w path method reply).1.1 self
  /\ session (_fetch self w path method reply).1.1 = session self.
Proof.
  unfold _fetch, _print_progress_bar, same_config.
  destruct (session self) eqn:Hs, reply as [r|]; simpl;
    try destruct (status_in (status r) (valid_status_codes self)); simpl;
    destruct (total_tasks self); simpl; by repeat split.
Qed.

Lemma fetch_world (self : FuzzDriller) (w : World) (path method : pystr)
    (reply : Reply) :
  files (_fetch self w path method reply).1.2 = files w
  /\ console w `prefix_of` console (_fetch self w path method reply).1.2.
Proof.
  unfold _fetch, _print_progress_bar.
  destruct (session self), reply as [r|]; simpl;
    try destruct (status_in (status r) (valid_status_codes self)); simpl;
    destruct (total_tasks self); simpl; split; try done;
    rewrite <- ?app_assoc; try apply prefix_app_r; done.
Qed.

Lemma exec_config (evs : list event) (d d' : Dispatch) :
  exec evs d = Some d' ->
  same_config (self_ d') (self_ d) /\ session (self_ d') = session (self_ d).
Proof.
  intros Hexec.
  apply (exec_invariant
           (fun x => same_config (self_ x) (self_ d)
                     /\ session (self_ x) = session (self_ d))
           (fun _ => True)) with (evs := evs) (d := d);
    [|apply Forall_any_event|done|done].
  intros e d1 d2 _ [Hc Hs] Hstep. destruct e as [i|i reply].
  - by apply step_acquire_inv in Hstep as (p & m & k & _ & _ & ->).
  - apply step_complete_inv in Hstep as (p & m & _ & ->). simpl.
    destruct (fetch_config (self_ d1) (world_ d1) p m reply) as [Hc' Hs'].
    unfold same_config in *. split; [|congruence].
    destruct Hc as (? & ? & ? & ? & ? & ? & ?),
      Hc' as (? & ? & ? & ? & ? & ? & ?). repeat split; congruence.
Qed.

Lemma exec_world (evs : list event) (d d' : Dispatch) :
  exec evs d = Some d' ->
  files (world_ d') = files (world_ d)
  /\ console (world_ d) `prefix_of` console (world_ d').
Proof.
  intros Hexec.
  apply (exec_invariant
           (fun x => files (world_ x) = files (world_ d)
                     /\ console (world_ d) `prefix_of` console (world_ x))
           (fun _ => True)) with (evs := evs) (d := d);
    [|apply Forall_any_event|done|done].
  intros e d1 d2 _ [Hf Hc] Hstep. destruct e as [i|i reply].
  - by apply step_acquire_inv in Hstep as (p & m & k & _ & _ & ->).
  - apply step_complete_inv in Hstep as (p & m & _ & ->). simpl.
    destruct (fetch_world (self_ d1) (world_ d1) p m reply) as [Hf' Hc'].
    split; [congruence | by etrans].
Qed.

Lemma fetch_result (self : FuzzDriller) (w : World) (path method : pystr)
    (reply : Reply) :
  total_tasks self <> O ->
  (_fetch self w path method reply).2 = Ok (request_status self reply).
Proof.
  intros Hpos. unfold _fetch, _print_progress_bar, request_status.
  destruct (session self), reply as [r|]; simpl;
    try destruct (status_in (status r) (valid_status_codes self)); simpl;
    destruct (total_tasks self); done.
Qed.

Lemma fetch_found_elem (self : FuzzDriller) (w : World) (path method : pystr)
    (reply : Reply) (u : pystr) :
  u ∈ found_endpoints (_fetch self w path method reply).1.1
  <-> u ∈ found_endpoints self
      \/ (exists code,
            request_status self reply = Some code
            /\ code ∈ valid_status_codes self
            /\ u = request_url self path).
Proof.
  rewrite fetch_found.
  destruct (request_status self reply) as [code|];
    [|split; [by left | by intros [?|(code & [=] & _)]]].
  destruct (status_in code (valid_status_codes self)) eqn:Hin.
  - apply status_in_spec in Hin. rewrite elem_of_union, elem_of_singleton.
    split.
    + intros [->|?]; [right; by exists code | by left].
    + intros [?|(code' & _ & _ & ->)]; [by right | by left].
  - split; [by left|]. intros [?|(code' & [= <-] & Hc & _)]; [done|].
    apply status_in_spec in Hc. congruence.
Qed.

(** The statement about [found_endpoints] that every step keeps. *)
Lemma found_step (self0 : FuzzDriller) (found0 : gset pystr) (c0 : nat)
    (e : event) (d d' : Dispatch) :
  dispatch_inv c0 d /\ same_config (self_ d) self0
  /\ (forall u,
        u ∈ found_endpoints (self_ d)
        <-> u ∈ found0
            \/ exists i p m code,
                 tasks d !! i = Some (mkTask p m (Done (Ok (Some code))))
                 /\ code ∈ valid_status_codes self0
                 /\ u = request_url self0 p) ->
  step e d = Some d' ->
  dispatch_inv c0 d' /\ same_config (self_ d') self0
  /\ (forall u,
        u ∈ found_endpoints (self_ d')
        <-> u ∈ found0
            \/ exists i p m code,
                 tasks d' !! i = Some (mkTask p m (Done (Ok (Some code))))
                 /\ code ∈ valid_status_codes self0
                 /\ u = request_url self0 p).
Proof.
  intros (Hinv & Hcfg & Hfound) Hstep.
  split; [by eapply step_preserves_inv|].
  destruct e as [i|i reply].
  - apply step_acquire_inv in Hstep as (p & m & k & Hl & _ & ->).
    split; [done|]. intros u. rewrite Hfound. simpl.
    pose proof (lookup_lt_Some _ _ _ Hl) as Hlt.
    split; (intros [?|(j & p' & m' & code & Hj & Hc & ->)]; [by left|right]);
      exists j, p', m', code; (split; [|done]);
      destruct (decide (j = i)) as [->|Hne].
    + congruence.
    + by rewrite list_lookup_insert_ne.
    + by rewrite list_lookup_insert_eq in Hj.
    + by rewrite list_lookup_insert_ne in Hj.
  - apply step_complete_inv in Hstep as (p & m & Hl & ->). simpl.
    pose proof (lookup_lt_Some _ _ _ Hl) as Hlt.
    destruct (fetch_config (self_ d) (world_ d) p m reply) as [Hcfg' _].
    assert (same_config (_fetch (self_ d) (world_ d) p m reply).1.1 self0)
      as Hcfg2.
    { unfold same_config in *.
      destruct Hcfg as (? & ? & ? & ? & ? & ? & ?),
        Hcfg' as (? & ? & ? & ? & ? & ? & ?). repeat split; congruence. }
    split; [done|]. intros u.
    rewrite fetch_found_elem, Hfound, fetch_result
      by (rewrite (inv_total _ _ Hinv); lia).
    assert (request_url (self_ d) p = request_url self0 p) as ->.
    { unfold request_url. by destruct Hcfg as (-> & _). }
    assert (valid_status_codes (self_ d) = valid_status_codes self0) as ->.
    { by destruct Hcfg as (_ & _ & _ & _ & _ & _ & ->). }
    split.
    + intros [[?|(j & p' & m' & code & Hj & Hc & ->)]
             |(code & Hst & Hc & ->)]; [by left|right..].
      * exists j, p', m', code. split; [|done].
        destruct (decide (j = i)) as [->|Hne]; [congruence|].
        by rewrite list_lookup_insert_ne.
      * exists i, p, m, code. split; [|done].
        by rewrite list_lookup_insert_eq, Hst.
    + intros [?|(j & p' & m' & code & Hj & Hc & ->)]; [by left; left|].
      destruct (decide (j = i)) as [->|Hne].
      * rewrite list_lookup_insert_eq in Hj by done.
        injection Hj as <- <- Hst. right. by exists code.
      * rewrite list_lookup_insert_ne in Hj by done.
        left. right. by exists j, p', m', code.
Qed.

Lemma exec_found
    (self : FuzzDriller) (w : World) (paths : list pystr)
    (evs : list event) (d : Dispatch) :
  exec evs (_process_paths_dispatch self w paths) = Some d ->
  forall u : pystr,
    u ∈ found_endpoints (self_ d)
    <-> u ∈ found_endpoints self
        \/ exists i p m code,
             tasks d !! i = Some (mkTask p m (Done (Ok (Some code))))
             /\ code ∈ valid_status_codes self
             /\ u = request_url self p.
Proof.
  intros Hexec.
  refine (proj2 (proj2 (exec_invariant _ (fun _ => True)
            (fun e d1 d2 _ => found_step self (found_endpoints self)
                                (completed_tasks self) e d1 d2)
            evs _ d (Forall_any_event evs) _ Hexec))).
  split; [apply dispatch_inv_initial|]. split; [by repeat split|].
  intros u. split; [by left|]. intros [?|(i & p & m & code & Hi & _)]; [done|].
  simpl in Hi. apply list_elem_of_lookup_2 in Hi.
  pose proof (candidates_waiting paths (methods self)) as Hw.
  rewrite Forall_forall in Hw. by specialize (Hw _ Hi).
Qed.

Lemma driller_eq (a b : FuzzDriller) :
  same_config a b -> found_endpoints a = found_endpoints b ->
  session a = session b -> total_tasks a = total_tasks b ->
  completed_tasks a = completed_tasks b -> a = b.
Proof.
  destruct a, b. unfold same_config. simpl.
  intros (? & ? & ? & ? & ? & ? & ?) ? ? ? ?. by subst.
Qed.

Lemma same_config_trans (a b c : FuzzDriller) :
  same_config a b -> same_config b c -> same_config a c.
Proof.
  unfold same_config.
  intros (? & ? & ? & ? & ? & ? & ?) (? & ? & ? & ? & ? & ? & ?).
  repeat split; congruence.
Qed.

Lemma same_config_sym (a b : FuzzDriller) : same_config a b -> same_config b a.
Proof.
  unfold same_config. intros (? & ? & ? & ? & ? & ? & ?). by repeat split.
Qed.

(** With the replies fixed task by task, the state of every task that is
    done is fixed too. *)
Lemma tasks_step_net (net : nat -> Reply) (self0 : FuzzDriller)
    (ts0 : list Task) (c0 : nat) (e : event) (d d' : Dispatch) :
  (forall i reply, e = Complete i reply -> reply = net i) ->
  dispatch_inv c0 d /\ same_config (self_ d) self0
  /\ session (self_ d) = session self0
  /\ length (tasks d) = length ts0
  /\ (forall i t, tasks d !! i = Some t ->
        exists t0, ts0 !! i = Some t0 /\ t_path t = t_path t0
                   /\ t_method t = t_method t0
                   /\ forall r, t_state t = Done r ->
                                r = Ok (request_status self0 (net i))) ->
  step e d = Some d' ->
  dispatch_inv c0 d' /\ same_config (self_ d') self0
  /\ session (self_ d') = session self0
  /\ length (tasks d') = length ts0
  /\ (forall i t, tasks d' !! i = Some t ->
        exists t0, ts0 !! i = Some t0 /\ t_path t = t_path t0
                   /\ t_method t = t_method t0
                   /\ forall r, t_state t = Done r ->
                                r = Ok (request_status self0 (net i))).
Proof.
  intros Hnet (Hinv & Hcfg & Hses & Hlen & Htasks) Hstep.
  split; [by eapply step_preserves_inv|].
  destruct e as [i|i reply].
  - apply step_acquire_inv in Hstep as (p & m & k & Hl & _ & ->). simpl.
    pose proof (lookup_lt_Some _ _ _ Hl) as Hlt.
    rewrite length_insert. split; [done|]. split; [done|]. split; [done|].
    intros j t Hj. destruct (decide (j = i)) as [->|Hne].
    + rewrite list_lookup_insert_eq in Hj by done. injection Hj as <-.
      destruct (Htasks _ _ Hl) as (t0 & Ht0 & Hp & Hm & _).
      exists t0. by repeat split.
    + rewrite list_lookup_insert_ne in Hj by done. by apply Htasks.
  - apply step_complete_inv in Hstep as (p & m & Hl & ->). simpl.
    pose proof (lookup_lt_Some _ _ _ Hl) as Hlt.
    destruct (fetch_config (self_ d) (world_ d) p m reply) as [Hcfg' Hses'].
    rewrite length_insert.
    split; [by eapply same_config_trans|]. split; [congruence|].
    split; [done|].
    intros j t Hj. destruct (decide (j = i)) as [->|Hne].
    + rewrite list_lookup_insert_eq in Hj by done. injection Hj as <-.
      destruct (Htasks _ _ Hl) as (t0 & Ht0 & Hp & Hm & _).
      exists t0. repeat split; try done. simpl. intros r [= <-].
      rewrite fetch_result by (rewrite (inv_total _ _ Hinv); lia).
      rewrite (Hnet i reply eq_refl). unfold request_status. by rewrite Hses.
    + rewrite list_lookup_insert_ne in Hj by done. by apply Htasks.
Qed.

Lemma replies_from_Forall (net : nat -> Reply) (evs : list event) :
  replies_from net evs ->
  Forall (fun e => forall i reply, e = Complete i reply -> reply = net i) evs.
Proof.
  intros Hfrom. apply Forall_forall. intros e He i reply ->. by apply Hfrom.
Qed.

(** At the barrier the task list is a function of the replies alone. *)
Lemma barrier_tasks_net (net : nat -> Reply) (self : FuzzDriller) (w : World)
    (paths : list pystr) (evs1 evs2 : list event) (d1 d2 : Dispatch) :
  exec evs1 (_process_paths_dispatch self w paths) = Some d1 ->
  exec evs2 (_process_paths_dispatch self w paths) = Some d2 ->
  all_done d1 = true -> all_done d2 = true ->
  replies_from net evs1 -> replies_from net evs2 ->
  tasks d1 = tasks d2.
Proof.
  intros He1 He2 Ha1 Ha2 Hn1 Hn2.
  set (d0 := _process_paths_dispatch self w paths) in *.
  assert (forall evs d,
             exec evs d0 = Some d -> replies_from net evs ->
             length (tasks d) = length (tasks d0)
             /\ forall i t, tasks d !! i = Some t ->
                  exists t0, tasks d0 !! i = Some t0 /\ t_path t = t_path t0
                    /\ t_method t = t_method t0
                    /\ forall r, t_state t = Done r ->
                         r = Ok (request_status (self_ d0) (net i))) as Hdet.
  { intros evs d Hexec Hfrom.
    refine (proj2 (proj2 (proj2 (exec_invariant _ _
              (fun e x y Hq => tasks_step_net net (self_ d0) (tasks d0)
                                 (completed_tasks self) e x y Hq)
              evs d0 d (replies_from_Forall net evs Hfrom) _ Hexec)))).
    split; [apply dispatch_inv_initial|]. split; [by repeat split|].
    split; [done|]. split; [done|]. intros i t Hi. exists t.
    repeat split; try done. intros r Hr.
    pose proof (candidates_waiting paths (methods self)) as Hw.
    rewrite Forall_forall in Hw.
    apply list_elem_of_lookup_2 in Hi. specialize (Hw _ Hi). congruence. }
  destruct (Hdet _ _ He1 Hn1) as [Hl1 Ht1], (Hdet _ _ He2 Hn2) as [Hl2 Ht2].
  apply list_eq. intros i.
  destruct (tasks d1 !! i) as [t1|] eqn:H1.
  - destruct (lookup_lt_is_Some_2 (tasks d2) i) as [t2 H2].
    { rewrite Hl2, <- Hl1. by eapply lookup_lt_Some. }
    rewrite H2. f_equal.
    destruct (Ht1 _ _ H1) as (t0 & Ht0 & Hp1 & Hm1 & Hr1).
    destruct (Ht2 _ _ H2) as (t0' & Ht0' & Hp2 & Hm2 & Hr2).
    assert (t0' = t0) as -> by congruence.
    unfold all_done in Ha1, Ha2. rewrite forallb_forall in Ha1, Ha2.
    pose proof (Ha1 t1 (proj1 (list_elem_of_In _ _)
                          (list_elem_of_lookup_2 _ _ _ H1))) as Hd1.
    pose proof (Ha2 t2 (proj1 (list_elem_of_In _ _)
                          (list_elem_of_lookup_2 _ _ _ H2))) as Hd2.
    destruct t1 as [p1 m1 [| |r1]], t2 as [p2 m2 [| |r2]]; try done.
    simpl in *. rewrite (Hr1 _ eq_refl), (Hr2 _ eq_refl). congruence.
  - symmetry. apply lookup_ge_None. rewrite Hl2, <- Hl1.
    by apply lookup_ge_None.
Qed.

(** X1: at every point of the dispatch, the set of discovered endpoints is
    what it was before plus the request URLs of the candidates for which
    [_fetch] has returned a status code of the acceptance list; nothing is
    ever removed and nothing else is added. *)
Theorem found_endpoints_are_accepted_tasks
    (self : FuzzDriller) (w : World) (paths : list pystr)
    (evs : list event) (d : Dispatch) :
  exec evs (_process_paths_dispatch self w paths) = Some d ->
  forall u : pystr,
    u ∈ found_endpoints (self_ d)
    <-> u ∈ found_endpoints self
        \/ exists i p m code,
             tasks d !! i = Some (mkTask p m (Done (Ok (Some code))))
             /\ code ∈ valid_status_codes self
             /\ u = request_url self p.
Proof. apply exec_found. Qed.

Lemma save_results_files (self : FuzzDriller) (w : World) :
  files (_save_results self w)
  = if bool_decide (found_endpoints self = ∅) then files w
    else <[output_file self
           := report_text (sorted (elements (found_endpoints self)))]>
           (files w).
Proof. unfold _save_results. by destruct (bool_decide _). Qed.

(** What a run of [start] is made of. *)
Lemma start_inv (self : FuzzDriller) (w : World) (evs : list event)
    (self' : FuzzDriller) (w' : World) (r : Result unit) :
  start self w evs = Some (self', w', r) ->
  exists d,
    exec evs (_process_paths_dispatch (set_session OpenSession self)
                (emit (LogInfo (MsgLoaded (length (_load_wordlist self w)))) w)
                (_load_wordlist self w)) = Some d
    /\ all_done d = true
    /\ self' = set_session ClosedSession (self_ d)
    /\ w' = _save_results (self_ d) (world_ d)
    /\ r = Ok tt.
Proof.
  unfold start, _process_paths.
  destruct (exec evs _) as [d|] eqn:Hexec; [|done].
  destruct (all_done d) eqn:Hall; [|done].
  pose proof (exec_preserves_inv _ _ _ _ (dispatch_inv_initial _ _ _) Hexec)
    as [_ _ _ Hnr].
  rewrite (first_raised_none _ Hnr). intros [= <- <- <-]. by exists d.
Qed.

(** X2: the outcome of a run does not depend on the order in which the
    event loop admits and completes the candidates: two runs of [start]
    from the same state that get the same reply for every candidate end
    with the same object (same discovered set, same counters) and the same
    files. *)
Theorem run_result_independent_of_schedule
    (self : FuzzDriller) (w : World) (net : nat -> Reply)
    (evs1 evs2 : list event) (s1 s2 : FuzzDriller) (w1 w2 : World)
    (r1 r2 : Result unit) :
  start self w evs1 = Some (s1, w1, r1) ->
  start self w evs2 = Some (s2, w2, r2) ->
  replies_from net evs1 -> replies_from net evs2 ->
  s1 = s2 /\ files w1 = files w2 /\ r1 = r2.
Proof.
  intros (d1 & He1 & Ha1 & -> & -> & ->)%start_inv
         (d2 & He2 & Ha2 & -> & -> & ->)%start_inv Hn1 Hn2.
  pose proof (barrier_tasks_net net _ _ _ _ _ _ _ He1 He2 Ha1 Ha2 Hn1 Hn2)
    as Htasks.
  assert (self_ d1 = self_ d2) as Hself.
  { destruct (exec_config _ _ _ He1) as [Hc1 Hs1].
    destruct (exec_config _ _ _ He2) as [Hc2 Hs2].
    pose proof (exec_preserves_inv _ _ _ _ (dispatch_inv_initial _ _ _) He1)
      as [_ Hcomp1 _ _].
    pose proof (exec_preserves_inv _ _ _ _ (dispatch_inv_initial _ _ _) He2)
      as [_ Hcomp2 _ _].
    apply driller_eq.
    - eapply same_config_trans; [exact Hc1|by apply same_config_sym].
    - apply set_eq. intros u.
      rewrite (exec_found _ _ _ _ _ He1 u), (exec_found _ _ _ _ _ He2 u).
      by rewrite Htasks.
    - congruence.
    - by rewrite (exec_total _ _ _ He1), (exec_total _ _ _ He2).
    - rewrite Hcomp1, Hcomp2. by rewrite Htasks. }
  split; [by rewrite Hself|]. split; [|done].
  rewrite !save_results_files, Hself.
  destruct (exec_world _ _ _ He1) as [-> _].
  by destruct (exec_world _ _ _ He2) as [-> _].
Qed.

(** X3: a run of [start] changes no file other than the output file, only
    appends to the terminal, leaves the configuration of the object as it
    was, never shrinks the set of discovered endpoints, and leaves the
    session closed. *)
Theorem start_writes_only_report
    (self : FuzzDriller) (w : World) (evs : list event)
    (self' : FuzzDriller) (w' : World) (r : Result unit) :
  start self w evs = Some (self', w', r) ->
  (forall path, path <> output_file self ->
                files w' !! path = files w !! path)
  /\ console w `prefix_of` console w'
  /\ same_config self' self
  /\ found_endpoints self ⊆ found_endpoints self'
  /\ session self' = ClosedSession.
Proof.
  intros (d & Hexec & Hall & -> & -> & ->)%start_inv.
  destruct (exec_world _ _ _ Hexec) as [Hfiles Hcons].
  destruct (exec_config _ _ _ Hexec) as [Hcfg _].
  split; [|split; [|split; [|split]]].
  - intros path Hpath. rewrite save_results_files, Hfiles. simpl.
    destruct (bool_decide _); [done|].
    rewrite lookup_insert_ne; [done|].
    destruct Hcfg as (_ & _ & -> & _). by simpl.
  - trans (console (world_ d)).
    + etrans; [|exact Hcons]. simpl. rewrite <- app_assoc. apply prefix_app_r.
      done.
    + unfold _save_results. destruct (bool_decide _); simpl;
        by apply prefix_app_r.
  - done.
  - intros u Hu. simpl. apply (exec_found _ _ _ _ _ Hexec u). by left.
  - done.
Qed.

(** ** C3: the report *)

(** C3: with no discovered endpoint [_save_results] leaves every file as
    it is and logs the warning; otherwise the output file holds, in place
    of whatever it held, the discovered URLs each followed by a line feed,
    in strictly ascending order, hence without duplicates, and nothing
    else; when no URL contains a line feed, the lines of the file are
    exactly these URLs.  So it is for every run: a run of [start] returns
    normally and, if its set of discovered endpoints is empty at the end,
    it has left every file of the world it started in as it was, the
    earlier report included, and its last output is the warning; otherwise
    the files are those it started with except that the output file holds
    the report.  A run exists for any replies of the network. *)
Theorem save_results_report (self : FuzzDriller) (w : World) :
  (found_endpoints self = ∅ ->
     files (_save_results self w) = files w
     /\ console (_save_results self w) = console w ++ [LogWarning MsgNoEndpoints])
  /\ (found_endpoints self <> ∅ ->
      exists urls : list pystr,
        files (_save_results self w)
        = <[output_file self := report_text urls]> (files w)
        /\ files (_save_results self w) !! output_file self
           = Some (report_text urls)
        /\ StronglySorted str_lt urls
        /\ NoDup urls
        /\ (forall u, u ∈ urls <-> u ∈ found_endpoints self)
        /\ ((forall u, u ∈ found_endpoints self -> LF ∉ u) ->
            split_lines (report_text urls) = map (fun u => u ++ [LF]) urls))
  /\ (forall evs self' w' r,
        start self w evs = Some (self', w', r) ->
        r = Ok tt
        /\ (found_endpoints self' = ∅ ->
            files w' = files w
            /\ last (console w') = Some (LogWarning MsgNoEndpoints))
        /\ (found_endpoints self' <> ∅ ->
            exists urls : list pystr,
              files w' = <[output_file self := report_text urls]> (files w)
              /\ files w' !! output_file self = Some (report_text urls)
              /\ StronglySorted str_lt urls
              /\ NoDup urls
              /\ (forall u, u ∈ urls <-> u ∈ found_endpoints self')
              /\ ((forall u, u ∈ found_endpoints self' -> LF ∉ u) ->
                  split_lines (report_text urls)
                  = map (fun u => u ++ [LF]) urls)))
  /\ (forall net : nat -> Reply,
        exists evs self' w',
          start self w evs = Some (self', w', Ok tt) /\ replies_from net evs).
Proof.
  assert (forall s w0,
            found_endpoints s <> ∅ ->
            exists urls : list pystr,
              files (_save_results s w0)
              = <[output_file s := report_text urls]> (files w0)
              /\ files (_save_results s w0) !! output_file s
                 = Some (report_text urls)
              /\ StronglySorted str_lt urls
              /\ NoDup urls
              /\ (forall u, u ∈ urls <-> u ∈ found_endpoints s)
              /\ ((forall u, u ∈ found_endpoints s -> LF ∉ u) ->
                  split_lines (report_text urls)
                  = map (fun u => u ++ [LF]) urls)) as Hwritten.
  { intros s w0 Hfound. unfold _save_results.
    rewrite bool_decide_eq_false_2 by done. simpl.
    destruct (sorted_spec (elements (found_endpoints s)))
      as (Hsorted & Hnd & Hmem); [apply NoDup_elements|].
    exists (sorted (elements (found_endpoints s))).
    split; [done|]. split; [by rewrite lookup_insert_eq|].
    split; [done|]. split; [done|]. split.
    + intros u. by rewrite Hmem, elem_of_elements.
    + intros Hlf. apply split_lines_report, Forall_forall.
      intros u Hu. apply Hlf. by rewrite <- elem_of_elements, <- Hmem. }
  split; [|split; [|split]].
  - intros Hfound. unfold _save_results. by rewrite bool_decide_eq_true_2.
  - apply Hwritten.
  - intros evs self' w' r (d & Hexec & Hall & -> & -> & ->)%start_inv.
    destruct (exec_world _ _ _ Hexec) as [Hfiles _].
    destruct (exec_config _ _ _ Hexec) as [(_ & _ & Hout & _) _].
    simpl in Hfiles, Hout. split; [done|]. split.
    + intros Hfound. simpl in Hfound. unfold _save_results.
      rewrite bool_decide_eq_true_2 by done. simpl.
      split; [done|]. apply last_snoc.
    + intros Hfound. simpl in Hfound.
      destruct (Hwritten (self_ d) (world_ d) Hfound) as (urls & Hw & Hl & Hrest).
      exists urls. rewrite Hw, Hfiles, <- Hout.
      split; [done|]. split; [by rewrite lookup_insert_eq|]. exact Hrest.
  - intros net.
    destruct (reach_barrier net (completed_tasks self) _
                (_process_paths_dispatch (set_session OpenSession self)
                   (emit (LogInfo (MsgLoaded (length (_load_wordlist self w)))) w)
                   (_load_wordlist self w))
                (dispatch_inv_initial (set_session OpenSession self) _ _)
                (le_n _))
      as (evs & d & Hexec & Hall & Hfrom).
    pose proof (exec_preserves_inv _ _ _ _
                  (dispatch_inv_initial (set_session OpenSession self) _ _)
                  Hexec) as [_ _ _ Hnr].
    exists evs. eexists _, _. split; [|done].
    unfold start, _process_paths.
    by rewrite Hexec, Hall, (first_raised_none _ Hnr).
Qed.

(** The two cases at sample runs that start with an earlier report on
    disk: every request fails, and some are accepted. *)
Lemma save_results_sample :
  (exists s1 w1 r1,
      start sample_fuzzer sample_old_world sample_trace_failing
      = Some (s1, w1, r1)
      /\ found_endpoints s1 = ∅
      /\ files w1 = files sample_old_world
      /\ last (console w1) = Some (LogWarning MsgNoEndpoints))
  /\ (exists s2 w2 r2 urls,
        start sample_fuzzer sample_old_world sample_trace = Some (s2, w2, r2)
        /\ found_endpoints s2 <> ∅
        /\ files w2
           = <[output_file sample_fuzzer := report_text urls]>
               (files sample_old_world)
        /\ files w2 !! output_file sample_fuzzer = Some (report_text urls)
        /\ StronglySorted str_lt urls
        /\ NoDup urls
        /\ (forall u, u ∈ urls <-> u ∈ found_endpoints s2)
        /\ ((forall u, u ∈ found_endpoints s2 -> LF ∉ u) ->
            split_lines (report_text urls) = map (fun u => u ++ [LF]) urls)).
Proof.
  destruct (save_results_report sample_fuzzer sample_old_world)
    as (_ & _ & Hrun & _).
  split.
  - destruct (start sample_fuzzer sample_old_world sample_trace_failing)
      as [[[s1 w1] r1]|] eqn:H1; [|by vm_compute in H1].
    assert (found_endpoints s1 = ∅) as Hempty.
    { pose proof H1 as H1'. vm_compute in H1'. injection H1' as <- _ _.
      by vm_compute. }
    destruct (Hrun _ _ _ _ H1) as (_ & Hnone & _).
    exists s1, w1, r1. split; [done|]. split; [exact Hempty|].
    exact (Hnone Hempty).
  - destruct (start sample_fuzzer sample_old_world sample_trace)
      as [[[s2 w2] r2]|] eqn:H2; [|by vm_compute in H2].
    assert (found_endpoints s2 <> ∅) as Hfound.
    { pose proof H2 as H2'. vm_compute in H2'. injection H2' as <- _ _.
      intros Heq. apply (f_equal size) in Heq. by vm_compute in Heq. }
    destruct (Hrun _ _ _ _ H2) as (_ & _ & Hsome).
    destruct (Hsome Hfound) as (urls & Hurls).
    exists s2, w2, r2, urls. split; [done|]. split; [exact Hfound|].
    exact Hurls.
Defined.

(** ** The progress bar *)

Lemma progress_events_app (a b : list output) :
  progress_events (a ++ b) = progress_events a ++ progress_events b.
Proof. apply omap_app. Qed.

Lemma fetch_progress (self : FuzzDriller) (w : World) (path method : pystr)
    (reply : Reply) :
  total_tasks self <> O ->
  progress_events (console (_fetch self w path method reply).1.2)
  = progress_events (console w)
    ++ [((completed_tasks self + 1)%nat, total_tasks self)].
Proof.
  intros Hpos. unfold _fetch, _print_progress_bar.
  destruct (session self), reply as [r|]; simpl;
    try destruct (status_in (status r) (valid_status_codes self)); simpl;
    destruct (total_tasks self) eqn:E; try done; simpl;
    rewrite ?progress_events_app; simpl; by rewrite ?app_nil_r, ?E.
Qed.

Lemma progress_step (c0 : nat) (before : list (nat * nat)) (e : event)
    (d d' : Dispatch) :
  dispatch_inv c0 d
  /\ progress_events (console (world_ d))
     = before ++ map (fun k => ((c0 + k)%nat, total_tasks (self_ d)))
                     (seq 1 (count_tasks is_done (tasks d))) ->
  step e d = Some d' ->
  dispatch_inv c0 d'
  /\ progress_events (console (world_ d'))
     = before ++ map (fun k => ((c0 + k)%nat, total_tasks (self_ d')))
                     (seq 1 (count_tasks is_done (tasks d'))).
Proof.
  intros [Hinv Hprog] Hstep. split; [by eapply step_preserves_inv|].
  destruct e as [i|i reply].
  - apply step_acquire_inv in Hstep as (p & m & k & Hl & _ & ->). simpl.
    pose proof (count_tasks_insert is_done _ _ _ (mkTask p m InFlight) Hl) as Hc.
    simpl in Hc. rewrite Hprog. do 3 f_equal. lia.
  - apply step_complete_inv in Hstep as (p & m & Hl & ->). simpl.
    pose proof (count_tasks_insert is_done _ _ _
      (mkTask p m (Done (_fetch (self_ d) (world_ d) p m reply).2)) Hl) as Hc.
    simpl in Hc.
    destruct (fetch_counters (self_ d) (world_ d) p m reply) as [Ht _].
    rewrite fetch_progress, Hprog, Ht
      by (rewrite (inv_total _ _ Hinv); apply lookup_lt_Some in Hl; lia).
    replace (count_tasks is_done
               (<[i:=mkTask p m (Done (_fetch (self_ d) (world_ d) p m reply).2)]>
                  (tasks d)))
      with (S (count_tasks is_done (tasks d))) by lia.
    rewrite seq_S, map_app, app_assoc. simpl.
    rewrite (inv_completed _ _ Hinv). do 3 f_equal. lia.
Qed.

(** X4: during a run of [start] the progress bar is printed once per
    candidate, with the completed count going up by one each time, from the
    count the object started with, and always against the same total,
    whatever the order of completion. *)
Theorem progress_advances_by_one
    (self : FuzzDriller) (w : World) (evs : list event)
    (self' : FuzzDriller) (w' : World) (r : Result unit) :
  start self w evs = Some (self', w', r) ->
  progress_events (console w')
  = progress_events (console w)
    ++ map (fun k => ((completed_tasks self + k)%nat, total_tasks self'))
           (seq 1 (total_tasks self')).
Proof.
  intros (d & Hexec & Hall & -> & -> & ->)%start_inv.
  set (d0 := _process_paths_dispatch _ _ _) in Hexec.
  assert (dispatch_inv (completed_tasks self) d0
          /\ progress_events (console (world_ d0))
             = progress_events (console w)
               ++ map (fun k => ((completed_tasks self + k)%nat,
                                 total_tasks (self_ d0)))
                      (seq 1 (count_tasks is_done (tasks d0)))) as Hinit.
  { split; [exact (dispatch_inv_initial (set_session OpenSession self) _ _)|].
    simpl. rewrite count_none.
    - simpl. rewrite !progress_events_app. simpl. by rewrite !app_nil_r.
    - eapply Forall_impl; [apply candidates_waiting|].
      intros t Ht. unfold is_done. by rewrite Ht. }
  destruct (exec_invariant _ (fun _ => True)
              (fun e x y _ => progress_step (completed_tasks self)
                                (progress_events (console w)) e x y)
              evs d0 d (Forall_any_event evs) Hinit Hexec)
    as [[Htot _ _ _] Hprog].
  rewrite forallb_count in Hprog by done. rewrite <- Htot in Hprog.
  simpl. rewrite <- Hprog.
  unfold _save_results. destruct (bool_decide _); simpl;
    rewrite progress_events_app; simpl; by rewrite app_nil_r.
Qed.

(** ** The request URL and slashes *)

Lemma rstrip_by_app (p : codepoint -> bool) (s l : pystr) :
  Forall (fun c => p c = true) l -> rstrip_by p (s ++ l) = rstrip_by p s.
Proof.
  intros Hl. induction s as [|c s IH]; simpl.
  - induction Hl as [|x l Hx _ IHl]; simpl; [done|]. by rewrite IHl, Hx.
  - by rewrite IH.
Qed.

Lemma lstrip_by_app (p : codepoint -> bool) (l s : pystr) :
  Forall (fun c => p c = true) l -> lstrip_by p (l ++ s) = lstrip_by p s.
Proof. induction 1 as [|x l Hx _ IH]; simpl; [done|]. by rewrite Hx. Qed.

Lemma replicate_slashes (k : nat) :
  Forall (fun c => char_in (py "/") c = true) (replicate k SLASH).
Proof. induction k; constructor; done. Qed.

(** X5: slashes at the end of the target and at the start of a path make
    no difference to the request URL. *)
Theorem request_url_ignores_extra_slashes
    (target wl out : pystr) (h c : JSON) (ms : list pystr) (codes : list Z)
    (path : pystr) (k j : nat) :
  request_url (__init__ (target ++ replicate k SLASH) wl out h c ms codes)
              (replicate j SLASH ++ path)
  = request_url (__init__ target wl out h c ms codes) path.
Proof.
  unfold request_url, __init__, rstrip, lstrip. cbn [base_url].
  by rewrite rstrip_by_app, lstrip_by_app by apply replicate_slashes.
Qed.

(** ** The default acceptance list *)

(** X6: with the default list [VALID_STATUS_CODES] a status code is
    accepted iff it is one of 200..299, 401 or 403. *)
Theorem default_codes_accept (code : Z) :
  status_in code VALID_STATUS_CODES = true
  <-> (200 <= code <= 299 \/ code = 401 \/ code = 403)%Z.
Proof.
  rewrite status_in_spec. unfold VALID_STATUS_CODES.
  rewrite elem_of_app, list_elem_of_In, in_map_iff. split.
  - intros [(n & <- & Hn%in_seq)|Hc].
    + left. lia.
    + right. apply elem_of_cons in Hc as [->|Hc]; [by left|].
      apply elem_of_cons in Hc as [->|Hc]; [by right|].
      by apply elem_of_nil in Hc.
  - intros [Hr|[-> | ->]].
    + left. exists (Z.to_nat code). split; [lia|]. apply in_seq. lia.
    + right. apply elem_of_cons. by left.
    + right. apply elem_of_cons. right. apply elem_of_cons. by left.
Qed.

(** ** The candidate paths *)

Lemma lstrip_by_id (p : codepoint -> bool) (s : pystr) :
  (forall c, head s = Some c -> p c = false) -> lstrip_by p s = s.
Proof. destruct s as [|c s]; simpl; [done|]. intros H. by rewrite (H c). Qed.

Lemma rstrip_by_id (p : codepoint -> bool) (s : pystr) :
  (forall c, last s = Some c -> p c = false) -> rstrip_by p s = s.
Proof.
  induction s as [|c s IH]; simpl; [done|]. intros H.
  destruct s as [|c' s].
  - simpl. by rewrite (H c).
  - rewrite IH; [done|]. intros x Hx. apply H. by rewrite last_cons_cons.
Qed.

Lemma strip_by_idemp (p : codepoint -> bool) (s : pystr) :
  strip_by p (strip_by p s) = strip_by p s.
Proof.
  destruct (strip_by_spec p s) as (pre & post & _ & _ & _ & Hhead & Hlast).
  unfold strip_by at 1. by rewrite lstrip_by_id, rstrip_by_id.
Qed.

Lemma strip_by_elem (p : codepoint -> bool) (s : pystr) (c : codepoint) :
  c ∈ strip_by p s -> c ∈ s.
Proof.
  destruct (strip_by_spec p s) as (pre & post & Hs & _).
  intros Hc. rewrite Hs, !elem_of_app. auto.
Qed.

Lemma split_lines_shape (s l : pystr) :
  l ∈ split_lines s ->
  exists body,
    (LF ∉ body) /\ (l = body ++ [LF] \/ l = body)
    /\ forall c, c ∈ body -> c ∈ s.
Proof.
  revert l. induction s as [|c s IH]; intros l; simpl.
  - by intros ?%elem_of_nil.
  - destruct (N.eqb_spec c LF) as [->|Hc].
    + intros [->|Hl]%elem_of_cons.
      * exists []. split; [apply not_elem_of_nil|]. split; [by left|].
        by intros c ?%elem_of_nil.
      * destruct (IH _ Hl) as (body & Hb & Hshape & Hsub).
        exists body. repeat split; try done. intros x Hx. right. auto.
    + destruct (split_lines s) as [|l0 ls] eqn:Hsl.
      * intros ->%list_elem_of_singleton. exists [c].
        split; [by apply not_elem_of_cons; split; [|apply not_elem_of_nil]|].
        split; [by right|]. intros x ->%list_elem_of_singleton. by left.
      * intros [->|Hl]%elem_of_cons.
        -- destruct (IH l0) as (body & Hb & Hshape & Hsub); [by left|].
           exists (c :: body). split; [by apply not_elem_of_cons|].
           split; [by destruct Hshape as [-> | ->]; [left|right]|].
           intros x [->|Hx]%elem_of_cons; [by left|right; auto].
        -- destruct (IH l) as (body & Hb & Hshape & Hsub); [by right|].
           exists body. repeat split; try done. intros x Hx. right. auto.
Qed.

Lemma only_last_char (A B body : pystr) (x : codepoint) :
  A ++ x :: B = body ++ [x] -> x ∉ body -> B = [].
Proof.
  intros Heq Hx. destruct B as [|b B] using rev_ind; [done|].
  clear IHB. exfalso. apply Hx.
  change (A ++ x :: B ++ [b]) with (A ++ (x :: B) ++ [b]) in Heq.
  rewrite app_assoc in Heq. apply app_inj_tail in Heq as [<- _].
  rewrite elem_of_app. right. by left.
Qed.

Lemma strip_ws_line_no_lf (text line : pystr) :
  line ∈ split_lines text -> LF ∉ strip_ws line.
Proof.
  intros (body & Hb & Hshape & _)%split_lines_shape Hin.
  destruct (strip_by_spec isspace line) as (pre & post & Hl & _ & _ & _ & Hlast).
  fold (strip_ws line) in *.
  destruct Hshape as [Hline|Hline].
  - apply list_elem_of_split in Hin as (s1 & s2 & Hs).
    rewrite Hs in Hl. rewrite Hline in Hl.
    assert (s2 ++ post = []) as Hnil.
    { apply (only_last_char (pre ++ s1) _ body LF); [|done].
      rewrite Hl. by rewrite <- !app_assoc. }
    apply app_eq_nil in Hnil as [-> _].
    specialize (Hlast LF). rewrite Hs, last_snoc in Hlast.
    by specialize (Hlast eq_refl).
  - apply Hb. rewrite <- Hline. by eapply strip_by_elem.
Qed.

Lemma common_paths_clean :
  Forall (fun p => p <> [] /\ strip_ws p = p /\ LF ∉ p) COMMON_PATHS.
Proof.
  repeat constructor; try done;
    by intros Hin%list_elem_of_In; vm_compute in Hin; intuition.
Qed.

Lemma candidate_paths_clean_lf (self : FuzzDriller) (w : World) (p : pystr) :
  p ∈ _load_wordlist self w -> LF ∉ p.
Proof.
  unfold _load_wordlist.
  rewrite elem_of_elements, elem_of_list_to_set, elem_of_app.
  intros [Hfile|Hc].
  - destruct (files w !! wordlist self) as [text|];
      [|by apply elem_of_nil in Hfile].
    apply from_file_elem in Hfile as (line & Hline & -> & Hne).
    by eapply strip_ws_line_no_lf.
  - pose proof common_paths_clean as Hclean.
    rewrite Forall_forall in Hclean. by apply Hclean.
Qed.

(** X7: every candidate path is non-empty, has no white space at either
    end and contains no line feed; the five builtin paths are always among
    the candidates, so there are at least five, and at most five more than
    the word list has lines. *)
Theorem candidate_paths_are_clean (self : FuzzDriller) (w : World) :
  (forall p, p ∈ _load_wordlist self w ->
             p <> [] /\ strip_ws p = p /\ LF ∉ p)
  /\ (forall p, p ∈ COMMON_PATHS -> p ∈ _load_wordlist self w)
  /\ (5 <= length (_load_wordlist self w))%nat
  /\ (length (_load_wordlist self w)
      <= 5 + match files w !! wordlist self with
             | Some text => length (file_lines text)
             | None => 0
             end)%nat.
Proof.
  assert (forall p, p ∈ COMMON_PATHS -> p ∈ _load_wordlist self w) as Hcommon.
  { intros p Hp. unfold _load_wordlist.
    rewrite elem_of_elements, elem_of_list_to_set, elem_of_app. by right. }
  split; [|split; [done|split]].
  - intros p. unfold _load_wordlist.
    rewrite elem_of_elements, elem_of_list_to_set, elem_of_app.
    intros [Hfile|Hc].
    + destruct (files w !! wordlist self) as [text|];
        [|by apply elem_of_nil in Hfile].
      apply from_file_elem in Hfile as (line & Hline & -> & Hne).
      split; [done|]. split; [apply strip_by_idemp|].
      by eapply strip_ws_line_no_lf.
    + pose proof common_paths_clean as Hclean.
      rewrite Forall_forall in Hclean. by apply Hclean.
  - change 5%nat with (length COMMON_PATHS). apply submseteq_length.
    apply NoDup_submseteq; [apply common_paths_nodup | done].
  - unfold _load_wordlist.
    set (from_file := match files w !! wordlist self with
                      | Some text => _
                      | None => []
                      end).
    assert (length (elements (list_to_set (from_file ++ COMMON_PATHS)
                                : gset pystr))
            <= length (from_file ++ COMMON_PATHS))%nat as Hle.
    { apply submseteq_length, NoDup_submseteq; [apply NoDup_elements|].
      intros p. by rewrite elem_of_elements, elem_of_list_to_set. }
    rewrite length_app in Hle. change (length COMMON_PATHS) with 5%nat in Hle.
    etrans; [exact Hle|]. subst from_file.
    destruct (files w !! wordlist self) as [text|]; simpl; [|lia].
    rewrite length_map.
    pose proof (filter_length_le (fun line => truthy (strip_ws line))
                  (file_lines text)). lia.
Qed.

(** ** C5: the candidate paths, from the text of the file *)

Lemma universal_newlines_id (s : pystr) :
  CR ∉ s -> universal_newlines s = s.
Proof.
  induction s as [|c s IH]; [done|].
  intros [Hc Hs]%not_elem_of_cons. simpl.
  destruct (N.eqb_spec c CR) as [->|_]; [done|]. by rewrite IH.
Qed.

(** The lines of a text: the pieces that end in a line feed, and what
    follows the last line feed if anything does. *)
Lemma split_lines_decompose (s : pystr) :
  exists bodies tail,
    s = flat_map (fun b => b ++ [LF]) bodies ++ tail
    /\ Forall (fun b => LF ∉ b) bodies
    /\ (LF ∉ tail)
    /\ split_lines s
       = map (fun b => b ++ [LF]) bodies
         ++ match tail with [] => [] | _ :: _ => [tail] end.
Proof.
  induction s as [|c s (bodies & tail & Hs & Hb & Ht & Hl)]; simpl.
  - exists [], []. repeat split; [constructor | apply not_elem_of_nil].
  - destruct (N.eqb_spec c LF) as [->|Hc].
    + exists ([] :: bodies), tail. simpl. rewrite Hl, <- Hs.
      repeat split; [|done]. constructor; [apply not_elem_of_nil | done].
    + rewrite Hl. destruct bodies as [|b bodies]; simpl in *.
      * exists [], (c :: tail). simpl. rewrite Hs.
        repeat split; [constructor | by apply not_elem_of_cons |].
        by destruct tail.
      * apply Forall_cons in Hb as [Hb Hbs].
        exists ((c :: b) :: bodies), tail. simpl. rewrite Hs.
        repeat split; [|done]. constructor; [by apply not_elem_of_cons | done].
Qed.

Lemma lstrip_by_app_r (p : codepoint -> bool) (s t : pystr) :
  lstrip_by p (s ++ t)
  = match lstrip_by p s with
    | [] => lstrip_by p t
    | r => r ++ t
    end.
Proof.
  induction s as [|c s IH]; simpl; [by destruct (lstrip_by p t)|].
  by destruct (p c).
Qed.

Lemma strip_by_app_ws (p : codepoint -> bool) (s t : pystr) :
  Forall (fun c => p c = true) t -> strip_by p (s ++ t) = strip_by p s.
Proof.
  intros Ht. unfold strip_by. rewrite lstrip_by_app_r.
  destruct (lstrip_by p s) as [|c r] eqn:Hs.
  - rewrite <- (app_nil_r t), lstrip_by_app by done. done.
  - by rewrite rstrip_by_app.
Qed.

(** C5: the candidate paths are without duplicates and are exactly the
    five builtin paths together with the non-blank lines of the word list,
    each stripped of the white space around it; with no word list file, or
    an empty one, they are the five builtin paths, and [total_tasks] is
    5 x |methods|.  The lines of the file are the pieces of its text that
    end in a line feed, and what follows the last line feed, once [\r\n]
    and [\r] have been read as a line feed; so a file that holds the lines
    [lines], each followed by a line feed, yields the non-blank stripped
    members of [lines] and the builtin paths, and nothing else. *)
Theorem load_wordlist_paths (self : FuzzDriller) (w : World) :
  NoDup (_load_wordlist self w)
  /\ (forall p : pystr,
        p ∈ _load_wordlist self w
        <-> p ∈ COMMON_PATHS
            \/ exists text line,
                 files w !! wordlist self = Some text
                 /\ line ∈ file_lines text
                 /\ p = strip_ws line
                 /\ p <> [])
  /\ (forall line : pystr,
        exists pre post,
          line = pre ++ strip_ws line ++ post
          /\ Forall (fun c => isspace c = true) pre
          /\ Forall (fun c => isspace c = true) post
          /\ (forall c, head (strip_ws line) = Some c -> isspace c = false)
          /\ (forall c, last (strip_ws line) = Some c -> isspace c = false))
  /\ COMMON_PATHS
     = [py "/admin"; py "/login"; py "/dashboard"; py "/user"; py "/api"]
  /\ (files w !! wordlist self = None
      \/ files w !! wordlist self = Some ([] : pystr) ->
      _load_wordlist self w ≡ₚ COMMON_PATHS
      /\ length (_load_wordlist self w) = 5%nat
      /\ forall w1,
           total_tasks
             (self_ (_process_paths_dispatch self w1 (_load_wordlist self w)))
           = (5 * length (methods self))%nat)
  /\ (forall text : pystr,
        exists bodies tail,
          universal_newlines text
          = flat_map (fun b => b ++ [LF]) bodies ++ tail
          /\ Forall (fun b => LF ∉ b) bodies
          /\ (LF ∉ tail)
          /\ file_lines text
             = map (fun b => b ++ [LF]) bodies
               ++ match tail with [] => [] | _ :: _ => [tail] end)
  /\ (universal_newlines [] = []
      /\ (forall c s, c <> CR ->
            universal_newlines (c :: s) = c :: universal_newlines s)
      /\ (forall s,
            universal_newlines (CR :: LF :: s) = LF :: universal_newlines s)
      /\ (forall s, head s <> Some LF ->
            universal_newlines (CR :: s) = LF :: universal_newlines s))
  /\ (forall lines : list pystr,
        Forall (fun l => (LF ∉ l) /\ (CR ∉ l)) lines ->
        files w !! wordlist self
        = Some (flat_map (fun l => l ++ [LF]) lines) ->
        file_lines (flat_map (fun l => l ++ [LF]) lines)
        = map (fun l => l ++ [LF]) lines
        /\ forall p : pystr,
             p ∈ _load_wordlist self w
             <-> p ∈ COMMON_PATHS
                 \/ exists l, l ∈ lines /\ p = strip_ws l /\ p <> []).
Proof.
  destruct (load_wordlist_general self w) as (Hnd & Hmem & Hstrip & Hc & Hnone).
  split; [done|]. split; [done|]. split; [done|]. split; [done|].
  split; [done|]. split; [|split].
  - intros text. apply split_lines_decompose.
  - split; [done|]. split; [|split].
    + intros c s Hne. simpl. by destruct (N.eqb_spec c CR).
    + done.
    + intros s Hs. simpl. destruct s as [|d s]; [done|].
      destruct (N.eqb_spec d LF) as [->|_]; [by destruct Hs | done].
  - intros lines Hlines Hfile.
    assert (file_lines (flat_map (fun l => l ++ [LF]) lines)
            = map (fun l => l ++ [LF]) lines) as Hread.
    { unfold file_lines. rewrite universal_newlines_id.
      - apply (split_lines_report lines).
        eapply Forall_impl; [exact Hlines|]. by intros l [? _].
      - intros Hin%list_elem_of_In. apply in_flat_map in Hin as (l & Hl & Hin).
        rewrite Forall_forall in Hlines.
        destruct (Hlines l (proj2 (list_elem_of_In _ _) Hl)) as [_ Hcr].
        apply list_elem_of_In, elem_of_app in Hin as [Hin|Hin]; [done|].
        by apply list_elem_of_singleton in Hin. }
    split; [exact Hread|]. intros p. rewrite Hmem. split.
    + intros [?|(text & line & Htext & Hline & -> & Hne)]; [by left|right].
      pose proof (eq_trans (eq_sym Htext) Hfile) as Heq.
      injection Heq as ->. rewrite Hread in Hline.
      apply list_elem_of_In, in_map_iff in Hline as (l & <- & Hl).
      exists l. split; [by apply list_elem_of_In|].
      unfold strip_ws in *.
      rewrite strip_by_app_ws in * by (by repeat constructor). done.
    + intros [?|(l & Hl & -> & Hne)]; [by left|right].
      exists (flat_map (fun l => l ++ [LF]) lines), (l ++ [LF]).
      split; [done|]. split.
      * rewrite Hread. apply list_elem_of_In, in_map_iff. exists l.
        split; [done | by apply list_elem_of_In].
      * unfold strip_ws in *.
        rewrite strip_by_app_ws by (by repeat constructor). done.
Qed.

(** The theorem at a word list with padded and blank lines. *)
Lemma load_wordlist_sample :
  files sample_wordlist_world !! wordlist sample_fuzzer
  = Some (flat_map (fun l => l ++ [LF]) sample_wordlist_lines)
  /\ Forall (fun l => (LF ∉ l) /\ (CR ∉ l)) sample_wordlist_lines
  /\ file_lines (flat_map (fun l => l ++ [LF]) sample_wordlist_lines)
     = map (fun l => l ++ [LF]) sample_wordlist_lines
  /\ (forall p : pystr,
        p ∈ _load_wordlist sample_fuzzer sample_wordlist_world
        <-> p ∈ COMMON_PATHS
            \/ exists l, l ∈ sample_wordlist_lines
                         /\ p = strip_ws l /\ p <> [])
  /\ py "admin" ∈ _load_wordlist sample_fuzzer sample_wordlist_world
  /\ py "/x y" ∈ _load_wordlist sample_fuzzer sample_wordlist_world
  /\ (py " admin " ∉ _load_wordlist sample_fuzzer sample_wordlist_world)
  /\ length (_load_wordlist sample_fuzzer sample_wordlist_world) = 8%nat.
Proof.
  assert (files sample_wordlist_world !! wordlist sample_fuzzer
          = Some (flat_map (fun l => l ++ [LF]) sample_wordlist_lines))
    as Hfile by apply lookup_insert_eq.
  assert (Forall (fun l => (LF ∉ l) /\ (CR ∉ l)) sample_wordlist_lines) as Hlines.
  { apply (bool_decide_unpack _). by vm_compute. }
  destruct (load_wordlist_paths sample_fuzzer sample_wordlist_world)
    as (_ & _ & _ & _ & _ & _ & _ & Hfrom).
  destruct (Hfrom _ Hlines Hfile) as [Hread Hmem].
  split; [exact Hfile|]. split; [exact Hlines|]. split; [exact Hread|].
  split; [exact Hmem|]. split; [|split; [|split]].
  - apply Hmem. right. exists (py " admin ").
    split; [by left|]. split; [by vm_compute | discriminate].
  - apply Hmem. right. exists (py "/x y").
    split; [by right; right; left|]. split; [by vm_compute | discriminate].
  - intros [Hc|(l & Hl & Heq & _)]%Hmem.
    + apply list_elem_of_In in Hc. vm_compute in Hc.
      repeat destruct Hc as [Hc|Hc]; try discriminate Hc. done.
    + pose proof (f_equal head Heq) as Hhead.
      destruct (strip_by_spec isspace l) as (_ & _ & _ & _ & _ & Hnw & _).
      fold (strip_ws l) in Hnw. rewrite <- Hhead in Hnw.
      by specialize (Hnw 32 eq_refl).
  - by vm_compute.
Defined.

(** ** The lines of the report *)

Lemma exec_paths (evs : list event) (d d' : Dispatch) :
  exec evs d = Some d' -> t_path <$> tasks d' = t_path <$> tasks d.
Proof.
  intros Hexec.
  apply (exec_invariant (fun x => t_path <$> tasks x = t_path <$> tasks d)
           (fun _ => True)) with (evs := evs) (d := d);
    [|apply Forall_any_event|done|done].
  intros e d1 d2 _ Hsame Hstep.
  assert (forall i p m st st',
             tasks d1 !! i = Some (mkTask p m st) ->
             t_path <$> <[i := mkTask p m st']> (tasks d1)
             = t_path <$> tasks d1) as Hins.
  { intros i p m st st' Hl. rewrite list_fmap_insert. simpl.
    apply list_insert_id. by rewrite list_lookup_fmap, Hl. }
  destruct e as [i|i reply].
  - apply step_acquire_inv in Hstep as (p & m & k & Hl & _ & ->). simpl.
    by rewrite (Hins _ _ _ _ _ Hl).
  - apply step_complete_inv in Hstep as (p & m & Hl & ->). simpl.
    by rewrite (Hins _ _ _ _ _ Hl).
Qed.

Lemma candidates_paths (paths methods : list pystr) (p : pystr) :
  p ∈ t_path <$> candidates paths methods -> p ∈ paths.
Proof.
  unfold candidates. induction paths as [|q paths IH]; simpl.
  - by intros ?%elem_of_nil.
  - rewrite fmap_app, elem_of_app. intros [Hq|Hp]; [|right; auto].
    apply list_elem_of_fmap in Hq as (t & -> & Ht).
    apply list_elem_of_fmap in Ht as (m & -> & _). by left.
Qed.

Lemma request_url_no_lf (target wl out : pystr) (h c : JSON)
    (ms : list pystr) (codes : list Z) (p : pystr) :
  LF ∉ target -> LF ∉ p ->
  LF ∉ request_url (__init__ target wl out h c ms codes) p.
Proof.
  intros Ht Hp. unfold request_url, __init__, rstrip, lstrip. cbn [base_url].
  destruct (rstrip_by_spec (char_in (py "/")) target) as (post & Heq & _).
  destruct (lstrip_by_spec (char_in (py "/")) p) as (pre & Heq' & _).
  rewrite !elem_of_app. intros [Hin|[Hin|Hin]].
  - apply Ht. rewrite Heq, elem_of_app. by left.
  - by apply list_elem_of_singleton in Hin.
  - apply Hp. rewrite Heq', elem_of_app. by right.
Qed.

(** X8: in a run of [start] on a target without a line feed, every
    discovered URL is the request URL of a candidate path and contains no
    line feed, so that the report, when one is written, splits at its line
    feeds into exactly the discovered URLs, in ascending order. *)
Theorem report_lines_are_urls
    (target wl out : pystr) (h c : JSON) (ms : list pystr) (codes : list Z)
    (w : World) (evs : list event) (self' : FuzzDriller) (w' : World)
    (r : Result unit) :
  LF ∉ target ->
  start (__init__ target wl out h c ms codes) w evs = Some (self', w', r) ->
  (forall u, u ∈ found_endpoints self' ->
     (LF ∉ u)
     /\ exists p, p ∈ _load_wordlist (__init__ target wl out h c ms codes) w
                  /\ u = request_url (__init__ target wl out h c ms codes) p)
  /\ (found_endpoints self' <> ∅ ->
      exists urls,
        files w' !! out = Some (report_text urls)
        /\ split_lines (report_text urls) = map (fun u => u ++ [LF]) urls
        /\ StronglySorted str_lt urls
        /\ forall u, u ∈ urls <-> u ∈ found_endpoints self').
Proof.
  intros Htarget (d & Hexec & Hall & -> & -> & ->)%start_inv.
  set (fuzzer := __init__ target wl out h c ms codes) in *.
  assert (forall u, u ∈ found_endpoints (self_ d) ->
            (LF ∉ u)
            /\ exists p, p ∈ _load_wordlist fuzzer w
                         /\ u = request_url fuzzer p) as Hurls.
  { intros u Hu. apply (exec_found _ _ _ _ _ Hexec u) in Hu
      as [Hu|(i & p & m & code & Hi & _ & ->)];
      [by apply not_elem_of_empty in Hu|].
    assert (p ∈ _load_wordlist fuzzer w) as Hp.
    { assert (p ∈ t_path <$> tasks d) as Hd.
      { apply list_elem_of_fmap. exists (mkTask p m (Done (Ok (Some code)))).
        split; [done|]. by eapply list_elem_of_lookup_2. }
      rewrite (exec_paths _ _ _ Hexec) in Hd.
      exact (candidates_paths _ _ _ Hd). }
    split; [|by exists p].
    apply request_url_no_lf; [done|].
    by apply (candidate_paths_clean_lf fuzzer w). }
  split; [exact Hurls|]. intros Hne.
  destruct (sorted_spec (elements (found_endpoints (self_ d))))
    as (Hsorted & _ & Hmem); [apply NoDup_elements|].
  exists (sorted (elements (found_endpoints (self_ d)))).
  split; [|split; [|split; [done|]]].
  - rewrite save_results_files, bool_decide_eq_false_2 by done.
    destruct (exec_config _ _ _ Hexec) as [(_ & _ & -> & _) _]. simpl.
    by rewrite lookup_insert_eq.
  - apply split_lines_report, Forall_forall. intros u Hu.
    apply Hurls. by rewrite <- elem_of_elements, <- Hmem.
  - intros u. by rewrite Hmem, elem_of_elements.
Qed.

(** * Further properties of the content fetcher *)

Lemma path_head_slash (a b : pystr) :
  path_head (a ++ SLASH :: b) = a ++ SLASH :: path_head b.
Proof.
  induction a as [|c a IH]; simpl.
  - by rewrite orb_true_r.
  - rewrite IH. unfold char_in. rewrite existsb_app. simpl.
    by rewrite orb_true_r.
Qed.

Lemma path_head_no_slash (b : pystr) : SLASH ∉ b -> path_head b = [].
Proof.
  destruct b as [|c b]; [done|]. intros [Hc Hb]%not_elem_of_cons. simpl.
  assert (char_in b SLASH = false) as ->.
  { unfold char_in. apply not_true_is_false. intros Hex.
    apply existsb_exists in Hex as (x & Hx & Heq%N.eqb_eq).
    apply Hb. rewrite Heq. by apply list_elem_of_In. }
  by destruct (N.eqb_spec c SLASH) as [->|].
Qed.

Lemma dirname_downloaded (b : pystr) :
  SLASH ∉ b ->
  dirname (py "downloaded_pages/" ++ b) = py "downloaded_pages".
Proof.
  intros Hb. unfold dirname.
  change (py "downloaded_pages/" ++ b)
    with (py "downloaded_pages" ++ SLASH :: b).
  by rewrite path_head_slash, (path_head_no_slash b Hb).
Qed.

Lemma path_join_downloaded (b : pystr) :
  head b <> Some SLASH ->
  path_join (py "downloaded_pages") b = py "downloaded_pages/" ++ b.
Proof.
  intros Hb. unfold path_join.
  assert (startswith (py "/") b = false) as ->; [|done].
  destruct b as [|c b]; [done|].
  change (py "/") with [SLASH]. cbn [startswith].
  destruct (N.eqb_spec SLASH c) as [<-|_]; [by destruct Hb | done].
Qed.

Lemma extension_known (ct ext : pystr) :
  _get_file_extension ct = Some ext ->
  (ext = py "html" \/ ext = py "js" \/ ext = py "php") /\ SLASH ∉ ext.
Proof.
  unfold _get_file_extension. intros Hext.
  repeat match type of Hext with
         | (if ?b then _ else _) = _ => destruct b
         end; simplify_eq; (split; [auto|]);
    by intros Hin%list_elem_of_In; vm_compute in Hin; intuition.
Qed.

Section FetcherProperties.
Context {RT : PyRuntime}.

Lemma sanitize_no_slash (self : FuzzDriller) (url : pystr) :
  SLASH ∉ _sanitize_filename self url.
Proof.
  unfold _sanitize_filename, re_sub_class.
  intros Hin%list_elem_of_In. apply in_flat_map in Hin as (x & _ & Hx).
  destruct (unsafe_char x) eqn:Hu.
  - by destruct Hx as [[=]|[]].
  - destruct Hx as [->|[]]. by vm_compute in Hu.
Qed.

Lemma file_path_shape (self : FuzzDriller) (url ext : pystr) :
  SLASH ∉ ext ->
  path_join (py "downloaded_pages")
            (_sanitize_filename self url ++ py "." ++ ext)
  = py "downloaded_pages/" ++ _sanitize_filename self url ++ py "." ++ ext
  /\ SLASH ∉ _sanitize_filename self url ++ py "." ++ ext.
Proof.
  intros Hext.
  assert (SLASH ∉ _sanitize_filename self url ++ py "." ++ ext) as Hno.
  { rewrite !elem_of_app. intros [Hin|[Hin|Hin]]; [|by apply list_elem_of_singleton in Hin|done].
    by apply (sanitize_no_slash self url). }
  split; [|done]. apply path_join_downloaded.
  destruct (_ ++ _) as [|c b]; [done|].
  intros [= ->]. apply Hno. by left.
Qed.

(** The files after one download: as before, or with one file more or
    replaced. *)
Lemma download_content_files (self : FuzzDriller) (w : World) (url : pystr)
    (reply : Reply) :
  files (download_content self w url reply) = files w
  \/ exists response ext body,
       reply = Responded response
       /\ session self = OpenSession
       /\ status response ∈ valid_status_codes self
       /\ _get_file_extension (default [] (content_type response)) = Some ext
       /\ files w !! py "downloaded_pages" = None
       /\ files (download_content self w url reply)
          = <[py "downloaded_pages/" ++ _sanitize_filename self url
              ++ py "." ++ ext := body]> (files w).
Proof.
  unfold download_content.
  destruct (session self) eqn:Hs; [by left| |by left].
  destruct reply as [response|]; [|by left].
  destruct (status_in (status response) (valid_status_codes self)) eqn:Hin;
    [|by left].
  apply status_in_spec in Hin.
  destruct (_get_file_extension (default [] (content_type response)))
    as [ext|] eqn:Hext; [|by left].
  destruct (extension_known _ _ Hext) as [_ Hno].
  destruct (file_path_shape self url ext Hno) as [-> Hnoslash].
  rewrite (dirname_downloaded _ Hnoslash).
  destruct (files w !! py "downloaded_pages") eqn:Hdir; [by left|].
  right. exists response, ext.
  destruct (text response) as [body|]; simpl.
  - exists body. repeat split; try done. by rewrite insert_insert_eq.
  - exists []. by repeat split.
Qed.

(** X9: whatever [download_content] writes, it writes to
    [downloaded_pages/<sanitized name>.<ext>] with [ext] one of html, js,
    php, a path without any further slash: a download cannot leave the
    directory, and it touches at most that one file. *)
Theorem download_stays_in_directory
    (self : FuzzDriller) (w : World) (url : pystr) (reply : Reply)
    (path : pystr) :
  files (download_content self w url reply) !! path <> files w !! path ->
  exists ext,
    path = py "downloaded_pages/" ++ _sanitize_filename self url
           ++ py "." ++ ext
    /\ (ext = py "html" \/ ext = py "js" \/ ext = py "php")
    /\ (SLASH ∉ _sanitize_filename self url ++ py "." ++ ext)
    /\ dirname path = py "downloaded_pages".
Proof.
  intros Hdiff.
  destruct (download_content_files self w url reply)
    as [Hsame|(response & ext & body & _ & _ & _ & Hext & _ & Hfiles)];
    [by rewrite Hsame in Hdiff|].
  destruct (extension_known _ _ Hext) as [Hknown Hno].
  destruct (file_path_shape self url ext Hno) as [_ Hnoslash].
  exists ext. rewrite Hfiles in Hdiff.
  destruct (decide (py "downloaded_pages/" ++ _sanitize_filename self url
                    ++ py "." ++ ext = path)) as [<-|Hne].
  - repeat split; try done. by apply dirname_downloaded.
  - by rewrite lookup_insert_ne in Hdiff.
Qed.

Lemma download_content_frame (self : FuzzDriller) (w : World) (url : pystr)
    (reply : Reply) (path : pystr) :
  startswith (py "downloaded_pages/") path = false ->
  files (download_content self w url reply) !! path = files w !! path.
Proof.
  intros Hpath.
  destruct (download_content_files self w url reply)
    as [->|(response & ext & body & _ & _ & _ & _ & _ & ->)]; [done|].
  apply lookup_insert_ne. intros <-.
  by rewrite startswith_app in Hpath.
Qed.

(** X10: the download phase leaves every file outside [downloaded_pages/]
    as it was, the report included. *)
Theorem download_phase_keeps_other_files
    (self : FuzzDriller) (w : World) (net : pystr -> Reply) (path : pystr) :
  startswith (py "downloaded_pages/") path = false ->
  files (download_discovered_endpoints self w net) !! path = files w !! path.
Proof.
  intros Hpath. unfold download_discovered_endpoints. simpl.
  change (files w !! path) with (files (emit (LogInfo MsgDownloading) w) !! path).
  generalize (emit (LogInfo MsgDownloading) w).
  induction (download_tasks self) as [|url urls IH]; intros w1; simpl; [done|].
  by rewrite IH, download_content_frame.
Qed.

Lemma download_all_fail (self : FuzzDriller) (net : pystr -> Reply)
    (urls : list pystr) (w : World) :
  session self <> OpenSession ->
  foldl (fun w url => download_content self w url (net url)) w urls
  = {| files := files w;
       console := console w
                  ++ map (fun u => LogError (MsgDownloadFailed u)) urls |}.
Proof.
  intros Hs. revert w. induction urls as [|url urls IH]; intros w; simpl.
  - rewrite app_nil_r. by destruct w.
  - rewrite IH. unfold download_content.
    destruct (session self); [| done |]; simpl; by rewrite <- app_assoc.
Qed.

(** X11: without an open session every download fails: no file changes
    and one error is logged per discovered URL.  A session is open only
    inside [start], which leaves it closed, so the download phase run on
    the object of a finished run persists nothing. *)
Theorem download_without_session_persists_nothing
    (self : FuzzDriller) (w : World) (net : pystr -> Reply) :
  (session self <> OpenSession ->
     files (download_discovered_endpoints self w net) = files w
     /\ console (download_discovered_endpoints self w net)
        = console w ++ [LogInfo MsgDownloading]
          ++ map (fun u => LogError (MsgDownloadFailed u)) (download_tasks self)
          ++ [LogInfo MsgDownloadCompleted])
  /\ (forall evs self' w' r,
        start self w evs = Some (self', w', r) ->
        session self' = ClosedSession
        /\ files (download_discovered_endpoints self' w' net) = files w').
Proof.
  assert (forall s w0, session s <> OpenSession ->
            files (download_discovered_endpoints s w0 net) = files w0
            /\ console (download_discovered_endpoints s w0 net)
               = console w0 ++ [LogInfo MsgDownloading]
                 ++ map (fun u => LogError (MsgDownloadFailed u))
                        (download_tasks s)
                 ++ [LogInfo MsgDownloadCompleted]) as Hfail.
  { intros s w0 Hs. unfold download_discovered_endpoints.
    rewrite download_all_fail by done. simpl.
    split; [done|]. by rewrite <- !app_assoc. }
  split; [apply Hfail|].
  intros evs self' w' r (d & _ & _ & -> & _)%start_inv.
  split; [done|]. by apply Hfail.
Qed.

End FetcherProperties.

(** * Further properties of the menu *)

Lemma bind_inv {A B} (m : IO A) (k : A -> IO B) (t t' : Term) (r : Result B) :
  (m ≫= k) t = Some (t', r) ->
  (exists e, m t = Some (t', Raise e) /\ r = Raise e)
  \/ (exists a t1, m t = Some (t1, Ok a) /\ k a t1 = Some (t', r)).
Proof.
  unfold mbind, IO_bind. destruct (m t) as [[t1 [a|e]]|]; [| |done].
  - intros Hk. right. by exists a, t1.
  - intros [= <- <-]. left. by exists e.
Qed.

Lemma bind_ok_inv {A B} (m : IO A) (k : A -> IO B) (t t' : Term) (b : B) :
  (m ≫= k) t = Some (t', Ok b) ->
  exists a t1, m t = Some (t1, Ok a) /\ k a t1 = Some (t', Ok b).
Proof. intros [(e & _ & [=])|H]%bind_inv. done. Qed.

Lemma reads_refl (t : Term) : reads t t.
Proof. by split. Qed.

Lemma reads_trans (a b c : Term) : reads a b -> reads b c -> reads a c.
Proof. intros [? ?] [? ?]. split; by etrans. Qed.

Lemma keeps_files_refl (t : Term) : keeps_files t t.
Proof. split; [apply reads_refl | done]. Qed.

Lemma keeps_files_trans (a b c : Term) :
  keeps_files a b -> keeps_files b c -> keeps_files a c.
Proof.
  intros [? ?] [? ?]. split; [by eapply reads_trans | congruence].
Qed.

Lemma frame_bind {A B} (R : Term -> Term -> Prop) (m : IO A) (k : A -> IO B) :
  (forall a b c, R a b -> R b c -> R a c) ->
  frame R m -> (forall a, frame R (k a)) -> frame R (m ≫= k).
Proof.
  intros Htrans Hm Hk t t' r [(e & Hr & _)|(a & t1 & Hr & Hkr)]%bind_inv.
  - by eapply Hm.
  - eapply Htrans; [by eapply Hm | by eapply Hk].
Qed.

Lemma frame_weaken {A} (m : IO A) : frame keeps_files m -> frame reads m.
Proof. intros Hm t t' r Hr. by destruct (Hm t t' r Hr). Qed.

Lemma frame_ret {A} (a : A) : frame keeps_files (mret a).
Proof. intros t t' r [= <- _]. apply keeps_files_refl. Qed.

Lemma frame_raise {A} (e : exn) : frame keeps_files (@raise A e).
Proof. intros t t' r [= <- _]. apply keeps_files_refl. Qed.

Lemma frame_print (m : message) : frame keeps_files (print m).
Proof. intros t t' r [= <- _]. by repeat split. Qed.

Lemma frame_input : frame keeps_files input.
Proof.
  intros t t' r. unfold input. destruct (stdin t) as [|line rest] eqn:Hin.
  - intros [= <- _]. apply keeps_files_refl.
  - intros [= <- _]. repeat split; simpl; [|done..].
    rewrite Hin. by apply suffix_cons_r.
Qed.

Lemma frame_of_option {A} (e : exn) (o : option A) :
  frame keeps_files (of_option e o).
Proof. destruct o; [apply frame_ret | apply frame_raise]. Qed.

Lemma frame_map_io {A B} (f : A -> IO B) (xs : list A) :
  (forall x, frame keeps_files (f x)) -> frame keeps_files (map_io f xs).
Proof.
  intros Hf. induction xs as [|x xs IH]; simpl; [apply frame_ret|].
  apply frame_bind; [apply keeps_files_trans | apply Hf | intros y].
  apply frame_bind; [apply keeps_files_trans | apply IH | intros ys].
  apply frame_ret.
Qed.

Section MenuProperties.
Context {RT : PyRuntime}.

Ltac frame_step :=
  first [ apply frame_ret | apply frame_raise | apply frame_print
        | apply frame_input | apply frame_of_option
        | apply frame_map_io; intros ?
        | apply frame_bind; [apply keeps_files_trans | | intros ?] ].

Lemma frame_set_configurations (v : MenuVars) :
  frame keeps_files (set_configurations v).
Proof.
  unfold set_configurations. cbv zeta.
  repeat first [ frame_step
               | match goal with
                 | |- frame _ (if ?b then _ else _) => destruct b
                 end ].
Qed.

Lemma frame_run_start (fuzzer : FuzzDriller) : frame reads (run_start fuzzer).
Proof.
  intros t t' r. unfold run_start.
  destruct (runs t) as [|evs later] eqn:Hruns; [done|].
  destruct (start fuzzer (world t) evs) as [[[s w'] r']|]; [|done].
  intros [= <- _]. split; simpl; [done|].
  rewrite Hruns. by apply suffix_cons_r.
Qed.

Lemma frame_run_download_fresh (net : pystr -> Reply) (target : pystr)
    (v : MenuVars) :
  frame keeps_files (run_download net (make_fuzzer target v)).
Proof.
  intros t t' r [= <- _]. by repeat split.
Qed.

Lemma returns_bind {A B} (Q : A -> Prop) (P : B -> Prop) (m : IO A)
    (k : A -> IO B) :
  returns Q m -> (forall a, Q a -> returns P (k a)) -> returns P (m ≫= k).
Proof.
  intros Hm Hk t t' b (a & t1 & Hr & Hkr)%bind_ok_inv.
  eapply Hk; [by eapply Hm | done].
Qed.

Lemma returns_bind_any {A B} (P : B -> Prop) (m : IO A) (k : A -> IO B) :
  (forall a, returns P (k a)) -> returns P (m ≫= k).
Proof.
  intros Hk. apply (returns_bind (fun _ => True)); [done|]. intros a _. apply Hk.
Qed.

Lemma returns_ret {A} (P : A -> Prop) (a : A) : P a -> returns P (mret a).
Proof. by intros Ha t t' b [= _ <-]. Qed.

Lemma truthy_nonempty (s : pystr) : truthy s = true -> s <> [].
Proof. by destruct s. Qed.

Lemma split_nonempty (sep : codepoint) (s : pystr) : split sep s <> [].
Proof.
  induction s as [|c s IH]; simpl; [done|].
  destruct (c =? sep); [done|]. by destruct (split sep s).
Qed.

Lemma returns_set_configurations (v : MenuVars) :
  vars_ok v -> returns vars_ok (set_configurations v).
Proof.
  intros [Hbase Hmethods]. unfold set_configurations. cbv zeta.
  repeat (apply returns_bind_any; intros ?).
  apply returns_ret. split; simpl;
    match goal with
    | |- context [truthy ?x] => destruct (truthy x) eqn:Ht
    end; try done.
  - intros [= Heq]. by apply truthy_nonempty in Ht.
  - apply split_nonempty.
Qed.

Ltac frame_keeps :=
  repeat first
    [ apply frame_ret | apply frame_raise | apply frame_print
    | apply frame_input | apply frame_of_option
    | apply frame_set_configurations | apply frame_run_download_fresh
    | apply frame_bind; [apply keeps_files_trans | | intros ?] ].

Ltac frame_reads :=
  repeat first
    [ apply frame_run_start
    | apply frame_weaken; solve [frame_keeps]
    | apply frame_bind; [apply reads_trans | | intros ?] ].

Lemma frame_keeps_branch {A} (m : IO A) (t t' : Term) (r : Result A) :
  frame keeps_files m -> m t = Some (t', r) -> keeps_files t t'.
Proof. intros Hm. apply Hm. Qed.

Lemma frame_reads_start (target : pystr) (v : MenuVars) (t t' : Term)
    (r : Result Next) :
  (print MsgStartingFuzzing ≫= fun _ =>
     run_start (make_fuzzer target v) ≫= fun _ => mret (Continue v)) t
  = Some (t', r) ->
  reads t t'.
Proof.
  assert (frame reads
            (print MsgStartingFuzzing ≫= fun _ =>
               run_start (make_fuzzer target v) ≫= fun _ =>
                 mret (Continue v))) as Hf by frame_reads.
  apply Hf.
Qed.

(** What one turn of the loop does to the terminal and the files. *)
Lemma menu_turn_cases (net : pystr -> Reply) (v : MenuVars) (t t' : Term)
    (r : Result Next) :
  menu_turn net v t = Some (t', r) ->
  (stdin t = [] /\ r = Raise EOFError /\ keeps_files t t')
  \/ exists line rest,
       stdin t = line :: rest
       /\ stdin t' `suffix_of` rest
       /\ runs t' `suffix_of` runs t
       /\ (strip_ws line <> py "1" \/ target_of v = None ->
           files (world t') = files (world t)).
Proof.
  unfold menu_turn, display_welcome_screen. rewrite bind_print.
  destruct (stdin t) as [|line rest] eqn:Hin.
  - unfold mbind, IO_bind, input. cbn [stdin].
    intros [= <- <-]. left. split; [done|]. split; [done|].
    repeat split; simpl; [by rewrite Hin | done..].
  - erewrite bind_input by (cbn [stdin]; reflexivity). cbv beta zeta.
    set (t2 := {| stdin := rest; runs := _; world := _ |}).
    intros Hrun. right. exists line, rest. split; [done|].
    assert (reads t2 t'
            /\ (strip_ws line <> py "1" \/ target_of v = None ->
                keeps_files t2 t')) as [[Hstdin Hruns] Hfiles].
    { revert Hrun. unfold str_eqb.
      destruct (bool_decide (strip_ws line = py "1")) eqn:E1.
      { apply bool_decide_eq_true in E1.
        destruct (target_of v) as [target|]; intros Hrun.
        - split; [revert Hrun; by apply frame_reads_start|].
          by intros [?|?].
        - assert (keeps_files t2 t') as Hk
            by (revert Hrun; apply frame_keeps_branch; frame_keeps).
          split; [by destruct Hk | done]. }
      intros Hrun.
      assert (keeps_files t2 t') as Hk; [|split; [by destruct Hk | done]].
      revert Hrun.
      repeat match goal with
             | |- (if ?b then _ else _) _ = _ -> _ => destruct b
             | |- (match target_of v with _ => _ end) _ = _ -> _ =>
                 destruct (target_of v)
             end; apply frame_keeps_branch; frame_keeps. }
    split; [done|]. split; [done|].
    intros Hcond. by destruct (Hfiles Hcond) as [_ ->].
Qed.

Lemma returns_menu_turn (net : pystr -> Reply) (v : MenuVars) :
  vars_ok v ->
  returns (fun next => forall v', next = Continue v' -> vars_ok v')
          (menu_turn net v).
Proof.
  intros Hok. unfold menu_turn.
  apply returns_bind_any; intros _. apply returns_bind_any; intros line.
  cbv zeta.
  repeat match goal with
         | |- returns _ (if ?b then _ else _) => destruct b
         | |- returns _ (match target_of v with _ => _ end) =>
             destruct (target_of v)
         end;
    try (apply (returns_bind vars_ok);
         [by apply returns_set_configurations|intros v1 Hv1]);
    repeat (apply returns_bind_any; intros ?);
    apply returns_ret; by intros v' [= <-].
Qed.

(** X12: the variables of the menu keep their shape: the target is never
    the empty string and the list of methods is never empty, from the
    initial values on and through every turn.  A probing run started from
    the menu therefore has a target and at least five candidates per
    method, and at least five in all. *)
Theorem menu_keeps_vars_ok (net : pystr -> Reply) (v : MenuVars) :
  vars_ok initial_vars
  /\ (vars_ok v ->
      (forall t t' v',
          menu_turn net v t = Some (t', Ok (Continue v')) -> vars_ok v')
      /\ target_of v = v_base_url v
      /\ forall target w,
           (5 <= length (_load_wordlist (make_fuzzer target v) w)
                 * length (methods (make_fuzzer target v)))%nat).
Proof.
  split; [by split|]. intros Hok. split; [|split].
  - intros t t' v' Hturn. by eapply (returns_menu_turn net v Hok).
  - destruct Hok as [Hbase _]. unfold target_of.
    destruct (v_base_url v) as [[|c u]|]; done.
  - intros target w. destruct Hok as [_ Hmethods].
    assert (5 <= length (_load_wordlist (make_fuzzer target v) w))%nat.
    { change 5%nat with (length COMMON_PATHS). apply submseteq_length.
      apply NoDup_submseteq; [apply common_paths_nodup|].
      intros p Hp. unfold _load_wordlist.
      rewrite elem_of_elements, elem_of_list_to_set, elem_of_app. by right. }
    simpl. destruct (v_methods v); [done|]. simpl. nia.
Qed.

(** X13: only a probing run writes files from the menu: a turn whose
    choice is not 1, or that has no target yet, leaves every file as it
    was, whether it returns or raises; at the end of the terminal input the
    turn raises [EOFError]. *)
Theorem menu_turn_keeps_files
    (net : pystr -> Reply) (v : MenuVars) (t t' : Term) (r : Result Next) :
  menu_turn net v t = Some (t', r) ->
  (stdin t = [] -> r = Raise EOFError /\ files (world t') = files (world t))
  /\ (forall line rest,
        stdin t = line :: rest ->
        strip_ws line <> py "1" \/ target_of v = None ->
        files (world t') = files (world t)).
Proof.
  intros [(Hnil & -> & _ & Hfiles)
         |(line & rest & Hin & _ & _ & Hfiles)]%menu_turn_cases.
  - split; [done|]. intros line rest Hin. congruence.
  - split; [congruence|]. intros line' rest' Hin'.
    rewrite Hin in Hin'. by injection Hin' as <- <-.
Qed.



Lemma decode_ok (line : pystr) (dflt : JSON) :
  ~ bad_json line ->
  exists j,
    (if truthy (strip_ws line)
     then of_option JSONDecodeError (json_loads (strip_ws line))
     else mret dflt) = mret j
    /\ if truthy (strip_ws line)
       then json_loads (strip_ws line) = Some j
       else j = dflt.
Proof.
  unfold bad_json. intros Hgood.
  destruct (truthy (strip_ws line)); [|by exists dflt].
  destruct (json_loads (strip_ws line)) as [j|]; [by exists j|].
  by destruct Hgood.
Qed.

Lemma map_io_ok (pieces : list pystr) (t : Term) :
  (forall piece, piece ∈ pieces -> py_int piece <> None) ->
  exists zs,
    map_io (fun s => of_option ValueError (py_int s)) pieces t
    = Some (t, Ok zs)
    /\ Forall2 (fun piece z => py_int piece = Some z) pieces zs.
Proof.
  induction pieces as [|x pieces IH]; intros Hall.
  - by exists [].
  - destruct (py_int x) as [z|] eqn:Hx;
      [|by destruct (Hall x (list_elem_of_here _ _))].
    destruct IH as (zs & Hzs & Hf2).
    { intros piece Hp. apply Hall. by right. }
    exists (z :: zs). split; [|by constructor].
    cbn [map_io]. rewrite Hx. cbn [of_option]. rewrite bind_ret.
    unfold mbind, IO_bind. by rewrite Hzs.
Qed.

Lemma codes_ok (line : pystr) (dflt : list Z) (t : Term) :
  ~ bad_status_codes line ->
  exists zs,
    (if truthy (strip_ws line)
     then map_io (fun s => of_option ValueError (py_int s))
                 (split COMMA (strip_ws line))
     else mret dflt) t
    = Some (t, Ok zs)
    /\ if truthy (strip_ws line)
       then Forall2 (fun piece z => py_int piece = Some z)
                    (split COMMA (strip_ws line)) zs
       else zs = dflt.
Proof.
  unfold bad_status_codes. intros Hgood.
  destruct (truthy (strip_ws line)); [|by exists dflt].
  apply map_io_ok. intros piece Hp Hnone. apply Hgood. split; [done|].
  by exists piece.
Qed.

(** X15: option 2 with input that is not malformed reads its seven lines,
    prints the confirmation and stores every entry: a blank entry keeps the
    previous value, a target, word list or output file is stored stripped,
    headers and cookies as decoded, the methods as the pieces between
    commas and the status codes as the integers of the pieces.  With seven
    blank lines nothing changes. *)
Theorem well_formed_configuration_is_stored
    (v : MenuVars) (t : Term) (target wl out h k m s : pystr)
    (rest : list pystr) :
  stdin t = target :: wl :: out :: h :: k :: m :: s :: rest ->
  ~ malformed h k s ->
  exists v',
    set_configurations v t
    = Some ({| stdin := rest; runs := runs t;
               world := emit (Print MsgConfigurationsUpdated)
                          (emit (Print MsgSetConfigurations) (world t)) |},
            Ok v')
    /\ v_base_url v'
       = (if truthy (strip_ws target) then Some (strip_ws target)
          else v_base_url v)
    /\ v_wordlist v' = or_else (strip_ws wl) (v_wordlist v)
    /\ v_output_file v' = or_else (strip_ws out) (v_output_file v)
    /\ (if truthy (strip_ws h)
        then json_loads (strip_ws h) = Some (v_headers v')
        else v_headers v' = v_headers v)
    /\ (if truthy (strip_ws k)
        then json_loads (strip_ws k) = Some (v_cookies v')
        else v_cookies v' = v_cookies v)
    /\ v_methods v'
       = (if truthy (strip_ws m) then split COMMA (strip_ws m)
          else v_methods v)
    /\ (if truthy (strip_ws s)
        then Forall2 (fun piece z => py_int piece = Some z)
                     (split COMMA (strip_ws s)) (v_valid_status_codes v')
        else v_valid_status_codes v' = v_valid_status_codes v)
    /\ (Forall (fun line => strip_ws line = [])
               [target; wl; out; h; k; m; s] -> v' = v).
Proof.
  intros Hin Hgood.
  assert (~ bad_json h /\ ~ bad_json k /\ ~ bad_status_codes s)
    as (Hh & Hk & Hs) by (unfold malformed in Hgood; tauto).
  unfold set_configurations.
  rewrite bind_print.
  erewrite bind_input by (cbn [stdin]; exact Hin). cbv beta zeta.
  do 3 (erewrite bind_input by (cbn [stdin]; reflexivity); cbv beta zeta).
  cbn [runs world].
  destruct (decode_ok h (v_headers v) Hh) as (hv & -> & Hhv).
  rewrite bind_ret.
  erewrite bind_input by (cbn [stdin]; reflexivity). cbv beta zeta.
  cbn [runs world].
  destruct (decode_ok k (v_cookies v) Hk) as (kv & -> & Hkv).
  rewrite bind_ret.
  do 2 (erewrite bind_input by (cbn [stdin]; reflexivity); cbv beta zeta).
  cbn [runs world].
  match goal with
  | |- context [mbind _ ?m ?t0] =>
      destruct (codes_ok s (v_valid_status_codes v) t0 Hs) as (zs & Hzs & Hcodes)
  end.
  unfold mbind at 1. unfold IO_bind at 1. rewrite Hzs.
  rewrite bind_print. eexists. split; [reflexivity|]. cbn.
  repeat split; try done.
  intros Hblank.
  repeat match goal with
         | H : Forall _ (_ :: _) |- _ => apply Forall_cons in H as [? H]
         end.
  repeat match goal with
         | H : strip_ws ?x = [] |- _ => rewrite H in *; clear H
         end.
  cbn in *. subst. by destruct v.
Qed.

End MenuProperties.

Section FetcherOutcomes.
Context {RT : PyRuntime}.

(** X16: for a response with an accepted status and a known content type,
    [download_content] stores the body under
    [downloaded_pages/<sanitized name>.<ext>] and logs the download; when
    reading the body raises, the file has already been opened for writing
    and is left behind empty, with an error logged; and when a regular file
    named [downloaded_pages] is in the way, nothing is written and an error
    is logged. *)
Theorem download_persists_body
    (self : FuzzDriller) (w : World) (url : pystr) (response : HttpResponse)
    (ext : pystr) :
  session self = OpenSession ->
  status response ∈ valid_status_codes self ->
  _get_file_extension (default [] (content_type response)) = Some ext ->
  (forall body,
      files w !! py "downloaded_pages" = None ->
      text response = Some body ->
      download_content self w url (Responded response)
      = emit (LogInfo (MsgDownloaded url
                (py "downloaded_pages/" ++ _sanitize_filename self url
                 ++ py "." ++ ext)))
             (write_file (py "downloaded_pages/" ++ _sanitize_filename self url
                          ++ py "." ++ ext) body w))
  /\ (files w !! py "downloaded_pages" = None ->
      text response = None ->
      download_content self w url (Responded response)
      = emit (LogError (MsgDownloadFailed url))
             (write_file (py "downloaded_pages/" ++ _sanitize_filename self url
                          ++ py "." ++ ext) [] w))
  /\ (is_Some (files w !! py "downloaded_pages") ->
      download_content self w url (Responded response)
      = emit (LogError (MsgDownloadFailed url)) w).
Proof.
  intros Hs Hin%status_in_spec Hext.
  destruct (extension_known _ _ Hext) as [_ Hno].
  destruct (file_path_shape self url ext Hno) as [Hpath Hnoslash].
  unfold download_content. rewrite Hs, Hin, Hext, Hpath.
  rewrite (dirname_downloaded _ Hnoslash).
  split; [|split].
  - intros body -> ->. unfold emit, write_file. simpl.
    by rewrite insert_insert_eq.
  - by intros -> ->.
  - by intros [x ->].
Qed.

End FetcherOutcomes.

(** * The further properties at sample inputs *)

Lemma sample_trace_replies : replies_from sample_net sample_trace.
Proof.
  intros i reply Hin. unfold sample_trace in Hin.
  repeat (apply elem_of_cons in Hin as [Heq|Hin];
          [by (discriminate Heq || (injection Heq as -> ->))|]).
  by apply elem_of_nil in Hin.
Defined.

Lemma sample_trace_in_order_replies :
  replies_from sample_net sample_trace_in_order.
Proof.
  intros i reply Hin. unfold sample_trace_in_order in Hin.
  repeat (apply elem_of_cons in Hin as [Heq|Hin];
          [by (discriminate Heq || (injection Heq as -> ->))|]).
  by apply elem_of_nil in Hin.
Defined.

Lemma found_endpoints_sample :
  exists d,
    exec [Acquire 0; Acquire 1; Complete 1 (status_only 200)]
         (_process_paths_dispatch sample_session empty_world COMMON_PATHS)
    = Some d
    /\ forall u : pystr,
        u ∈ found_endpoints (self_ d)
        <-> u ∈ found_endpoints sample_session
            \/ exists i p m code,
                 tasks d !! i = Some (mkTask p m (Done (Ok (Some code))))
                 /\ code ∈ valid_status_codes sample_session
                 /\ u = request_url sample_session p.
Proof.
  destruct (exec [Acquire 0; Acquire 1; Complete 1 (status_only 200)]
              (_process_paths_dispatch sample_session empty_world COMMON_PATHS))
    as [d|] eqn:Hexec; [|by vm_compute in Hexec].
  exists d. split; [done|].
  exact (found_endpoints_are_accepted_tasks _ _ _ _ _ Hexec).
Defined.

Lemma schedule_independence_sample :
  exists s1 w1 r1 s2 w2 r2,
    start sample_fuzzer empty_world sample_trace = Some (s1, w1, r1)
    /\ start sample_fuzzer empty_world sample_trace_in_order
       = Some (s2, w2, r2)
    /\ s1 = s2 /\ files w1 = files w2 /\ r1 = r2.
Proof.
  destruct (start sample_fuzzer empty_world sample_trace)
    as [[[s1 w1] r1]|] eqn:H1; [|by vm_compute in H1].
  destruct (start sample_fuzzer empty_world sample_trace_in_order)
    as [[[s2 w2] r2]|] eqn:H2; [|by vm_compute in H2].
  exists s1, w1, r1, s2, w2, r2. split; [done|]. split; [done|].
  exact (run_result_independent_of_schedule _ _ sample_net _ _ _ _ _ _ _ _
           H1 H2 sample_trace_replies sample_trace_in_order_replies).
Defined.

Lemma start_writes_only_report_sample :
  exists self' w' r,
    start sample_fuzzer empty_world sample_trace = Some (self', w', r)
    /\ (forall path, path <> output_file sample_fuzzer ->
                     files w' !! path = files empty_world !! path)
    /\ console empty_world `prefix_of` console w'
    /\ same_config self' sample_fuzzer
    /\ found_endpoints sample_fuzzer ⊆ found_endpoints self'
    /\ session self' = ClosedSession.
Proof.
  destruct (start sample_fuzzer empty_world sample_trace)
    as [[[s1 w1] r1]|] eqn:H1; [|by vm_compute in H1].
  exists s1, w1, r1. split; [done|].
  exact (start_writes_only_report _ _ _ _ _ _ H1).
Defined.

Lemma progress_sample :
  exists self' w' r,
    start sample_fuzzer empty_world sample_trace = Some (self', w', r)
    /\ progress_events (console w')
       = progress_events (console empty_world)
         ++ map (fun k => ((completed_tasks sample_fuzzer + k)%nat,
                           total_tasks self'))
                (seq 1 (total_tasks self')).
Proof.
  destruct (start sample_fuzzer empty_world sample_trace)
    as [[[s1 w1] r1]|] eqn:H1; [|by vm_compute in H1].
  exists s1, w1, r1. split; [done|].
  exact (progress_advances_by_one _ _ _ _ _ _ H1).
Defined.

Lemma candidate_paths_sample :
  py "/admin" ∈ _load_wordlist sample_fuzzer empty_world
  /\ py "/admin" <> []
  /\ strip_ws (py "/admin") = py "/admin"
  /\ LF ∉ py "/admin".
Proof.
  destruct (candidate_paths_are_clean sample_fuzzer empty_world)
    as (Hclean & Hcommon & _).
  assert (py "/admin" ∈ _load_wordlist sample_fuzzer empty_world) as Hin.
  { apply Hcommon. by left. }
  split; [exact Hin|]. exact (Hclean _ Hin).
Defined.

Lemma report_lines_sample :
  (LF ∉ py "http://example.test/")
  /\ exists self' w' r,
      start sample_fuzzer empty_world sample_trace = Some (self', w', r)
      /\ (forall u, u ∈ found_endpoints self' ->
            (LF ∉ u)
            /\ exists p, p ∈ _load_wordlist sample_fuzzer empty_world
                         /\ u = request_url sample_fuzzer p)
      /\ (found_endpoints self' <> ∅ ->
          exists urls,
            files w' !! DEFAULT_OUTPUT = Some (report_text urls)
            /\ split_lines (report_text urls) = map (fun u => u ++ [LF]) urls
            /\ StronglySorted str_lt urls
            /\ forall u, u ∈ urls <-> u ∈ found_endpoints self').
Proof.
  assert (LF ∉ py "http://example.test/") as Hlf.
  { apply (bool_decide_unpack _). by vm_compute. }
  split; [exact Hlf|].
  destruct (start sample_fuzzer empty_world sample_trace)
    as [[[s1 w1] r1]|] eqn:H1; [|by vm_compute in H1].
  exists s1, w1, r1. split; [done|].
  exact (report_lines_are_urls _ _ _ _ _ _ _ _ _ _ _ _ Hlf H1).
Defined.

Lemma download_directory_sample :
  files (download_content (RT := latin1_runtime) sample_session empty_world
           (py "http://example.test/a/b.php") (Responded sample_html))
    !! py "downloaded_pages/a_b_php.html"
  <> files empty_world !! py "downloaded_pages/a_b_php.html"
  /\ exists ext,
      py "downloaded_pages/a_b_php.html"
      = py "downloaded_pages/"
        ++ _sanitize_filename (RT := latin1_runtime) sample_session
             (py "http://example.test/a/b.php")
        ++ py "." ++ ext
      /\ (ext = py "html" \/ ext = py "js" \/ ext = py "php")
      /\ (SLASH ∉ _sanitize_filename (RT := latin1_runtime) sample_session
                     (py "http://example.test/a/b.php") ++ py "." ++ ext)
      /\ dirname (py "downloaded_pages/a_b_php.html") = py "downloaded_pages".
Proof.
  assert (files (download_content (RT := latin1_runtime) sample_session
                   empty_world (py "http://example.test/a/b.php")
                   (Responded sample_html))
            !! py "downloaded_pages/a_b_php.html"
          <> files empty_world !! py "downloaded_pages/a_b_php.html") as Hne.
  { intros Heq. by vm_compute in Heq. }
  split; [exact Hne|].
  exact (download_stays_in_directory (RT := latin1_runtime) _ _ _ _ _ Hne).
Defined.

Lemma download_phase_sample :
  startswith (py "downloaded_pages/") DEFAULT_OUTPUT = false
  /\ files (download_discovered_endpoints (RT := latin1_runtime)
              (set_session OpenSession sample_found)
              (world sample_download_term)
              (fun _ => Responded sample_html))
       !! DEFAULT_OUTPUT
     = files (world sample_download_term) !! DEFAULT_OUTPUT.
Proof.
  split; [reflexivity|].
  exact (download_phase_keeps_other_files (RT := latin1_runtime) _ _ _
           DEFAULT_OUTPUT eq_refl).
Defined.

Lemma download_without_session_sample :
  session sample_found <> OpenSession
  /\ files (download_discovered_endpoints (RT := latin1_runtime) sample_found
              empty_world (fun _ => Responded sample_html))
     = files empty_world
  /\ console (download_discovered_endpoints (RT := latin1_runtime)
                sample_found empty_world (fun _ => Responded sample_html))
     = console empty_world ++ [LogInfo MsgDownloading]
       ++ map (fun u => LogError (MsgDownloadFailed u))
              (download_tasks sample_found)
       ++ [LogInfo MsgDownloadCompleted].
Proof.
  assert (session sample_found <> OpenSession) as Hs by discriminate.
  split; [exact Hs|].
  exact (proj1 (download_without_session_persists_nothing
                  (RT := latin1_runtime) sample_found empty_world
                  (fun _ => Responded sample_html)) Hs).
Defined.

Lemma menu_vars_sample :
  vars_ok sample_vars
  /\ target_of sample_vars = v_base_url sample_vars
  /\ forall target w,
       (5 <= length (_load_wordlist (make_fuzzer target sample_vars) w)
             * length (methods (make_fuzzer target sample_vars)))%nat.
Proof.
  assert (vars_ok sample_vars) as Hok by (split; discriminate).
  split; [exact Hok|].
  exact (proj2 (proj2 (menu_keeps_vars_ok (RT := latin1_runtime) no_network
                         sample_vars) Hok)).
Defined.

Lemma menu_files_sample :
  exists t' r,
    menu_turn (RT := latin1_runtime) no_network initial_vars sample_term
    = Some (t', r)
    /\ strip_ws (py "2") <> py "1"
    /\ files (world t') = files (world sample_term).
Proof.
  destruct (menu_turn (RT := latin1_runtime) no_network initial_vars
              sample_term) as [[t' r]|] eqn:Hturn; [|by vm_compute in Hturn].
  assert (strip_ws (py "2") <> py "1") as Hchoice by discriminate.
  exists t', r. split; [done|]. split; [exact Hchoice|].
  exact (proj2 (menu_turn_keeps_files (RT := latin1_runtime) _ _ _ _ _ Hturn)
           (py "2") _ eq_refl (or_introl Hchoice)).
Defined.


Lemma configuration_sample :
  ~ malformed (RT := latin1_runtime) [] [] (py "200, 404")
  /\ exists v',
      set_configurations (RT := latin1_runtime) initial_vars sample_config_term
      = Some ({| stdin := [py "5"]; runs := [];
                 world := emit (Print MsgConfigurationsUpdated)
                            (emit (Print MsgSetConfigurations) empty_world) |},
              Ok v')
      /\ v_base_url v' = Some (py "http://example.test/")
      /\ v_output_file v' = py "out.txt"
      /\ v_methods v' = [py "GET"; py "POST"]
      /\ v_wordlist v' = DEFAULT_WORDLIST.
Proof.
  assert (~ malformed (RT := latin1_runtime) [] [] (py "200, 404")) as Hgood.
  { intros [[Ht _]|[[Ht _]|(_ & piece & Hin & Hnone)]];
      [by vm_compute in Ht..|].
    apply list_elem_of_In in Hin. vm_compute in Hin.
    destruct Hin as [<-|[<-|[]]]; by vm_compute in Hnone. }
  split; [exact Hgood|].
  destruct (well_formed_configuration_is_stored (RT := latin1_runtime)
              initial_vars sample_config_term
              (py " http://example.test/ ") [] (py "out.txt") [] []
              (py "GET,POST") (py "200, 404") [py "5"] eq_refl Hgood)
    as (v' & Hrun & Hbase & Hwl & Hout & _ & _ & Hmethods & _).
  exists v'. split; [exact Hrun|]. split; [exact Hbase|].
  split; [exact Hout|]. split; [exact Hmethods | exact Hwl].
Defined.

Lemma download_body_sample :
  session sample_session = OpenSession
  /\ status sample_html ∈ valid_status_codes sample_session
  /\ _get_file_extension (default [] (content_type sample_html))
     = Some (py "html")
  /\ download_content (RT := latin1_runtime) sample_session empty_world
       (py "http://example.test/admin") (Responded sample_html)
     = emit (LogInfo (MsgDownloaded (py "http://example.test/admin")
               (py "downloaded_pages/"
                ++ _sanitize_filename (RT := latin1_runtime) sample_session
                     (py "http://example.test/admin")
                ++ py "." ++ py "html")))
            (write_file (py "downloaded_pages/"
                         ++ _sanitize_filename (RT := latin1_runtime)
                              sample_session (py "http://example.test/admin")
                         ++ py "." ++ py "html")
                        (py "<html>") empty_world).
Proof.
  assert (status sample_html ∈ valid_status_codes sample_session) as Hin
    by (by left).
  split; [reflexivity|]. split; [exact Hin|]. split; [reflexivity|].
  exact (proj1 (download_persists_body (RT := latin1_runtime) sample_session
                  empty_world (py "http://example.test/admin") sample_html
                  (py "html") eq_refl Hin eq_refl)
           (py "<html>") (lookup_empty _) eq_refl).
Defined.
